(** * XO game server: the room state machine of [src/index.js]

    A shallow embedding of the socket handlers of the server (room
    creation, join, rejoin, moves, ready gate, score reset, disconnect and
    the idle-cleanup timer) together with the properties of the
    specification that were checked against it. *)

From Stdlib Require Import QArith.
From stdpp Require Import gmap strings list.

Open Scope Z_scope.

(** ** Data model *)

(** The two marks ['X'] and ['O']. *)
Inductive mark := X | O.

Global Instance mark_eq_dec : EqDecision mark.
Proof. solve_decision. Defined.

(** A board cell: [None] is JavaScript's [null]. *)
Definition cell := option mark.

(** [{ id, playerId, nickname, symbol, points }]; [id] is the socket id of
    the seat, [None] standing for [null].  The numbers that count ([points]
    here, [round] below) are integers: they stay far inside the range where
    a double adds 1 exactly. *)
Record Seat := mkSeat {
  id : option string;
  playerId : string;
  nickname : string;
  symbol : mark;
  points : Z
}.

(** A room of the [rooms] map.  [readySet] is the [Set] of socket ids,
    [cleanupTimer] the handle returned by [setTimeout] ([None] when the
    field is [undefined]). *)
Record Room := mkRoom {
  players : list Seat;
  board : list cell;
  currentTurn : mark;
  round : Z;
  readySet : gset string;
  cleanupTimer : option nat
}.

(** ** Win detector *)

Definition wins : list (nat * nat * nat) :=
  [ (0, 1, 2); (3, 4, 5); (6, 7, 8);
    (0, 3, 6); (1, 4, 7); (2, 5, 8);
    (0, 4, 8); (2, 4, 6) ]%nat.

(** [board[a] && board[a] === board[b] && board[a] === board[c]]: an index
    outside the array reads [undefined], which is falsy like [null]; a mark
    is strictly equal only to the same mark. *)
Definition line_complete (b : list cell) (l : nat * nat * nat) : option mark :=
  let '(x, y, z) := l in
  match b !! x with
  | Some (Some m) =>
      if bool_decide (b !! y = Some (Some m)) && bool_decide (b !! z = Some (Some m))
      then Some m else None
  | _ => None
  end.

(** The [for (const [a,b,c] of wins)] loop, returning at the first hit. *)
Fixpoint scan_wins (b : list cell) (ls : list (nat * nat * nat))
  : option mark * option (nat * nat * nat) :=
  match ls with
  | [] => (None, None)
  | l :: rest =>
      match line_complete b l with
      | Some m => (Some m, Some l)
      | None => scan_wins b rest
      end
  end.

Definition checkWinner (b : list cell) : option mark * option (nat * nat * nat) :=
  scan_wins b wins.

(** ** Values received from clients *)

(** The [index] field of a [make-move] payload.  A JSON number is a finite
    double, hence a rational ([-0] compares and indexes like [0], and a
    literal too large for a double reads as a number above 8 either way);
    every other value (string, boolean, [null], object, missing field) has
    a [typeof] different from ['number']. *)
Inductive jsval :=
  | JNum (q : Q)
  | JOther.

Definition Qlt_bool (a b : Q) : bool := negb (Qle_bool b a).

(** The array index a number denotes as a property key: a non-negative
    integer.  Any other number names a property the array does not have. *)
Definition array_index (q : Q) : option nat :=
  if (0 <=? Qnum q) && (Z.rem (Qnum q) (Zpos (Qden q)) =? 0)
  then Some (Z.to_nat (Qnum q / Zpos (Qden q)))
  else None.

(** [board[index]]: [None] is [undefined]. *)
Definition board_read (b : list cell) (q : Q) : option cell :=
  match array_index q with
  | Some i => b !! i
  | None => None
  end.

(** [!s] on a string field: the empty string is falsy (a missing field is
    modelled by the empty string). *)
Definition falsy (s : string) : bool := bool_decide (s = "").

(** [!!p.id] *)
Definition truthy_id (i : option string) : bool :=
  match i with
  | Some s => negb (falsy s)
  | None => false
  end.

(** ** Room identifiers *)

(** [toUpperCase] on the characters base 36 produces. *)
Definition upper_ascii (c : Ascii.ascii) : Ascii.ascii :=
  let n := Ascii.N_of_ascii c in
  if ((97 <=? n) && (n <=? 122))%N then Ascii.ascii_of_N (n - 32) else c.

Fixpoint toUpperCase (s : string) : string :=
  match s with
  | EmptyString => EmptyString
  | String c rest => String (upper_ascii c) (toUpperCase rest)
  end.

(** [s.slice(from, to)] for [0 <= from <= to]. *)
Definition slice (from to : nat) (s : string) : string :=
  String.substring from (to - from) s.

(** [generateRoomId], applied to [rnd], the string
    [Math.random().toString(36)] of this call. *)
Definition generateRoomId (rnd : string) : string :=
  toUpperCase (slice 2 8 rnd).

(** ** The store *)

(** [rooms] is a [Map]: it iterates in insertion order, and [set] on a
    present key replaces the value where it stands. *)
Definition store := list (string * Room).

Fixpoint rooms_get (k : string) (m : store) : option Room :=
  match m with
  | [] => None
  | (k', v) :: rest => if decide (k' = k) then Some v else rooms_get k rest
  end.

Fixpoint rooms_set (k : string) (v : Room) (m : store) : store :=
  match m with
  | [] => [(k, v)]
  | (k', v') :: rest =>
      if decide (k' = k) then (k, v) :: rest else (k', v') :: rooms_set k v rest
  end.

Fixpoint rooms_delete (k : string) (m : store) : store :=
  match m with
  | [] => []
  | (k', v') :: rest =>
      if decide (k' = k) then rooms_delete k rest else (k', v') :: rooms_delete k rest
  end.

(** The server: the store, the timeouts that are pending with the room id
    their callback captured, and the next timeout handle. *)
Record State := mkState {
  rooms : store;
  timers : gmap nat string;
  nextTimer : nat
}.

Definition init : State := mkState [] ∅ 0.

(** Field updates. *)
Definition set_players (r : Room) (ps : list Seat) : Room :=
  mkRoom ps (board r) (currentTurn r) (round r) (readySet r) (cleanupTimer r).
Definition set_readySet (r : Room) (rs : gset string) : Room :=
  mkRoom (players r) (board r) (currentTurn r) (round r) rs (cleanupTimer r).
Definition set_cleanupTimer (r : Room) (t : option nat) : Room :=
  mkRoom (players r) (board r) (currentTurn r) (round r) (readySet r) t.
Definition set_id (p : Seat) (i : option string) : Seat :=
  mkSeat i (playerId p) (nickname p) (symbol p) (points p).
Definition set_points (p : Seat) (n : Z) : Seat :=
  mkSeat (id p) (playerId p) (nickname p) (symbol p) n.
Definition set_rooms (s : State) (m : store) : State :=
  mkState m (timers s) (nextTimer s).

(** Mutation of the object [Array.prototype.find] returned: the first
    element that satisfies [f] is changed where it stands. *)
Fixpoint update_first {A} (f : A → bool) (g : A → A) (l : list A) : list A :=
  match l with
  | [] => []
  | x :: rest => if f x then g x :: rest else x :: update_first f g rest
  end.

(** ** Messages *)

Record Snapshot := mkSnapshot {
  snap_roomId : string;
  snap_round : Z;
  snap_currentTurn : mark;
  snap_board : list cell;
  snap_players : list Seat
}.

Inductive reply :=
  | Created (roomId : string)
  | Success
  | Rejoined (snapshot : option Snapshot)
  | Failure (message : string).

Inductive message :=
  | StartGame (snapshot : option Snapshot)
  | UpdateBoard (b : list cell) (turn : mark) (lastMoveIndex : Q)
  | RoundOver (winner : option mark) (winningLine : option (nat * nat * nat))
              (rnd : Z) (ps : list Seat) (b : list cell) (lastMoveIndex : Q)
  | NewRound (rnd : Z) (b : list cell) (turn : mark) (ps : list Seat)
  | ScoreReset (ps : list Seat)
  | PlayerLeft (pid nick : string) (sym : mark).

(** What a handler sends: the acknowledgement [cb] of the caller, or an
    [io.to(roomId).emit]. *)
Inductive output :=
  | Reply (r : reply)
  | Emit (roomId : string) (m : message).

(** ** Helpers *)

Definition roomSnapshot (roomId : string) (s : State) : option Snapshot :=
  match rooms_get roomId (rooms s) with
  | None => None
  | Some room =>
      Some (mkSnapshot roomId (round room) (currentTurn room) (board room) (players room))
  end.

Definition activePlayersCount (room : Room) : nat :=
  length (List.filter (λ p, truthy_id (id p)) (players room)).

(** [scheduleRoomCleanup]; the delay is not modelled, the timeout stays
    pending until it fires or is cleared. *)
Definition scheduleRoomCleanup (roomId : string) (s : State) : State :=
  match rooms_get roomId (rooms s) with
  | None => s
  | Some room =>
      match cleanupTimer room with
      | Some _ => s
      | None =>
          let t := nextTimer s in
          mkState (rooms_set roomId (set_cleanupTimer room (Some t)) (rooms s))
                  (<[t := roomId]> (timers s))
                  (S t)
      end
  end.

(** [clearTimeout(h)] *)
Definition clearTimeout (h : option nat) (ts : gmap nat string) : gmap nat string :=
  match h with
  | Some t => delete t ts
  | None => ts
  end.

(** The callback of the cleanup timeout [t], run when it expires. *)
Definition timer_fire (t : nat) (s : State) : State * list output :=
  match timers s !! t with
  | None => (s, [])
  | Some roomId =>
      let ts := delete t (timers s) in
      match rooms_get roomId (rooms s) with
      | None => (mkState (rooms s) ts (nextTimer s), [])
      | Some r =>
          if bool_decide (activePlayersCount r = 0%nat)
          then (mkState (rooms_delete roomId (rooms s)) ts (nextTimer s), [])
          else (mkState (rooms_set roomId (set_cleanupTimer r None) (rooms s))
                        (clearTimeout (cleanupTimer r) ts) (nextTimer s), [])
      end
  end.

(** ** Socket handlers *)

Definition is_socket (sock : string) (p : Seat) : bool :=
  bool_decide (id p = Some sock).

Definition create_room (sock nick pid rnd : string) (s : State) : State * list output :=
  if falsy nick || falsy pid
  then (s, [Reply (Failure "nickname and playerId are required")])
  else
    let roomId := generateRoomId rnd in
    let room := mkRoom [mkSeat (Some sock) pid nick X 0] (replicate 9 None) X 1 ∅ None in
    (set_rooms s (rooms_set roomId room (rooms s)), [Reply (Created roomId)]).

Definition join_room (sock nick pid roomId : string) (s : State) : State * list output :=
  match rooms_get roomId (rooms s) with
  | None => (s, [Reply (Failure "Room not found")])
  | Some room =>
      if falsy nick || falsy pid
      then (s, [Reply (Failure "nickname and playerId are required")])
      else if (2 <=? length (players room))%nat
      then (s, [Reply (Failure "Room is full")])
      else
        let room' := set_players room (players room ++ [mkSeat (Some sock) pid nick O 0]) in
        let s' := set_rooms s (rooms_set roomId room' (rooms s)) in
        (s', [Emit roomId (StartGame (roomSnapshot roomId s')); Reply Success])
  end.

Definition rejoin_room (sock roomId pid : string) (s : State) : State * list output :=
  match rooms_get roomId (rooms s) with
  | None => (s, [Reply (Failure "Room not found")])
  | Some room =>
      let same p := bool_decide (playerId p = pid) in
      match List.find same (players room) with
      | None => (s, [Reply (Failure "Seat not found")])
      | Some _ =>
          let room1 := set_players room (update_first same (λ p, set_id p (Some sock)) (players room)) in
          let room2 := set_cleanupTimer room1 None in
          let s' := mkState (rooms_set roomId room2 (rooms s))
                            (clearTimeout (cleanupTimer room) (timers s))
                            (nextTimer s) in
          (s', [Reply (Rejoined (roomSnapshot roomId s'))])
      end
  end.

Definition make_move (sock roomId : string) (index : jsval) (s : State) : State * list output :=
  match rooms_get roomId (rooms s) with
  | None => (s, [])
  | Some room =>
      match List.find (is_socket sock) (players room) with
      | None => (s, [])
      | Some player =>
          match index with
          | JOther => (s, [])
          | JNum q =>
              if Qlt_bool q (inject_Z 0) || Qlt_bool (inject_Z 8) q then (s, []) else
              match array_index q, board_read (board room) q with
              | Some i, Some None =>
                  if negb (bool_decide (currentTurn room = symbol player)) then (s, []) else
                  let board1 := <[i := Some (symbol player)]> (board room) in
                  let turn1 := if bool_decide (symbol player = X) then O else X in
                  let upd := Emit roomId (UpdateBoard board1 turn1 q) in
                  let '(winner, line) := checkWinner board1 in
                  let isDraw := negb (bool_decide (is_Some winner))
                                && forallb (λ c, bool_decide (c ≠ None)) board1 in
                  if bool_decide (is_Some winner) || isDraw
                  then
                    let players1 :=
                      match winner with
                      | Some w => update_first (λ p, bool_decide (symbol p = w))
                                               (λ p, set_points p (points p + 1)) (players room)
                      | None => players room
                      end in
                    let over := Emit roomId (RoundOver winner line (round room) players1 board1 q) in
                    let room' := mkRoom players1 board1 turn1 (round room) ∅ (cleanupTimer room) in
                    (set_rooms s (rooms_set roomId room' (rooms s)), [upd; over])
                  else
                    let room' := mkRoom (players room) board1 turn1 (round room)
                                        (readySet room) (cleanupTimer room) in
                    (set_rooms s (rooms_set roomId room' (rooms s)), [upd])
              | _, _ => (s, [])
              end
          end
      end
  end.

Definition ready_next_round (sock roomId : string) (s : State) : State * list output :=
  match rooms_get roomId (rooms s) with
  | None => (s, [])
  | Some room =>
      let ready := {[sock]} ∪ readySet room in
      if (2 <=? size ready)%nat
      then
        let round1 := round room + 1 in
        let board1 := replicate 9 None in
        let turn1 := if Z.rem round1 2 =? 1 then X else O in
        let room' := mkRoom (players room) board1 turn1 round1 ∅ (cleanupTimer room) in
        (set_rooms s (rooms_set roomId room' (rooms s)),
         [Emit roomId (NewRound round1 board1 turn1 (players room))])
      else
        (set_rooms s (rooms_set roomId (set_readySet room ready) (rooms s)), [])
  end.

Definition reset_scores (roomId : string) (s : State) : State * list output :=
  match rooms_get roomId (rooms s) with
  | None => (s, [])
  | Some room =>
      let players1 := map (λ p, set_points p 0) (players room) in
      (set_rooms s (rooms_set roomId (set_players room players1) (rooms s)),
       [Emit roomId (ScoreReset players1)])
  end.

(** The [for ... of rooms.entries()] loop of the disconnect handler up to
    its [break]: the first room with a seat of this socket has that seat
    marked offline where it stands; the result carries the store, the room
    id, the room after the mutation and the seat as found. *)
Fixpoint mark_offline (sock : string) (m : store) : option (store * string * Room * Seat) :=
  match m with
  | [] => None
  | (roomId, room) :: rest =>
      match List.find (is_socket sock) (players room) with
      | Some player =>
          let room' := set_players room
                         (update_first (is_socket sock) (λ p, set_id p None) (players room)) in
          Some ((roomId, room') :: rest, roomId, room', player)
      | None =>
          match mark_offline sock rest with
          | Some (rest', roomId', room', player) =>
              Some ((roomId, room) :: rest', roomId', room', player)
          | None => None
          end
      end
  end.

Definition disconnect (sock : string) (s : State) : State * list output :=
  match mark_offline sock (rooms s) with
  | None => (s, [])
  | Some (m, roomId, room, player) =>
      let s1 := set_rooms s m in
      let left := Emit roomId (PlayerLeft (playerId player) (nickname player) (symbol player)) in
      if bool_decide (activePlayersCount room = 0%nat)
      then (scheduleRoomCleanup roomId s1, [left])
      else (s1, [left])
  end.

(** ** The server as a transition system *)

(** What reaches the server: a client request on socket [sock], the close
    of a socket, or the expiry of a pending timeout. *)
Inductive event :=
  | CreateRoom (sock nick pid rnd : string)
  | JoinRoom (sock nick pid roomId : string)
  | RejoinRoom (sock roomId pid : string)
  | MakeMove (sock roomId : string) (index : jsval)
  | ReadyNextRound (sock roomId : string)
  | ResetScores (sock roomId : string)
  | Disconnect (sock : string)
  | TimerFire (t : nat).

Definition step (s : State) (e : event) : State * list output :=
  match e with
  | CreateRoom sock nick pid rnd => create_room sock nick pid rnd s
  | JoinRoom sock nick pid roomId => join_room sock nick pid roomId s
  | RejoinRoom sock roomId pid => rejoin_room sock roomId pid s
  | MakeMove sock roomId index => make_move sock roomId index s
  | ReadyNextRound sock roomId => ready_next_round sock roomId s
  | ResetScores _ roomId => reset_scores roomId s
  | Disconnect sock => disconnect sock s
  | TimerFire t => timer_fire t s
  end.

(** Runs a list of events, collecting what is sent. *)
Fixpoint run (s : State) (es : list event) : State * list output :=
  match es with
  | [] => (s, [])
  | e :: rest =>
      let '(s1, out1) := step s e in
      let '(s2, out2) := run s1 rest in
      (s2, out1 ++ out2)
  end.

(** States the server reaches from [init] by events that all satisfy
    [ok]. *)
Inductive reachable_by (ok : State → event → Prop) : State → Prop :=
  | reach_init : reachable_by ok init
  | reach_step s e : reachable_by ok s → ok s e → reachable_by ok (step s e).1.

Definition reachable : State → Prop := reachable_by (λ _ _, True).

(** ** Vocabulary of the properties *)

(** A [Map] holds one entry per key. *)
Definition wf_store (m : store) : Prop := NoDup m.*1.

(** The mark that did not move. *)
Definition other (m : mark) : mark :=
  match m with X => O | O => X end.

(** The three cells of [l] hold the mark [m]. *)
Definition three_equal (b : list cell) (l : nat * nat * nat) (m : mark) : Prop :=
  b !! l.1.1 = Some (Some m) ∧ b !! l.1.2 = Some (Some m) ∧ b !! l.2 = Some (Some m).

(** The 8 lines of the grid: row [r], column [c], the two diagonals. *)
Definition row (r : nat) : nat * nat * nat := (3 * r, 3 * r + 1, 3 * r + 2)%nat.
Definition column (c : nat) : nat * nat * nat := (c, c + 3, c + 6)%nat.
Definition diagonals : list (nat * nat * nat) := [ (0, 4, 8); (2, 4, 6) ]%nat.

(** A move is accepted when the handler writes the board, which it
    announces by [update-board]. *)
Definition accepted (sock roomId : string) (index : jsval) (s : State) : Prop :=
  ∃ b t q, Emit roomId (UpdateBoard b t q) ∈ (make_move sock roomId index s).2.

(** The conditions of a legal move: the room exists, the first seat of the
    caller's socket is found, the index is a number between 0 and 8, the
    cell it names is [null], and that seat's mark has the turn. *)
Definition legal_move (sock roomId : string) (index : jsval) (s : State) : Prop :=
  ∃ room player q,
    rooms_get roomId (rooms s) = Some room
    ∧ List.find (is_socket sock) (players room) = Some player
    ∧ index = JNum q ∧ (0 <= q)%Q ∧ (q <= 8)%Q
    ∧ board_read (board room) q = Some None
    ∧ symbol player = currentTurn room.

(** The round is over on this board: a line is complete, or no cell is
    empty. *)
Definition round_over (b : list cell) : bool :=
  bool_decide (is_Some (checkWinner b).1) || forallb (λ c, bool_decide (c ≠ None)) b.

(** The scoring rule: the first seat that holds the winning mark gains a
    point. *)
Definition award (winner : option mark) (ps : list Seat) : list Seat :=
  match winner with
  | Some w => update_first (λ p, bool_decide (symbol p = w)) (λ p, set_points p (points p + 1)) ps
  | None => ps
  end.

(** The room a legal move leaves behind. *)
Definition room_after_move (room : Room) (player : Seat) (i : nat) : Room :=
  let board1 := <[i := Some (symbol player)]> (board room) in
  if round_over board1
  then mkRoom (award (checkWinner board1).1 (players room)) board1 (other (symbol player))
              (round room) ∅ (cleanupTimer room)
  else mkRoom (players room) board1 (other (symbol player))
              (round room) (readySet room) (cleanupTimer room).

(** What a legal move sends. *)
Definition sent_by_move (roomId : string) (room : Room) (player : Seat) (i : nat) (q : Q)
  : list output :=
  let board1 := <[i := Some (symbol player)]> (board room) in
  let upd := Emit roomId (UpdateBoard board1 (other (symbol player)) q) in
  if round_over board1
  then [upd; Emit roomId (RoundOver (checkWinner board1).1 (checkWinner board1).2 (round room)
                            (award (checkWinner board1).1 (players room)) board1 q)]
  else [upd].

(** The room [create-room] stores. *)
Definition fresh_room (sock pid nick : string) : Room :=
  mkRoom [mkSeat (Some sock) pid nick X 0] (replicate 9 None) X 1 ∅ None.

(** The room after the round advance of [ready-next-round]. *)
Definition next_round (room : Room) : Room :=
  mkRoom (players room) (replicate 9 None)
         (if Z.rem (round room + 1) 2 =? 1 then X else O)
         (round room + 1) ∅ (cleanupTimer room).

(** The room after the first seat of socket [sock] went offline. *)
Definition offline (sock : string) (room : Room) : Room :=
  set_players room (update_first (is_socket sock) (λ p, set_id p None) (players room)).

(** The room after the first seat of player [pid] was taken over by the
    socket [sock]. *)
Definition reseated (sock pid : string) (room : Room) : Room :=
  set_cleanupTimer
    (set_players room
       (update_first (λ p, bool_decide (playerId p = pid)) (λ p, set_id p (Some sock))
                     (players room)))
    None.

(** The changes of state the handlers make, one constructor per path that
    writes; [step_transition] below shows that [step] makes no other. *)
Inductive transition : State → event → State → Prop :=
  | t_dropped s e :
      transition s e s
  | t_create s sock nick pid rnd :
      nick ≠ "" → pid ≠ "" →
      transition s (CreateRoom sock nick pid rnd)
        (set_rooms s (rooms_set (generateRoomId rnd) (fresh_room sock pid nick) (rooms s)))
  | t_join s sock nick pid roomId room :
      rooms_get roomId (rooms s) = Some room →
      (length (players room) < 2)%nat →
      transition s (JoinRoom sock nick pid roomId)
        (set_rooms s (rooms_set roomId
           (set_players room (players room ++ [mkSeat (Some sock) pid nick O 0])) (rooms s)))
  | t_rejoin s sock roomId pid room player :
      rooms_get roomId (rooms s) = Some room →
      List.find (λ p, bool_decide (playerId p = pid)) (players room) = Some player →
      transition s (RejoinRoom sock roomId pid)
        (mkState (rooms_set roomId (reseated sock pid room) (rooms s))
                 (clearTimeout (cleanupTimer room) (timers s)) (nextTimer s))
  | t_move s sock roomId q room player i :
      rooms_get roomId (rooms s) = Some room →
      List.find (is_socket sock) (players room) = Some player →
      array_index q = Some i → board room !! i = Some None →
      symbol player = currentTurn room →
      transition s (MakeMove sock roomId (JNum q))
        (set_rooms s (rooms_set roomId (room_after_move room player i) (rooms s)))
  | t_ready_wait s sock roomId room :
      rooms_get roomId (rooms s) = Some room →
      (size ({[sock]} ∪ readySet room) < 2)%nat →
      transition s (ReadyNextRound sock roomId)
        (set_rooms s (rooms_set roomId (set_readySet room ({[sock]} ∪ readySet room)) (rooms s)))
  | t_ready_advance s sock roomId room :
      rooms_get roomId (rooms s) = Some room →
      (2 <= size ({[sock]} ∪ readySet room))%nat →
      transition s (ReadyNextRound sock roomId)
        (set_rooms s (rooms_set roomId (next_round room) (rooms s)))
  | t_reset s sock roomId room :
      rooms_get roomId (rooms s) = Some room →
      transition s (ResetScores sock roomId)
        (set_rooms s (rooms_set roomId
           (set_players room (map (λ p, set_points p 0) (players room))) (rooms s)))
  | t_offline s sock roomId room player :
      rooms_get roomId (rooms s) = Some room →
      List.find (is_socket sock) (players room) = Some player →
      activePlayersCount (offline sock room) ≠ 0%nat ∨ is_Some (cleanupTimer room) →
      transition s (Disconnect sock)
        (set_rooms s (rooms_set roomId (offline sock room) (rooms s)))
  | t_offline_arm s sock roomId room player :
      rooms_get roomId (rooms s) = Some room →
      List.find (is_socket sock) (players room) = Some player →
      activePlayersCount (offline sock room) = 0%nat →
      cleanupTimer room = None →
      transition s (Disconnect sock)
        (mkState (rooms_set roomId (set_cleanupTimer (offline sock room) (Some (nextTimer s)))
                            (rooms s))
                 (<[nextTimer s := roomId]> (timers s)) (S (nextTimer s)))
  | t_expire_gone s t roomId :
      timers s !! t = Some roomId →
      rooms_get roomId (rooms s) = None →
      transition s (TimerFire t) (mkState (rooms s) (delete t (timers s)) (nextTimer s))
  | t_expire_delete s t roomId room :
      timers s !! t = Some roomId →
      rooms_get roomId (rooms s) = Some room →
      activePlayersCount room = 0%nat →
      transition s (TimerFire t)
        (mkState (rooms_delete roomId (rooms s)) (delete t (timers s)) (nextTimer s))
  | t_expire_keep s t roomId room :
      timers s !! t = Some roomId →
      rooms_get roomId (rooms s) = Some room →
      activePlayersCount room ≠ 0%nat →
      transition s (TimerFire t)
        (mkState (rooms_set roomId (set_cleanupTimer room None) (rooms s))
                 (clearTimeout (cleanupTimer room) (delete t (timers s))) (nextTimer s)).

(** The round of room [roomId] advances: [new-round] is sent to it. *)
Definition advances (roomId : string) (out : list output) : Prop :=
  ∃ r b t ps, Emit roomId (NewRound r b t ps) ∈ out.

(** All the events of a run satisfy [ok]. *)
Fixpoint run_ok (ok : State → event → Prop) (s : State) (es : list event) : Prop :=
  match es with
  | [] => True
  | e :: rest => ok s e ∧ run_ok ok (step s e).1 rest
  end.

(** The number of [round-over] and of [new-round] messages sent to a
    room. *)
Definition is_round_over (roomId : string) (o : output) : bool :=
  match o with
  | Emit r (RoundOver _ _ _ _ _ _) => bool_decide (r = roomId)
  | _ => false
  end.

Definition is_new_round (roomId : string) (o : output) : bool :=
  match o with
  | Emit r (NewRound _ _ _ _) => bool_decide (r = roomId)
  | _ => false
  end.

Definition round_overs (roomId : string) (out : list output) : nat :=
  length (List.filter (is_round_over roomId) out).

Definition new_rounds (roomId : string) (out : list output) : nat :=
  length (List.filter (is_new_round roomId) out).

(** The seats of a room: the first holds [X], the second, if any, [O]. *)
Definition seats_ok (ps : list Seat) : Prop :=
  map symbol ps = [X] ∨ map symbol ps = [X; O].

(** Every mark on the board is the mark of a seat. *)
Definition marks_seated (r : Room) : Prop :=
  ∀ i m, board r !! i = Some (Some m) → m ∈ map symbol (players r).

Definition room_ok (r : Room) : Prop :=
  seats_ok (players r) ∧ length (board r) = 9%nat ∧ 1 ≤ round r
  ∧ (size (readySet r) ≤ 1)%nat ∧ marks_seated r.

(** What holds of the server between two events: one entry per room id,
    rooms of the expected shape, the timeout a room records is pending for
    its id, and pending handles are below the next handle. *)
Definition state_ok (s : State) : Prop :=
  wf_store (rooms s)
  ∧ (∀ roomId room, rooms_get roomId (rooms s) = Some room →
       room_ok room ∧ ∀ t, cleanupTimer room = Some t → timers s !! t = Some roomId)
  ∧ (∀ t roomId, timers s !! t = Some roomId → (t < nextTimer s)%nat).

(** A creation whose generated id is not the id of a live room. *)
Definition fresh_create (s : State) (e : event) : Prop :=
  match e with
  | CreateRoom _ nick pid rnd => rooms_get (generateRoomId rnd) (rooms s) = None
  | _ => True
  end.

(** Every pending timeout is the one its room records. *)
Definition timers_tracked (s : State) : Prop :=
  ∀ t roomId, timers s !! t = Some roomId →
    ∃ room, rooms_get roomId (rooms s) = Some room ∧ cleanupTimer room = Some t.

(** A join whose [playerId] no seat of the room holds. *)
Definition fresh_join (s : State) (e : event) : Prop :=
  match e with
  | JoinRoom _ _ pid roomId =>
      ∀ room p, rooms_get roomId (rooms s) = Some room → p ∈ players room → playerId p ≠ pid
  | _ => True
  end.

Definition distinct_players (s : State) : Prop :=
  ∀ roomId room, rooms_get roomId (rooms s) = Some room → NoDup (map playerId (players room)).

(** ** The status query *)

(** What [GET /game-status/:roomId] answers: 404 with a message, or 200
    with the snapshot of the room. *)
Inductive http_response :=
  | NotFound404 (message : string)
  | Ok200 (snapshot : Snapshot).

Definition game_status (roomId : string) (s : State) : http_response :=
  match roomSnapshot roomId s with
  | None => NotFound404 "Room not found"
  | Some snap => Ok200 snap
  end.

(** ** Vocabulary of the further properties *)

(** The room an event names, when it names one. *)
Definition event_room (e : event) : option string :=
  match e with
  | CreateRoom _ _ _ rnd => Some (generateRoomId rnd)
  | JoinRoom _ _ _ roomId | RejoinRoom _ roomId _ | MakeMove _ roomId _
  | ReadyNextRound _ roomId | ResetScores _ roomId => Some roomId
  | Disconnect _ | TimerFire _ => None
  end.

(** The number of cells that hold the mark [m]. *)
Definition count_mark (m : mark) (b : list cell) : nat :=
  length (List.filter (λ c, bool_decide (c = Some m)) b).

(** The mark that opens a round: [X] in odd rounds, [O] in even ones. *)
Definition starter (r : Z) : mark := if Z.rem r 2 =? 1 then X else O.

(** The marks on the board are those of strictly alternating moves that the
    starter of the round opened. *)
Definition turn_consistent (r : Room) : Prop :=
  if bool_decide (currentTurn r = starter (round r))
  then count_mark (starter (round r)) (board r) = count_mark (other (starter (round r))) (board r)
  else count_mark (starter (round r)) (board r)
       = S (count_mark (other (starter (round r))) (board r)).

(** The number of empty cells. *)
Definition count_empty (b : list cell) : nat :=
  length (List.filter (λ c : cell, bool_decide (c = None)) b).

(** What identifies a seat for good. *)
Definition seat_identity (p : Seat) : string * string * mark :=
  (playerId p, nickname p, symbol p).

(** The index [i] is one of the three cells of the line. *)
Definition on_line (i : nat) (l : nat * nat * nat) : Prop :=
  l.1.1 = i ∨ l.1.2 = i ∨ l.2 = i.

(** A lower-case letter of ASCII. *)
Definition is_lower (c : Ascii.ascii) : bool :=
  ((97 <=? Ascii.N_of_ascii c) && (Ascii.N_of_ascii c <=? 122))%N.

Fixpoint string_forall (f : Ascii.ascii → bool) (s : string) : bool :=
  match s with
  | EmptyString => true
  | String c rest => f c && string_forall f rest
  end.

(** ** Proof tactics *)

(** Projections of records applied to their constructors, and nothing
    else: [simpl] would also unfold the finite sets and maps. *)
Ltac fields :=
  cbn [players board currentTurn round readySet cleanupTimer
       id playerId nickname symbol points rooms timers nextTimer fst snd
       set_players set_readySet set_cleanupTimer set_id set_points set_rooms] in *.

(** Decides a closed decidable proposition by evaluation. *)
Ltac by_computing :=
  match goal with |- ?P => apply (bool_decide_unpack P); vm_compute; exact I end.

(** ** The store: lookup after update *)

Lemma rooms_get_set_eq k v m : rooms_get k (rooms_set k v m) = Some v.
Proof.
  induction m as [|[k' v'] m IH]; simpl.
  - by rewrite decide_True.
  - destruct (decide (k' = k)) as [->|Hne]; simpl.
    + by rewrite decide_True.
    + by rewrite decide_False.
Qed.

Lemma rooms_get_set_ne k k' v m : k ≠ k' → rooms_get k' (rooms_set k v m) = rooms_get k' m.
Proof.
  intros Hne. induction m as [|[k0 v0] m IH]; simpl.
  - by rewrite decide_False.
  - destruct (decide (k0 = k)) as [->|Hk]; simpl.
    + by rewrite !decide_False.
    + destruct (decide (k0 = k')); [done|apply IH].
Qed.

Lemma rooms_get_delete_eq k m : rooms_get k (rooms_delete k m) = None.
Proof.
  induction m as [|[k' v'] m IH]; simpl; [done|].
  destruct (decide (k' = k)) as [->|Hne]; simpl; [done|].
  by rewrite decide_False.
Qed.

Lemma rooms_get_delete_ne k k' m : k ≠ k' → rooms_get k' (rooms_delete k m) = rooms_get k' m.
Proof.
  intros Hne. induction m as [|[k0 v0] m IH]; simpl; [done|].
  destruct (decide (k0 = k)) as [->|Hk]; simpl.
  - by rewrite decide_False.
  - destruct (decide (k0 = k')); [done|apply IH].
Qed.

Lemma rooms_get_None k m : rooms_get k m = None ↔ k ∉ m.*1.
Proof.
  induction m as [|[k' v'] m IH]; simpl.
  - split; [intros _; apply not_elem_of_nil|done].
  - rewrite not_elem_of_cons. destruct (decide (k' = k)) as [->|Hne].
    + split; [done|]. intros [? _]. done.
    + rewrite IH. split; [intros ?; split; [congruence|done]|tauto].
Qed.

Lemma rooms_get_Some_elem k v m : rooms_get k m = Some v → (k, v) ∈ m.
Proof.
  induction m as [|[k' v'] m IH]; simpl; [done|].
  destruct (decide (k' = k)) as [->|Hne].
  - intros [= ->]. apply list_elem_of_here.
  - intros H. apply list_elem_of_further. auto.
Qed.

Lemma rooms_set_keys_present k v m :
  k ∈ m.*1 → (rooms_set k v m).*1 = m.*1.
Proof.
  induction m as [|[k' v'] m IH]; simpl.
  - intros H. by apply elem_of_nil in H.
  - intros H. destruct (decide (k' = k)) as [->|Hne]; simpl; [done|].
    f_equal. apply IH. apply elem_of_cons in H as [?|?]; [congruence|done].
Qed.

Lemma rooms_set_absent k v m : k ∉ m.*1 → rooms_set k v m = m ++ [(k, v)].
Proof.
  induction m as [|[k' v'] m IH]; simpl; [done|].
  rewrite not_elem_of_cons. intros [Hne Hnin].
  rewrite decide_False by congruence. by rewrite IH.
Qed.

Lemma rooms_set_wf k v m : wf_store m → wf_store (rooms_set k v m).
Proof.
  unfold wf_store. intros Hwf.
  destruct (decide (k ∈ m.*1)) as [Hin|Hnin].
  - by rewrite rooms_set_keys_present.
  - rewrite rooms_set_absent by done. rewrite fmap_app. simpl.
    apply NoDup_app. split; [done|]. split.
    + intros x Hx Hx'. apply list_elem_of_singleton in Hx'. by subst.
    + apply NoDup_singleton.
Qed.

Lemma rooms_delete_keys k m : ∀ x, x ∈ (rooms_delete k m).*1 → x ∈ m.*1.
Proof.
  induction m as [|[k' v'] m IH]; simpl; [done|].
  intros x. destruct (decide (k' = k)); simpl.
  - intros H. apply list_elem_of_further. auto.
  - rewrite !elem_of_cons. intros [?|?]; auto.
Qed.

Lemma rooms_delete_wf k m : wf_store m → wf_store (rooms_delete k m).
Proof.
  unfold wf_store. induction m as [|[k' v'] m IH]; simpl; [done|].
  rewrite NoDup_cons. intros [Hnin Hnd].
  destruct (decide (k' = k)); simpl; [auto|].
  apply NoDup_cons. split; [|auto].
  intros H. apply Hnin. by apply rooms_delete_keys in H.
Qed.

(** At a present key, [set] changes the entry where it stands. *)
Lemma rooms_set_middle k v v' pre post :
  k ∉ pre.*1 → rooms_set k v' (pre ++ (k, v) :: post) = pre ++ (k, v') :: post.
Proof.
  induction pre as [|[k0 v0] pre IH]; simpl.
  - intros _. by rewrite decide_True.
  - rewrite not_elem_of_cons. intros [Hne Hnin].
    rewrite decide_False by congruence. by rewrite IH.
Qed.

Lemma rooms_get_middle k v pre post :
  k ∉ pre.*1 → rooms_get k (pre ++ (k, v) :: post) = Some v.
Proof.
  induction pre as [|[k0 v0] pre IH]; simpl.
  - intros _. by rewrite decide_True.
  - rewrite not_elem_of_cons. intros [Hne Hnin].
    rewrite decide_False by congruence. by rewrite IH.
Qed.

(** ** The win detector *)

Lemma line_complete_Some b l m : line_complete b l = Some m ↔ three_equal b l m.
Proof.
  destruct l as [[x y] z]. unfold line_complete, three_equal. simpl.
  destruct (b !! x) as [[m0|]|] eqn:Hx.
  - destruct (bool_decide (b !! y = Some (Some m0))) eqn:Hy;
      destruct (bool_decide (b !! z = Some (Some m0))) eqn:Hz; simpl;
      try apply bool_decide_eq_true in Hy; try apply bool_decide_eq_true in Hz;
      try apply bool_decide_eq_false in Hy; try apply bool_decide_eq_false in Hz.
    + split; [intros [= ->]; done|]. intros ([= ->] & _). done.
    + split; [done|]. intros ([= ->] & _ & ?). done.
    + split; [done|]. intros ([= ->] & ? & _). done.
    + split; [done|]. intros ([= ->] & ? & _). done.
  - split; [done|]. intros (? & _). done.
  - split; [done|]. intros (? & _). done.
Qed.

Lemma line_complete_None b l : line_complete b l = None ↔ ∀ m, ¬ three_equal b l m.
Proof.
  split.
  - intros H m Hm. apply line_complete_Some in Hm. congruence.
  - intros H. destruct (line_complete b l) as [m|] eqn:E; [|done].
    apply line_complete_Some in E. by apply H in E.
Qed.

Lemma scan_wins_first b pre l post m :
  three_equal b l m →
  (∀ l' m', l' ∈ pre → ¬ three_equal b l' m') →
  scan_wins b (pre ++ l :: post) = (Some m, Some l).
Proof.
  intros Hl. induction pre as [|l0 pre IH]; simpl; intros Hpre.
  - apply line_complete_Some in Hl. by rewrite Hl.
  - assert (line_complete b l0 = None) as ->.
    { apply line_complete_None. intros m'. apply Hpre. apply list_elem_of_here. }
    apply IH. intros l' m' Hin. apply Hpre. by apply list_elem_of_further.
Qed.

Lemma scan_wins_none b ls :
  (∀ l m, l ∈ ls → ¬ three_equal b l m) → scan_wins b ls = (None, None).
Proof.
  induction ls as [|l0 ls IH]; simpl; intros H; [done|].
  assert (line_complete b l0 = None) as ->.
  { apply line_complete_None. intros m'. apply H. apply list_elem_of_here. }
  apply IH. intros l m Hin. apply H. by apply list_elem_of_further.
Qed.

Lemma first_complete_line b ls :
  (∃ l m, l ∈ ls ∧ three_equal b l m) →
  ∃ pre l post m, ls = pre ++ l :: post ∧ three_equal b l m ∧
                  (∀ l' m', l' ∈ pre → ¬ three_equal b l' m').
Proof.
  induction ls as [|l0 ls IH]; intros (l & m & Hin & Hl).
  - by apply elem_of_nil in Hin.
  - destruct (line_complete b l0) as [m0|] eqn:E.
    + apply line_complete_Some in E. exists [], l0, ls, m0.
      split; [done|]. split; [done|]. intros l' m' H'. by apply elem_of_nil in H'.
    + assert (l ∈ ls) as Hin'.
      { apply elem_of_cons in Hin as [->|?]; [|done].
        apply line_complete_Some in Hl. congruence. }
      destruct IH as (pre & l1 & post & m1 & -> & H1 & Hpre); [by eauto|].
      exists (l0 :: pre), l1, post, m1. split; [done|]. split; [done|].
      intros l' m' Hl'. apply elem_of_cons in Hl' as [->|?]; [|by eauto].
      by apply line_complete_None.
Qed.

Lemma scan_wins_result b ls w line :
  scan_wins b ls = (w, line) →
  (w = None ∧ line = None ∧ ∀ l m, l ∈ ls → ¬ three_equal b l m)
  ∨ (∃ m l, w = Some m ∧ line = Some l ∧ l ∈ ls ∧ three_equal b l m).
Proof.
  induction ls as [|l0 ls IH]; simpl.
  - intros [= <- <-]. left. repeat split. intros l m H. by apply elem_of_nil in H.
  - destruct (line_complete b l0) as [m0|] eqn:E.
    + intros [= <- <-]. right. exists m0, l0.
      split; [done|]. split; [done|].
      split; [apply list_elem_of_here|by apply line_complete_Some].
    + intros H. destruct (IH H) as [(-> & -> & Hn)|(m & l & -> & -> & Hin & Hl)].
      * left. repeat split. intros l m Hin. apply elem_of_cons in Hin as [->|?]; [|by eauto].
        by apply line_complete_None.
      * right. exists m, l. split; [done|]. split; [done|].
        split; [by apply list_elem_of_further|done].
Qed.

(** C5. For every board of 9 cells: the lines scanned are the three rows,
    then the three columns, then the two diagonals; when some line holds
    three equal marks, [checkWinner] returns the mark and the indices of the
    first such line in that order; when none does, it returns no winner and
    no line. *)
Theorem checkWinner_first_line (b : list cell) :
  length b = 9%nat →
  wins = map row [0; 1; 2]%nat ++ map column [0; 1; 2]%nat ++ diagonals
  ∧ ((∃ l m, l ∈ wins ∧ three_equal b l m) →
     ∃ pre l post m,
       wins = pre ++ l :: post ∧ three_equal b l m
       ∧ (∀ l' m', l' ∈ pre → ¬ three_equal b l' m')
       ∧ checkWinner b = (Some m, Some l))
  ∧ ((∀ l m, l ∈ wins → ¬ three_equal b l m) → checkWinner b = (None, None)).
Proof.
  intros _. split; [reflexivity|]. split.
  - intros H. apply first_complete_line in H as (pre & l & post & m & Hw & Hl & Hpre).
    exists pre, l, post, m. repeat split; try done; try apply Hl.
    unfold checkWinner. rewrite Hw. by apply scan_wins_first.
  - intros H. by apply scan_wins_none.
Qed.

Lemma checkWinner_first_line_witness :
  let b := [Some X; Some O; Some X; Some O; Some O; Some O; Some X; None; Some X] in
  wins = map row [0; 1; 2]%nat ++ map column [0; 1; 2]%nat ++ diagonals
  ∧ ((∃ l m, l ∈ wins ∧ three_equal b l m) →
     ∃ pre l post m,
       wins = pre ++ l :: post ∧ three_equal b l m
       ∧ (∀ l' m', l' ∈ pre → ¬ three_equal b l' m')
       ∧ checkWinner b = (Some m, Some l))
  ∧ ((∀ l m, l ∈ wins → ¬ three_equal b l m) → checkWinner b = (None, None)).
Proof. intros b. apply (checkWinner_first_line b). reflexivity. Defined.

(** ** Moves *)

Lemma Qlt_bool_false a b : Qlt_bool a b = false ↔ (b <= a)%Q.
Proof.
  unfold Qlt_bool. rewrite negb_false_iff. apply Qle_bool_iff.
Qed.

Lemma index_in_range q :
  Qlt_bool q (inject_Z 0) || Qlt_bool (inject_Z 8) q = false ↔ (0 <= q)%Q ∧ (q <= 8)%Q.
Proof.
  rewrite orb_false_iff, !Qlt_bool_false. reflexivity.
Qed.

Lemma other_as_written m : (if bool_decide (m = X) then O else X) = other m.
Proof. by destruct m. Qed.

(** The handler either drops the request, leaving the server as it was, or
    the move is legal and the room becomes [room_after_move]. *)
Lemma make_move_cases sock roomId index s :
  (¬ legal_move sock roomId index s ∧ make_move sock roomId index s = (s, []))
  ∨ (∃ room player q i,
       rooms_get roomId (rooms s) = Some room
       ∧ List.find (is_socket sock) (players room) = Some player
       ∧ index = JNum q ∧ (0 <= q)%Q ∧ (q <= 8)%Q
       ∧ array_index q = Some i ∧ board room !! i = Some None
       ∧ symbol player = currentTurn room
       ∧ make_move sock roomId index s =
           (set_rooms s (rooms_set roomId (room_after_move room player i) (rooms s)),
            sent_by_move roomId room player i q)).
Proof.
  unfold make_move, legal_move.
  destruct (rooms_get roomId (rooms s)) as [room|] eqn:Hroom;
    [|left; split; [intros (? & ? & ? & ? & _); simplify_eq|done]].
  destruct (List.find (is_socket sock) (players room)) as [player|] eqn:Hfind;
    [|left; split; [intros (? & ? & ? & ? & ? & _); simplify_eq|done]].
  destruct index as [q|];
    [|left; split; [intros (? & ? & ? & _ & _ & ? & _); simplify_eq|done]].
  destruct (Qlt_bool q (inject_Z 0) || Qlt_bool (inject_Z 8) q) eqn:Hrange.
  { left. split; [|done]. intros (? & ? & q' & _ & _ & ? & H0 & H8 & _). simplify_eq.
    assert (Qlt_bool q' (inject_Z 0) || Qlt_bool (inject_Z 8) q' = false)
      by by apply index_in_range.
    congruence. }
  apply index_in_range in Hrange as [H0 H8].
  unfold board_read.
  destruct (array_index q) as [i|] eqn:Hi;
    [|left; split; [intros (? & ? & ? & _ & _ & ? & _ & _ & Hc & _); simplify_eq;
                    by rewrite Hi in Hc|done]].
  destruct (board room !! i) as [[m|]|] eqn:Hcell;
    [left; split; [intros (? & ? & ? & ? & _ & ? & _ & _ & Hc & _); simplify_eq;
                   rewrite Hi, Hcell in Hc; congruence|done]
    | |left; split; [intros (? & ? & ? & ? & _ & ? & _ & _ & Hc & _); simplify_eq;
                   rewrite Hi, Hcell in Hc; congruence|done]].
  destruct (bool_decide (currentTurn room = symbol player)) eqn:Hturn; simpl.
  2:{ left. split; [|done]. apply bool_decide_eq_false in Hturn.
      intros (? & ? & ? & ? & ? & _ & _ & _ & _ & Hs). simplify_eq; congruence. }
  apply bool_decide_eq_true in Hturn.
  right. exists room, player, q, i. repeat (split; [done|]).
  unfold room_after_move, sent_by_move, round_over, award.
  rewrite other_as_written.
  destruct (checkWinner (<[i:=Some (symbol player)]> (board room))) as [winner line] eqn:Hw.
  simpl.
  destruct winner as [w|]; simpl; [reflexivity|].
  destruct (forallb _ _); reflexivity.
Qed.

Lemma sent_by_move_update roomId room player i q :
  ∃ rest, sent_by_move roomId room player i q =
          Emit roomId (UpdateBoard (<[i := Some (symbol player)]> (board room))
                                   (other (symbol player)) q) :: rest.
Proof.
  unfold sent_by_move. destruct (round_over _); eauto.
Qed.

Lemma room_after_move_board room player i :
  board (room_after_move room player i) = <[i := Some (symbol player)]> (board room).
Proof. unfold room_after_move. by destruct (round_over _). Qed.

Lemma room_after_move_turn room player i :
  currentTurn (room_after_move room player i) = other (symbol player).
Proof. unfold room_after_move. by destruct (round_over _). Qed.

Lemma room_after_move_round room player i :
  round (room_after_move room player i) = round room.
Proof. unfold room_after_move. by destruct (round_over _). Qed.

Lemma room_after_move_timer room player i :
  cleanupTimer (room_after_move room player i) = cleanupTimer room.
Proof. unfold room_after_move. by destruct (round_over _). Qed.

Lemma accepted_iff_legal sock roomId index s :
  accepted sock roomId index s ↔ legal_move sock roomId index s.
Proof.
  unfold accepted.
  destruct (make_move_cases sock roomId index s)
    as [[Hn ->]|(room & player & q & i & Hr & Hf & -> & H0 & H8 & Hi & Hc & Ht & ->)].
  - split; [|done]. intros (? & ? & ? & H). simpl in H. by apply elem_of_nil in H.
  - split.
    + intros _. exists room, player, q. repeat (split; [done|]).
      split; [|done]. unfold board_read. by rewrite Hi.
    + intros _. destruct (sent_by_move_update roomId room player i q) as [rest ->].
      do 3 eexists. simpl. apply list_elem_of_here.
Qed.

(** C1. A move is accepted exactly when the room exists, a seat of the room
    carries the caller's socket id, the index is a number between 0 and 8,
    the cell it names is empty and the mark of the caller's seat has the
    turn.  A rejected move leaves the whole server state as it was.  An
    accepted move writes the mark of the acting seat into the cell, leaves
    the other cells alone, and gives the turn to the other mark. *)
Theorem make_move_accepted_iff (sock roomId : string) (index : jsval) (s : State) :
  (accepted sock roomId index s ↔
     ∃ room player q,
       rooms_get roomId (rooms s) = Some room
       ∧ List.find (is_socket sock) (players room) = Some player
       ∧ player ∈ players room ∧ id player = Some sock
       ∧ index = JNum q ∧ (0 <= q)%Q ∧ (q <= 8)%Q
       ∧ board_read (board room) q = Some None
       ∧ symbol player = currentTurn room)
  ∧ (¬ accepted sock roomId index s → (make_move sock roomId index s).1 = s)
  ∧ (accepted sock roomId index s →
     ∃ room player q i room',
       rooms_get roomId (rooms s) = Some room
       ∧ List.find (is_socket sock) (players room) = Some player
       ∧ index = JNum q ∧ array_index q = Some i ∧ (i <= 8)%nat
       ∧ rooms_get roomId (rooms (make_move sock roomId index s).1) = Some room'
       ∧ board room' !! i = Some (Some (symbol player))
       ∧ (∀ j, j ≠ i → board room' !! j = board room !! j)
       ∧ length (board room') = length (board room)
       ∧ currentTurn room' = other (symbol player)
       ∧ currentTurn room' ≠ symbol player).
Proof.
  split; [|split].
  - rewrite accepted_iff_legal. unfold legal_move. split.
    + intros (room & player & q & Hr & Hf & Hrest).
      exists room, player, q. repeat (split; [done|]).
      apply find_some in Hf as [Hin Hid]. apply bool_decide_eq_true in Hid.
      split; [by apply list_elem_of_In|]. split; [done|]. done.
    + intros (room & player & q & Hr & Hf & _ & _ & Hrest).
      exists room, player, q. done.
  - rewrite accepted_iff_legal.
    destruct (make_move_cases sock roomId index s)
      as [[Hn ->]|(room & player & q & i & Hr & Hf & -> & H0 & H8 & Hi & Hc & Ht & ->)]; [done|].
    intros Hn. exfalso. apply Hn. exists room, player, q. repeat (split; [done|]).
    split; [|done]. unfold board_read. by rewrite Hi.
  - rewrite accepted_iff_legal.
    destruct (make_move_cases sock roomId index s)
      as [[Hn ->]|(room & player & q & i & Hr & Hf & -> & H0 & H8 & Hi & Hc & Ht & ->)]; [done|].
    intros _. exists room, player, q, i, (room_after_move room player i).
    repeat (split; [done|]). simpl.
    assert (i < length (board room))%nat as Hlt by (eapply lookup_lt_Some; done).
    split.
    { unfold array_index in Hi.
      destruct ((0 <=? Qnum q) && (Z.rem (Qnum q) (Z.pos (Qden q)) =? 0)) eqn:E; [|done].
      apply andb_true_iff in E as [Hnn Hrem]. apply Z.leb_le in Hnn. apply Z.eqb_eq in Hrem.
      injection Hi as <-. unfold Qle in H8. simpl in H8.
      assert (Qnum q / Z.pos (Qden q) <= 8).
      { apply Z.div_le_upper_bound; lia. }
      lia. }
    split; [apply rooms_get_set_eq|].
    rewrite room_after_move_board, room_after_move_turn.
    split; [by apply list_lookup_insert_eq|].
    split; [intros j Hj; by apply list_lookup_insert_ne|].
    split; [apply length_insert|]. split; [done|]. by destruct (symbol player).
Qed.

Lemma make_move_accepted_iff_witness :
  let s := (run init [CreateRoom "s1" "A" "p1" "0.4fzyo82mvyr";
                      JoinRoom "s2" "B" "p2" "4FZYO8"]).1 in
  accepted "s1" "4FZYO8" (JNum (inject_Z 4)) s
  ∧ (make_move "s2" "4FZYO8" (JNum (inject_Z 4)) s).1 = s
  ∧ (make_move "s1" "4FZYO8" (JNum (9 # 2)) s).1 = s.
Proof.
  intros s. split; [|split].
  - apply (make_move_accepted_iff "s1" "4FZYO8" (JNum (inject_Z 4)) s).
    exists (mkRoom [mkSeat (Some "s1") "p1" "A" X 0; mkSeat (Some "s2") "p2" "B" O 0]
                   (replicate 9 None) X 1 ∅ None),
           (mkSeat (Some "s1") "p1" "A" X 0), (inject_Z 4).
    split; [reflexivity|]. split; [reflexivity|]. split; [apply list_elem_of_here|].
    split; [reflexivity|]. split; [reflexivity|].
    split; [unfold Qle; simpl; lia|]. split; [unfold Qle; simpl; lia|].
    split; reflexivity.
  - destruct (make_move_accepted_iff "s2" "4FZYO8" (JNum (inject_Z 4)) s) as (Hiff & Hrej & _).
    apply Hrej. intros Hacc.
    apply Hiff in Hacc as (room & player & q & Hr & Hf & _ & _ & _ & _ & _ & _ & Hturn).
    vm_compute in Hr. injection Hr as <-. vm_compute in Hf. injection Hf as <-.
    discriminate Hturn.
  - destruct (make_move_accepted_iff "s1" "4FZYO8" (JNum (9 # 2)) s) as (Hiff & Hrej & _).
    apply Hrej. intros Hacc.
    apply Hiff in Hacc as (room & player & q & Hr & _ & _ & _ & Hq & _ & _ & Hcell & _).
    injection Hq as <-. discriminate Hcell.
Defined.

(** ** Mutation of a found element *)

Lemma update_first_None {A} (f : A → bool) g l :
  List.find f l = None → update_first f g l = l.
Proof.
  induction l as [|x l IH]; simpl; [done|].
  destruct (f x); [done|]. intros H. by rewrite IH.
Qed.

Lemma update_first_Some {A} (f : A → bool) g l x :
  List.find f l = Some x →
  ∃ i, l !! i = Some x ∧ f x = true
       ∧ (∀ j y, (j < i)%nat → l !! j = Some y → f y = false)
       ∧ update_first f g l = <[i := g x]> l.
Proof.
  induction l as [|y l IH]; simpl; [done|].
  destruct (f y) eqn:Hy.
  - intros [= ->]. exists 0%nat. repeat split; try done. intros j z Hj. lia.
  - intros H. destruct (IH H) as (i & Hi & Hx & Hbefore & Hupd).
    exists (S i). repeat split; try done.
    + intros [|j] z Hj; simpl; [by intros [= <-]|].
      apply Hbefore. lia.
    + simpl. by rewrite Hupd.
Qed.

Lemma update_first_length {A} (f : A → bool) g l :
  length (update_first f g l) = length l.
Proof.
  induction l as [|x l IH]; simpl; [done|]. destruct (f x); simpl; by rewrite ?IH.
Qed.

Lemma update_first_map {A B} (f : A → bool) g (h : A → B) l :
  (∀ x, h (g x) = h x) → map h (update_first f g l) = map h l.
Proof.
  intros Hg. induction l as [|x l IH]; simpl; [done|].
  destruct (f x); simpl; by rewrite ?Hg, ?IH.
Qed.

Lemma find_Some_elem {A} (f : A → bool) l x :
  List.find f l = Some x → x ∈ l ∧ f x = true.
Proof.
  intros H. apply find_some in H as [? ?]. split; [by apply list_elem_of_In|done].
Qed.

Lemma find_None_elem {A} (f : A → bool) l :
  List.find f l = None ↔ ∀ x, x ∈ l → f x = false.
Proof.
  split.
  - intros H x Hx. apply list_elem_of_In in Hx. by eapply find_none in H.
  - intros H. destruct (List.find f l) as [x|] eqn:E; [|done].
    apply find_Some_elem in E as [Hx Hf]. apply H in Hx. congruence.
Qed.

(** ** The disconnect loop *)

Lemma mark_offline_Some sock m m' roomId room' player :
  mark_offline sock m = Some (m', roomId, room', player) →
  ∃ pre room post,
    m = pre ++ (roomId, room) :: post
    ∧ m' = pre ++ (roomId, room') :: post
    ∧ (∀ kv, kv ∈ pre → List.find (is_socket sock) (players kv.2) = None)
    ∧ List.find (is_socket sock) (players room) = Some player
    ∧ room' = offline sock room.
Proof.
  revert m' roomId room' player.
  induction m as [|[k v] m IH]; simpl; intros m' roomId room' player; [done|].
  destruct (List.find (is_socket sock) (players v)) as [p|] eqn:Hfind.
  - intros [= <- <- <- <-]. exists [], v, m. repeat split; try done.
    intros kv H. by apply elem_of_nil in H.
  - destruct (mark_offline sock m) as [[[[rest' k'] r'] p']|] eqn:Hrec; [|done].
    intros [= <- <- <- <-].
    destruct (IH _ _ _ _ eq_refl) as (pre & room & post & -> & -> & Hpre & Hf & Hr).
    exists ((k, v) :: pre), room, post. repeat split; try done.
    intros kv Hkv. apply elem_of_cons in Hkv as [->|?]; [done|by apply Hpre].
Qed.

Lemma mark_offline_None sock m :
  mark_offline sock m = None →
  ∀ kv, kv ∈ m → List.find (is_socket sock) (players kv.2) = None.
Proof.
  induction m as [|[k v] m IH]; simpl; intros H kv Hkv.
  - by apply elem_of_nil in Hkv.
  - destruct (List.find (is_socket sock) (players v)) eqn:Hfind; [done|].
    destruct (mark_offline sock m) as [[[[? ?] ?] ?]|] eqn:Hrec; [done|].
    apply elem_of_cons in Hkv as [->|?]; [done|by apply IH].
Qed.

Lemma wf_store_middle pre k v post :
  wf_store (pre ++ (k, v) :: post) → k ∉ pre.*1.
Proof.
  unfold wf_store. rewrite fmap_app. simpl. intros H Hin.
  apply NoDup_app in H as (_ & H & _). apply (H k Hin). apply list_elem_of_here.
Qed.

(** ** Every step is a transition *)

Lemma falsy_false s : falsy s = false → s ≠ "".
Proof. unfold falsy. by intros H%bool_decide_eq_false. Qed.

Lemma step_transition s e : wf_store (rooms s) → transition s e (step s e).1.
Proof.
  intros Hwf. destruct e as [sock nick pid rnd|sock nick pid roomId|sock roomId pid
                             |sock roomId index|sock roomId|sock roomId|sock|t]; simpl.
  - unfold create_room. destruct (falsy nick || falsy pid) eqn:E; simpl; [constructor|].
    apply orb_false_iff in E as [? ?]. apply t_create; by apply falsy_false.
  - unfold join_room. destruct (rooms_get roomId (rooms s)) as [room|] eqn:Hr; [|constructor].
    destruct (falsy nick || falsy pid); [constructor|].
    destruct (2 <=? length (players room))%nat eqn:Hlen; simpl; [constructor|].
    apply Nat.leb_gt in Hlen. by apply t_join.
  - unfold rejoin_room. destruct (rooms_get roomId (rooms s)) as [room|] eqn:Hr; [|constructor].
    destruct (List.find _ (players room)) as [player|] eqn:Hf; [|constructor].
    simpl. eapply t_rejoin; done.
  - destruct (make_move_cases sock roomId index s)
      as [[_ ->]|(room & player & q & i & Hr & Hf & -> & _ & _ & Hi & Hc & Ht & ->)];
      [constructor|]. simpl. by apply t_move.
  - unfold ready_next_round.
    destruct (rooms_get roomId (rooms s)) as [room|] eqn:Hr; [|constructor].
    destruct (2 <=? size ({[sock]} ∪ readySet room))%nat eqn:Hsz; simpl.
    + apply Nat.leb_le in Hsz. by apply t_ready_advance.
    + apply Nat.leb_gt in Hsz. by apply t_ready_wait.
  - unfold reset_scores.
    destruct (rooms_get roomId (rooms s)) as [room|] eqn:Hr; [|constructor].
    simpl. by apply t_reset.
  - unfold disconnect.
    destruct (mark_offline sock (rooms s)) as [[[[m roomId] room'] player]|] eqn:Hm;
      [|constructor].
    apply mark_offline_Some in Hm as (pre & room & post & Hs & -> & Hpre & Hf & ->).
    assert (roomId ∉ pre.*1) as Hnin by (rewrite Hs in Hwf; by eapply wf_store_middle).
    assert (rooms_get roomId (rooms s) = Some room) as Hget
      by (rewrite Hs; by apply rooms_get_middle).
    assert (pre ++ (roomId, offline sock room) :: post
            = rooms_set roomId (offline sock room) (rooms s)) as Hset
      by (rewrite Hs; by rewrite rooms_set_middle).
    rewrite Hset.
    destruct (bool_decide (activePlayersCount (offline sock room) = 0%nat)) eqn:Hcount; simpl.
    + apply bool_decide_eq_true in Hcount.
      unfold scheduleRoomCleanup. simpl. rewrite rooms_get_set_eq.
      destruct (cleanupTimer (offline sock room)) as [t|] eqn:Ht.
      * eapply t_offline; [done..|]. right. simpl in Ht. by rewrite Ht.
      * replace (rooms_set roomId (set_cleanupTimer (offline sock room) (Some (nextTimer s)))
                   (rooms_set roomId (offline sock room) (rooms s)))
          with (rooms_set roomId (set_cleanupTimer (offline sock room) (Some (nextTimer s)))
                   (rooms s)).
        { eapply t_offline_arm; done. }
        rewrite Hs. by rewrite !rooms_set_middle.
    + apply bool_decide_eq_false in Hcount. eapply t_offline; [done..|]. by left.
  - unfold timer_fire. destruct (timers s !! t) as [roomId|] eqn:Ht; [|constructor].
    destruct (rooms_get roomId (rooms s)) as [r|] eqn:Hr; simpl.
    + destruct (bool_decide (activePlayersCount r = 0%nat)) eqn:Hc; simpl.
      * apply bool_decide_eq_true in Hc. by eapply t_expire_delete.
      * apply bool_decide_eq_false in Hc. by eapply t_expire_keep.
    + by eapply t_expire_gone.
Qed.

(** ** Invariants of the reachable states *)

Lemma rooms_get_set k k' v m :
  rooms_get k' (rooms_set k v m) = if decide (k = k') then Some v else rooms_get k' m.
Proof.
  destruct (decide (k = k')) as [->|Hne]; [apply rooms_get_set_eq|by apply rooms_get_set_ne].
Qed.

Lemma rooms_get_delete k k' m :
  rooms_get k' (rooms_delete k m) = if decide (k = k') then None else rooms_get k' m.
Proof.
  destruct (decide (k = k')) as [->|Hne]; [apply rooms_get_delete_eq|by apply rooms_get_delete_ne].
Qed.

Lemma reachable_by_invariant ok (P : State → Prop) :
  P init →
  (∀ s e, reachable_by ok s → P s → ok s e → P (step s e).1) →
  ∀ s, reachable_by ok s → P s.
Proof. intros Hinit Hstep s H. induction H; eauto. Qed.

Lemma reachable_by_weaken ok s : reachable_by ok s → reachable s.
Proof. intros H. induction H; [apply reach_init|by apply reach_step]. Qed.

Lemma seats_ok_update_first f g ps :
  (∀ p, symbol (g p) = symbol p) → seats_ok ps → seats_ok (update_first f g ps).
Proof. intros Hg. unfold seats_ok. by rewrite update_first_map. Qed.

Lemma seats_ok_award w ps : seats_ok ps → seats_ok (award w ps).
Proof. destruct w; simpl; [|done]. by apply seats_ok_update_first. Qed.

Lemma seats_ok_join ps p :
  seats_ok ps → (length ps < 2)%nat → symbol p = O → seats_ok (ps ++ [p]).
Proof.
  unfold seats_ok. intros [H|H] Hlen Hp.
  - right. rewrite map_app, H. simpl. by rewrite Hp.
  - apply (f_equal length) in H. rewrite length_map in H. simpl in H. lia.
Qed.

Lemma award_symbols w ps : map symbol (award w ps) = map symbol ps.
Proof. destruct w; simpl; [|done]. by apply update_first_map. Qed.

(** Changing seats without changing their marks keeps a room well
    formed. *)
Lemma room_ok_players room ps :
  room_ok room → map symbol ps = map symbol (players room) → room_ok (set_players room ps).
Proof.
  intros (Hs & Hb & Hr & Hsz & Hm) Heq. unfold room_ok, marks_seated, seats_ok. fields.
  rewrite Heq. done.
Qed.

Lemma room_ok_after_move room player i :
  room_ok room → player ∈ players room → room_ok (room_after_move room player i).
Proof.
  intros (Hs & Hb & Hr & Hsz & Hm) Hin.
  assert (∀ j m, <[i := Some (symbol player)]> (board room) !! j = Some (Some m) →
                 m ∈ map symbol (players room)) as Hm'.
  { intros j m Hj. destruct (decide (i = j)) as [<-|Hne].
    - assert (i < length (board room))%nat as Hlt.
      { apply lookup_lt_Some in Hj. by rewrite length_insert in Hj. }
      rewrite list_lookup_insert_eq in Hj by done. simplify_eq.
      apply list_elem_of_fmap. by exists player.
    - rewrite list_lookup_insert_ne in Hj by done. by eapply Hm. }
  unfold room_after_move, room_ok, marks_seated.
  destruct (round_over _); fields; rewrite length_insert.
  - split; [by apply seats_ok_award|]. rewrite size_empty, award_symbols.
    split; [done|]. split; [done|]. split; [lia|done].
  - done.
Qed.

Lemma room_ok_next_round room : room_ok room → room_ok (next_round room).
Proof.
  intros (Hs & Hb & Hr & Hsz & Hm). unfold next_round, room_ok, marks_seated. fields.
  rewrite size_empty, length_replicate. repeat split; try done; try lia.
  intros i m Hi. by apply (lookup_replicate 9 (None : cell) (Some m) i) in Hi as [? _].
Qed.

Lemma room_ok_offline sock room : room_ok room → room_ok (offline sock room).
Proof. intros Hok. apply room_ok_players; [done|]. by apply update_first_map. Qed.

Lemma room_ok_reseated sock pid room : room_ok room → room_ok (reseated sock pid room).
Proof.
  intros Hok. unfold reseated.
  apply (room_ok_players room (update_first (λ p, bool_decide (playerId p = pid))
                                            (λ p, set_id p (Some sock)) (players room)));
    [done|]. by apply update_first_map.
Qed.

Lemma room_ok_fresh sock pid nick : room_ok (fresh_room sock pid nick).
Proof.
  unfold room_ok, marks_seated, fresh_room. fields. rewrite size_empty, length_replicate.
  split; [by left|]. repeat split; try lia.
  intros i m Hi. by apply (lookup_replicate 9 (None : cell) (Some m) i) in Hi as [? _].
Qed.

(** Writing one room keeps the invariant when the new room is well formed
    and the timeouts stay in step with the rooms. *)
Lemma state_ok_set s roomId room' ts' n' :
  state_ok s → room_ok room' →
  (∀ t, cleanupTimer room' = Some t → ts' !! t = Some roomId) →
  (∀ roomId0 room0 t, roomId0 ≠ roomId → rooms_get roomId0 (rooms s) = Some room0 →
     cleanupTimer room0 = Some t → ts' !! t = Some roomId0) →
  (∀ t roomId0, ts' !! t = Some roomId0 → (t < n')%nat) →
  state_ok (mkState (rooms_set roomId room' (rooms s)) ts' n').
Proof.
  intros (Hwf & Hrooms & Hts) Hok Htimer Hothers Hlt. split; [|split]; simpl.
  - by apply rooms_set_wf.
  - intros roomId0 room0. rewrite rooms_get_set. destruct (decide (roomId = roomId0)) as [<-|Hne].
    + intros [= <-]. done.
    + intros Hget. split; [by apply (Hrooms _ _ Hget)|]. intros t Ht. by eapply Hothers.
  - done.
Qed.

(** The same when the timeouts are not touched. *)
Lemma state_ok_set_room s roomId room room' :
  state_ok s → rooms_get roomId (rooms s) = Some room → room_ok room' →
  cleanupTimer room' = cleanupTimer room →
  state_ok (set_rooms s (rooms_set roomId room' (rooms s))).
Proof.
  intros Hok Hget Hroom Htimer. pose proof Hok as (Hwf & Hrooms & Hts).
  apply state_ok_set; try done.
  - intros t. rewrite Htimer. by apply (Hrooms _ _ Hget).
  - intros roomId0 room0 t _ Hget0. by apply (Hrooms _ _ Hget0).
Qed.

Lemma clearTimeout_lookup h ts t :
  clearTimeout h ts !! t = if decide (h = Some t) then None else ts !! t.
Proof.
  unfold clearTimeout. destruct (decide (h = Some t)) as [->|Hne].
  - apply lookup_delete_eq.
  - destruct h as [t'|]; [|done]. apply lookup_delete_ne. congruence.
Qed.

Lemma transition_state_ok s e s' : state_ok s → transition s e s' → state_ok s'.
Proof.
  intros Hok Ht. pose proof Hok as (Hwf & Hrooms & Hts).
  destruct Ht as [s e|s sock nick pid rnd Hn Hp|s sock nick pid roomId room Hget Hlen
                 |s sock roomId pid room player Hget Hfind
                 |s sock roomId q room player i Hget Hfind Hi Hc Hturn
                 |s sock roomId room Hget Hsz|s sock roomId room Hget Hsz
                 |s sock roomId room Hget
                 |s sock roomId room player Hget Hfind Hcount
                 |s sock roomId room player Hget Hfind Hcount Htimer
                 |s t roomId Ht Hget|s t roomId room Ht Hget Hcount
                 |s t roomId room Ht Hget Hcount]; try done.
  - apply state_ok_set; try done; [apply room_ok_fresh|].
    intros roomId0 room0 t _ Hget0. by apply (Hrooms _ _ Hget0).
  - destruct (Hrooms _ _ Hget) as ((Hs & Hb & Hr & Hsz & Hm) & _).
    eapply state_ok_set_room; try done. unfold room_ok, marks_seated. fields.
    split; [by apply seats_ok_join|]. repeat (split; [done|]).
    intros j m Hj. rewrite map_app. apply elem_of_app. left. by eapply Hm.
  - destruct (Hrooms _ _ Hget) as (Hroom & Htm).
    apply state_ok_set; try done.
    + by apply room_ok_reseated.
    + intros roomId0 room0 t Hne Hget0 Ht0. rewrite clearTimeout_lookup.
      destruct (decide (cleanupTimer room = Some t)) as [Heq|_].
      * apply Htm in Heq. apply (Hrooms _ _ Hget0) in Ht0. congruence.
      * by apply (Hrooms _ _ Hget0).
    + intros t roomId0. rewrite clearTimeout_lookup. destruct (decide _); [done|apply Hts].
  - destruct (Hrooms _ _ Hget) as (Hroom & _).
    eapply state_ok_set_room; try done; [|apply room_after_move_timer].
    apply room_ok_after_move; [done|]. by apply find_Some_elem in Hfind as [? _].
  - destruct (Hrooms _ _ Hget) as ((? & ? & ? & ? & ?) & _).
    eapply state_ok_set_room; try done. unfold room_ok, marks_seated. fields.
    repeat (split; [done|]). split; [lia|done].
  - destruct (Hrooms _ _ Hget) as (Hroom & _).
    eapply state_ok_set_room; try done. by apply room_ok_next_round.
  - destruct (Hrooms _ _ Hget) as (Hroom & _).
    eapply state_ok_set_room; try done. apply room_ok_players; [done|].
    by rewrite map_map.
  - destruct (Hrooms _ _ Hget) as (Hroom & _).
    eapply state_ok_set_room; try done. by apply room_ok_offline.
  - destruct (Hrooms _ _ Hget) as (Hroom & _).
    apply state_ok_set; try done.
    + by apply room_ok_offline.
    + simpl. intros t [= <-]. apply lookup_insert_eq.
    + intros roomId0 room0 t Hne Hget0 Ht0. apply (Hrooms _ _ Hget0) in Ht0.
      rewrite lookup_insert_ne; [done|]. apply Hts in Ht0. lia.
    + intros t roomId0. rewrite lookup_insert. destruct (decide _) as [<-|_]; [lia|].
      intros H%Hts. lia.
  - split; [done|]. split; simpl.
    + intros roomId0 room0 Hget0. split; [by apply (Hrooms _ _ Hget0)|].
      intros t0 Ht0. apply (Hrooms _ _ Hget0) in Ht0.
      rewrite lookup_delete_ne; [done|]. intros ->. congruence.
    + intros t0 roomId0 H. apply lookup_delete_Some in H as [_ H]. by eapply Hts.
  - split; [by apply rooms_delete_wf|]. split; simpl.
    + intros roomId0 room0. rewrite rooms_get_delete.
      destruct (decide (roomId = roomId0)) as [_|Hne]; [done|]. intros Hget0.
      split; [by apply (Hrooms _ _ Hget0)|].
      intros t0 Ht0. apply (Hrooms _ _ Hget0) in Ht0.
      rewrite lookup_delete_ne; [done|]. intros ->. congruence.
    + intros t0 roomId0 H. apply lookup_delete_Some in H as [_ H]. by eapply Hts.
  - destruct (Hrooms _ _ Hget) as (Hroom & Htm).
    apply state_ok_set; try done.
    + intros roomId0 room0 t0 Hne Hget0 Ht0. rewrite clearTimeout_lookup.
      pose proof (proj2 (Hrooms _ _ Hget0) _ Ht0) as Hp.
      destruct (decide (cleanupTimer room = Some t0)) as [Heq|_].
      * apply Htm in Heq. congruence.
      * rewrite lookup_delete_ne; [done|]. intros ->. congruence.
    + intros t0 roomId0. rewrite clearTimeout_lookup. destruct (decide _); [done|].
      intros H. apply lookup_delete_Some in H as [_ H]. by eapply Hts.
Qed.

Lemma state_ok_init : state_ok init.
Proof.
  split; [apply NoDup_nil_2|]. split; [done|].
  intros t roomId. unfold init. cbn [timers]. by rewrite lookup_empty.
Qed.

Lemma reachable_state_ok ok s : reachable_by ok s → state_ok s.
Proof.
  apply reachable_by_invariant; [apply state_ok_init|].
  intros s0 e _ Hok _. eapply transition_state_ok; [done|].
  apply step_transition. apply Hok.
Qed.

Lemma run_cons s e es :
  (run s (e :: es)).1 = (run (step s e).1 es).1.
Proof.
  simpl. destruct (step s e) as [s1 out1]. simpl.
  by destruct (run s1 es) as [s2 out2].
Qed.

Lemma reachable_by_run ok s es :
  reachable_by ok s → run_ok ok s es → reachable_by ok (run s es).1.
Proof.
  revert s. induction es as [|e es IH]; intros s Hs Hok; [done|].
  rewrite run_cons. destruct Hok as [He Hrest]. apply IH; [|done]. by apply reach_step.
Qed.

Lemma reachable_run es : reachable (run init es).1.
Proof.
  apply reachable_by_run; [apply reach_init|].
  generalize init. induction es as [|e es IH]; intros s; simpl; auto.
Qed.

(** ** The ready gate *)

Lemma size_ge_2_distinct (S : gset string) :
  (2 <= size S)%nat ↔ ∃ a b, a ≠ b ∧ a ∈ S ∧ b ∈ S.
Proof.
  split.
  - intros Hsz. destruct (size_pos_elem_of S) as [a Ha]; [lia|].
    destruct (size_pos_elem_of (S ∖ {[a]})) as [b Hb].
    { rewrite size_difference by set_solver. rewrite size_singleton. lia. }
    apply elem_of_difference in Hb as [Hb Hn]. rewrite elem_of_singleton in Hn.
    exists a, b. split; [congruence|done].
  - intros (a & b & Hne & Ha & Hb).
    assert (size ({[a]} ∪ {[b]} : gset string) = 2%nat) as <-.
    { rewrite size_union by set_solver. by rewrite !size_singleton. }
    apply subseteq_size.
    intros x [->%elem_of_singleton| ->%elem_of_singleton]%elem_of_union; done.
Qed.

Lemma rem_2_odd r : 0 ≤ r → (Z.rem r 2 =? 1) = Z.odd r.
Proof.
  intros Hr. rewrite Z.rem_mod_nonneg by lia. rewrite Zmod_odd.
  by destruct (Z.odd r).
Qed.

Lemma advances_ready sock roomId roomId' s :
  advances roomId' (ready_next_round sock roomId s).2 ↔
  roomId' = roomId ∧ ∃ room, rooms_get roomId (rooms s) = Some room
                             ∧ (2 <= size ({[sock]} ∪ readySet room))%nat.
Proof.
  unfold advances, ready_next_round.
  destruct (rooms_get roomId (rooms s)) as [room|] eqn:Hr; cbn [snd].
  - destruct (2 <=? size ({[sock]} ∪ readySet room))%nat eqn:Hsz; cbn [snd].
    + apply Nat.leb_le in Hsz. split.
      * intros (r & b & t & ps & H'). apply list_elem_of_singleton in H'. simplify_eq. eauto.
      * intros (-> & _). do 4 eexists. apply list_elem_of_here.
    + apply Nat.leb_gt in Hsz. split.
      * intros (r & b & t & ps & H). by apply elem_of_nil in H.
      * intros (_ & room' & [= <-] & H). lia.
  - split.
    + intros (r & b & t & ps & H). by apply elem_of_nil in H.
    + intros (_ & room' & ? & _). done.
Qed.

(** Only [ready-next-round] sends [new-round]. *)
Lemma advances_only_ready s e roomId :
  advances roomId (step s e).2 → ∃ sock, e = ReadyNextRound sock roomId.
Proof.
  unfold advances. intros (r & b & t & ps & H).
  destruct e as [sock nick pid rnd|sock nick pid roomId0|sock roomId0 pid
                |sock roomId0 index|sock roomId0|sock roomId0|sock|t0]; simpl in H.
  - unfold create_room in H. destruct (_ || _); simpl in H;
      apply list_elem_of_singleton in H; done.
  - unfold join_room in H. destruct (rooms_get _ _); [|by apply list_elem_of_singleton in H].
    destruct (_ || _); [by apply list_elem_of_singleton in H|].
    destruct (_ <=? _)%nat; simpl in H; [by apply list_elem_of_singleton in H|].
    apply elem_of_cons in H as [?|H]; [done|]. by apply list_elem_of_singleton in H.
  - unfold rejoin_room in H. destruct (rooms_get _ _); [|by apply list_elem_of_singleton in H].
    destruct (List.find _ _); simpl in H; by apply list_elem_of_singleton in H.
  - destruct (make_move_cases sock roomId0 index s)
      as [[_ Hm]|(room & player & q & i & _ & _ & _ & _ & _ & _ & _ & _ & Hm)];
      rewrite Hm in H; simpl in H; [by apply elem_of_nil in H|].
    unfold sent_by_move in H. destruct (round_over _).
    + apply elem_of_cons in H as [?|H]; [done|]. by apply list_elem_of_singleton in H.
    + by apply list_elem_of_singleton in H.
  - assert (advances roomId (ready_next_round sock roomId0 s).2) as Ha by (do 4 eexists; done).
    apply advances_ready in Ha as [-> _]. eauto.
  - unfold reset_scores in H. destruct (rooms_get _ _); simpl in H;
      [by apply list_elem_of_singleton in H|by apply elem_of_nil in H].
  - unfold disconnect in H. destruct (mark_offline _ _) as [[[[? ?] ?] ?]|];
      [|by apply elem_of_nil in H].
    destruct (bool_decide _); simpl in H; by apply list_elem_of_singleton in H.
  - unfold timer_fire in H. destruct (_ !! _); [|by apply elem_of_nil in H].
    destruct (rooms_get _ _); [|by apply elem_of_nil in H].
    destruct (bool_decide _); by apply elem_of_nil in H.
Qed.

(** Outside the advance, a room that stays in the store keeps its round. *)
Lemma transition_round s e s' roomId room room' :
  transition s e s' →
  rooms_get roomId (rooms s) = Some room → rooms_get roomId (rooms s') = Some room' →
  round room' = round room
  ∨ (∃ sock nick pid rnd, e = CreateRoom sock nick pid rnd)
  ∨ (∃ sock, e = ReadyNextRound sock roomId
             ∧ (2 <= size ({[sock]} ∪ readySet room))%nat).
Proof.
  intros Ht Hget Hget'.
  destruct Ht; fields;
    try rewrite rooms_get_set in Hget'; try rewrite rooms_get_delete in Hget';
    try (destruct (decide _) as [->|]); simplify_eq;
    first [ by left | left; apply room_after_move_round
          | right; left; by eauto | right; right; by eauto ].
Qed.

Lemma ready_next_round_advance sock roomId s room :
  rooms_get roomId (rooms s) = Some room →
  (2 <= size ({[sock]} ∪ readySet room))%nat →
  ready_next_round sock roomId s =
    (set_rooms s (rooms_set roomId (next_round room) (rooms s)),
     [Emit roomId (NewRound (round room + 1) (replicate 9 None)
                            (if Z.rem (round room + 1) 2 =? 1 then X else O) (players room))]).
Proof.
  intros Hr Hsz. unfold ready_next_round. rewrite Hr.
  apply Nat.leb_le in Hsz. by rewrite Hsz.
Qed.

Lemma ready_next_round_wait sock roomId s room :
  rooms_get roomId (rooms s) = Some room →
  (size ({[sock]} ∪ readySet room) < 2)%nat →
  ready_next_round sock roomId s =
    (set_rooms s (rooms_set roomId (set_readySet room ({[sock]} ∪ readySet room)) (rooms s)), []).
Proof.
  intros Hr Hsz. unfold ready_next_round. rewrite Hr.
  apply Nat.leb_gt in Hsz. by rewrite Hsz.
Qed.

Lemma size_add_le (a : string) (S : gset string) : (size ({[a]} ∪ S) <= 1 + size S)%nat.
Proof.
  rewrite size_union_alt, size_singleton.
  assert (size (S ∖ {[a]}) <= size S)%nat; [|lia].
  apply subseteq_size. intros x Hx. by apply elem_of_difference in Hx as [? _].
Qed.

(** C4. The round of a room advances exactly when [ready-next-round]
    reaches an existing room and, with the caller's acknowledgement
    recorded, the ready set holds two distinct connection ids.  The advance
    adds 1 to the round, empties the 9 cells, gives the turn to [X] when the
    new round is odd and to [O] when it is even, and clears the ready set.
    No other event, room creation apart, changes the round of a room that
    stays in the store. *)
Theorem round_advance_iff (s : State) (e : event) (roomId : string) :
  reachable s →
  (advances roomId (step s e).2 ↔
     ∃ sock room,
       e = ReadyNextRound sock roomId ∧ rooms_get roomId (rooms s) = Some room
       ∧ ∃ a b, a ≠ b ∧ a ∈ {[sock]} ∪ readySet room ∧ b ∈ {[sock]} ∪ readySet room)
  ∧ (advances roomId (step s e).2 →
     ∃ sock room room',
       e = ReadyNextRound sock roomId
       ∧ rooms_get roomId (rooms s) = Some room
       ∧ rooms_get roomId (rooms (step s e).1) = Some room'
       ∧ size ({[sock]} ∪ readySet room) = 2%nat
       ∧ round room' = round room + 1
       ∧ length (board room') = 9%nat
       ∧ (∀ i c, board room' !! i = Some c → c = None)
       ∧ currentTurn room' = (if Z.odd (round room') then X else O)
       ∧ readySet room' = ∅
       ∧ players room' = players room)
  ∧ (¬ advances roomId (step s e).2 →
     (∀ sock nick pid rnd, e ≠ CreateRoom sock nick pid rnd) →
     ∀ room room',
       rooms_get roomId (rooms s) = Some room →
       rooms_get roomId (rooms (step s e).1) = Some room' →
       round room' = round room).
Proof.
  intros Hreach. apply reachable_state_ok in Hreach as Hok.
  destruct Hok as (Hwf & Hrooms & _).
  assert (advances roomId (step s e).2 ↔
          ∃ sock room, e = ReadyNextRound sock roomId
                       ∧ rooms_get roomId (rooms s) = Some room
                       ∧ (2 <= size ({[sock]} ∪ readySet room))%nat) as Hiff.
  { split.
    - intros Ha. destruct (advances_only_ready _ _ _ Ha) as [sock ->].
      simpl in Ha. apply advances_ready in Ha as (_ & room & Hr & Hsz). eauto.
    - intros (sock & room & -> & Hr & Hsz). simpl. apply advances_ready. eauto. }
  split; [|split].
  - rewrite Hiff. split.
    + intros (sock & room & -> & Hr & Hsz). apply size_ge_2_distinct in Hsz. eauto.
    + intros (sock & room & -> & Hr & Hsz). apply size_ge_2_distinct in Hsz. eauto.
  - rewrite Hiff. intros (sock & room & -> & Hr & Hsz).
    exists sock, room, (next_round room). simpl.
    rewrite (ready_next_round_advance _ _ _ _ Hr Hsz). cbn [fst rooms set_rooms].
    destruct (Hrooms _ _ Hr) as ((_ & _ & Hround & Hready & _) & _).
    pose proof (size_add_le sock (readySet room)).
    repeat split; try done.
    + apply rooms_get_set_eq.
    + lia.
    + intros i c Hc. unfold next_round in Hc. cbn [board] in Hc.
      by apply (lookup_replicate 9 (None : cell) c i) in Hc as [-> _].
    + unfold next_round. cbn [currentTurn round]. by rewrite rem_2_odd by lia.
  - intros Hno Hcreate room room' Hr Hr'.
    destruct (transition_round s e _ roomId room room' (step_transition s e Hwf) Hr Hr')
      as [?|[(sock & nick & pid & rnd & ->)|(sock & -> & Hsz)]]; [done| |].
    + by destruct (Hcreate sock nick pid rnd).
    + destruct Hno. apply Hiff. eauto.
Qed.

Lemma round_advance_iff_witness :
  let s := (run init [CreateRoom "s1" "A" "p1" "0.4fzyo82mvyr";
                      JoinRoom "s2" "B" "p2" "4FZYO8";
                      ReadyNextRound "s1" "4FZYO8"]).1 in
  let e := ReadyNextRound "s2" "4FZYO8" in
  advances "4FZYO8" (step s e).2
  ∧ ∃ room', rooms_get "4FZYO8" (rooms (step s e).1) = Some room'
             ∧ round room' = 2 ∧ currentTurn room' = O ∧ readySet room' = ∅.
Proof.
  intros s e.
  destruct (round_advance_iff s e "4FZYO8" (reachable_run _)) as (Hiff & Heffect & _).
  assert (advances "4FZYO8" (step s e).2) as Ha.
  { apply Hiff. exists "s2", (mkRoom [mkSeat (Some "s1") "p1" "A" X 0; mkSeat (Some "s2") "p2" "B" O 0]
                                  (replicate 9 None) X 1 {["s1"]} None).
    split; [reflexivity|]. split; [reflexivity|].
    exists "s2", "s1". split; [done|]. split; by_computing. }
  split; [exact Ha|].
  destruct (Heffect Ha) as (sock & room & room' & He & Hr & Hr' & _ & Hround & _ & _ & Hturn & Hready & _).
  exists room'. split; [exact Hr'|].
  assert (room = mkRoom [mkSeat (Some "s1") "p1" "A" X 0; mkSeat (Some "s2") "p2" "B" O 0]
                        (replicate 9 None) X 1 {["s1"]} None) as ->.
  { assert (rooms_get "4FZYO8" (rooms s) = Some (mkRoom [mkSeat (Some "s1") "p1" "A" X 0; mkSeat (Some "s2") "p2" "B" O 0]
                        (replicate 9 None) X 1 {["s1"]} None)) as Hr0 by reflexivity.
    rewrite Hr0 in Hr. by injection Hr as <-. }
  cbn [round] in Hround. split; [exact Hround|]. split; [|exact Hready].
  rewrite Hturn, Hround. reflexivity.
Defined.

(** ** Rejoin *)

Lemma rejoin_room_found sock roomId pid s room player :
  rooms_get roomId (rooms s) = Some room →
  List.find (λ p, bool_decide (playerId p = pid)) (players room) = Some player →
  rejoin_room sock roomId pid s =
    let s' := mkState (rooms_set roomId (reseated sock pid room) (rooms s))
                      (clearTimeout (cleanupTimer room) (timers s)) (nextTimer s) in
    (s', [Reply (Rejoined (roomSnapshot roomId s'))]).
Proof. intros Hr Hf. unfold rejoin_room. by rewrite Hr, Hf. Qed.

(** C7. A rejoin whose [playerId] matches a seat of the room changes, in
    that room, the connection id of the first such seat and nothing else of
    the seats (no seat is added; mark, points, nickname and [playerId]
    stay), keeps board, round, turn and ready set, clears the cleanup
    timeout of the room and leaves every other room and every other timeout
    alone.  A rejoin to an unknown room answers "Room not found", one with
    a [playerId] no seat holds answers "Seat not found", and both leave the
    state as it was. *)
Theorem rejoin_room_frame (sock roomId pid : string) (s : State) :
  (∀ room,
     rooms_get roomId (rooms s) = Some room →
     (∃ p, p ∈ players room ∧ playerId p = pid) →
     ∃ i player room',
       players room !! i = Some player ∧ playerId player = pid
       ∧ (∀ j p, (j < i)%nat → players room !! j = Some p → playerId p ≠ pid)
       ∧ rooms_get roomId (rooms (rejoin_room sock roomId pid s).1) = Some room'
       ∧ players room' = <[i := set_id player (Some sock)]> (players room)
       ∧ length (players room') = length (players room)
       ∧ (∃ seat, players room' !! i = Some seat ∧ id seat = Some sock
                  ∧ playerId seat = playerId player ∧ nickname seat = nickname player
                  ∧ symbol seat = symbol player ∧ points seat = points player)
       ∧ (∀ j, j ≠ i → players room' !! j = players room !! j)
       ∧ board room' = board room ∧ round room' = round room
       ∧ currentTurn room' = currentTurn room ∧ readySet room' = readySet room
       ∧ cleanupTimer room' = None
       ∧ (∀ t, cleanupTimer room = Some t → timers (rejoin_room sock roomId pid s).1 !! t = None)
       ∧ (∀ t, cleanupTimer room ≠ Some t →
               timers (rejoin_room sock roomId pid s).1 !! t = timers s !! t)
       ∧ (∀ roomId', roomId' ≠ roomId →
               rooms_get roomId' (rooms (rejoin_room sock roomId pid s).1)
               = rooms_get roomId' (rooms s))
       ∧ (rejoin_room sock roomId pid s).2
         = [Reply (Rejoined (roomSnapshot roomId (rejoin_room sock roomId pid s).1))])
  ∧ (rooms_get roomId (rooms s) = None →
     rejoin_room sock roomId pid s = (s, [Reply (Failure "Room not found")]))
  ∧ (∀ room,
       rooms_get roomId (rooms s) = Some room →
       (∀ p, p ∈ players room → playerId p ≠ pid) →
       rejoin_room sock roomId pid s = (s, [Reply (Failure "Seat not found")])).
Proof.
  split; [|split].
  - intros room Hr (p & Hp & Hpid).
    destruct (List.find (λ p, bool_decide (playerId p = pid)) (players room))
      as [player|] eqn:Hf.
    2:{ rewrite find_None_elem in Hf. apply Hf in Hp. apply bool_decide_eq_false in Hp. done. }
    rewrite (rejoin_room_found _ _ _ _ _ _ Hr Hf). cbn [fst snd rooms timers].
    destruct (update_first_Some _ (λ p, set_id p (Some sock)) _ _ Hf)
      as (i & Hi & Hm & Hbefore & Hupd).
    apply bool_decide_eq_true in Hm.
    assert (i < length (players room))%nat as Hlt by (eapply lookup_lt_Some; done).
    exists i, player, (reseated sock pid room).
    split; [done|]. split; [done|]. split.
    { intros j q Hj Hq. specialize (Hbefore j q Hj Hq). by apply bool_decide_eq_false in Hbefore. }
    split; [apply rooms_get_set_eq|].
    unfold reseated. fields. rewrite Hupd.
    split; [done|]. split; [apply length_insert|]. split.
    { exists (set_id player (Some sock)). split; [by apply list_lookup_insert_eq|done]. }
    split; [intros j Hj; by apply list_lookup_insert_ne|].
    repeat (split; [done|]).
    split.
    { intros t Ht. rewrite clearTimeout_lookup. by rewrite decide_True. }
    split.
    { intros t Ht. rewrite clearTimeout_lookup. by rewrite decide_False. }
    split; [|done].
    intros roomId' Hne. apply rooms_get_set_ne. congruence.
  - intros Hr. unfold rejoin_room. by rewrite Hr.
  - intros room Hr Hnone. unfold rejoin_room. rewrite Hr.
    assert (List.find (λ p, bool_decide (playerId p = pid)) (players room) = None) as ->; [|done].
    apply find_None_elem. intros p Hp. apply bool_decide_eq_false. by apply Hnone.
Qed.

Lemma rejoin_room_frame_witness :
  let s := (run init [CreateRoom "s1" "A" "p1" "0.4fzyo82mvyr"; Disconnect "s1"]).1 in
  rejoin_room "s3" "NOROOM" "p1" s = (s, [Reply (Failure "Room not found")])
  ∧ rejoin_room "s3" "4FZYO8" "p7" s = (s, [Reply (Failure "Seat not found")])
  ∧ ∃ room', rooms_get "4FZYO8" (rooms (rejoin_room "s3" "4FZYO8" "p1" s).1) = Some room'
             ∧ players room' = [mkSeat (Some "s3") "p1" "A" X 0]
             ∧ cleanupTimer room' = None
             ∧ timers (rejoin_room "s3" "4FZYO8" "p1" s).1 !! 0%nat = None.
Proof.
  intros s.
  set (room := mkRoom [mkSeat None "p1" "A" X 0] (replicate 9 None) X 1 ∅ (Some 0%nat)).
  assert (rooms_get "4FZYO8" (rooms s) = Some room) as Hr by reflexivity.
  split; [|split].
  - by apply (rejoin_room_frame "s3" "NOROOM" "p1" s).
  - apply (rejoin_room_frame "s3" "4FZYO8" "p7" s) with room; [exact Hr|].
    intros p Hp. apply list_elem_of_singleton in Hp. by subst p.
  - destruct (rejoin_room_frame "s3" "4FZYO8" "p1" s) as (Hfound & _).
    destruct (Hfound room Hr) as (i & player & room' & Hi & _ & _ & Hr' & Hplayers & _ & _ & _
                                  & _ & _ & _ & _ & Htimer & Hcancel & _).
    { exists (mkSeat None "p1" "A" X 0). split; [apply list_elem_of_here|reflexivity]. }
    exists room'. split; [exact Hr'|].
    destruct i as [|i]; [|destruct i; discriminate Hi]. injection Hi as <-.
    split; [exact Hplayers|]. split; [exact Htimer|]. by apply Hcancel.
Defined.

(** ** Disconnect *)

Lemma rooms_get_elem m k v : wf_store m → (k, v) ∈ m → rooms_get k m = Some v.
Proof.
  unfold wf_store. induction m as [|[k0 v0] m IH]; simpl; intros Hwf Hin.
  - by apply elem_of_nil in Hin.
  - apply NoDup_cons in Hwf as [Hnin Hnd].
    apply elem_of_cons in Hin as [[= -> ->]|Hin]; [by rewrite decide_True|].
    rewrite decide_False; [by apply IH|].
    intros ->. apply Hnin. apply list_elem_of_fmap. by exists (k, v).
Qed.

Lemma mark_offline_middle sock pre roomId room post player :
  (∀ kv, kv ∈ pre → List.find (is_socket sock) (players kv.2) = None) →
  List.find (is_socket sock) (players room) = Some player →
  mark_offline sock (pre ++ (roomId, room) :: post)
  = Some (pre ++ (roomId, offline sock room) :: post, roomId, offline sock room, player).
Proof.
  intros Hpre Hf. induction pre as [|[k v] pre IH]; simpl.
  - by rewrite Hf.
  - pose proof (Hpre (k, v) (list_elem_of_here _ _)) as Hkv. cbn [snd] in Hkv. rewrite Hkv.
    rewrite IH; [done|]. intros kv Hkv'. apply Hpre. by apply list_elem_of_further.
Qed.

(** C10. When the socket holds seats in several rooms, its disconnect
    marks offline one seat only: the first seat of that socket in the first
    room, in the order of the store, that has one.  That seat then has no
    socket id and keeps its [playerId], nickname, mark and points; the
    other seats of the room are as they were.  One [player-left] is sent,
    to that room.  Every other room keeps its place and its state, so the
    seats the socket holds there still carry its id. *)
Theorem disconnect_first_room_only
    (sock : string) (s : State) (pre : store) (roomId : string) (room : Room) (post : store) :
  wf_store (rooms s) →
  rooms s = pre ++ (roomId, room) :: post →
  (∀ kv p, kv ∈ pre → p ∈ players kv.2 → id p ≠ Some sock) →
  (∃ p, p ∈ players room ∧ id p = Some sock) →
  ∃ i player room',
    players room !! i = Some player ∧ id player = Some sock
    ∧ (∀ j p, (j < i)%nat → players room !! j = Some p → id p ≠ Some sock)
    ∧ rooms (disconnect sock s).1 = pre ++ (roomId, room') :: post
    ∧ players room' = <[i := set_id player None]> (players room)
    ∧ length (players room') = length (players room)
    ∧ (∃ seat, players room' !! i = Some seat ∧ id seat = None
               ∧ playerId seat = playerId player ∧ nickname seat = nickname player
               ∧ symbol seat = symbol player ∧ points seat = points player)
    ∧ (∀ j, j ≠ i → players room' !! j = players room !! j)
    ∧ board room' = board room ∧ round room' = round room
    ∧ currentTurn room' = currentTurn room ∧ readySet room' = readySet room
    ∧ (disconnect sock s).2
      = [Emit roomId (PlayerLeft (playerId player) (nickname player) (symbol player))]
    ∧ (∀ kv, kv ∈ pre ++ post →
         rooms_get kv.1 (rooms (disconnect sock s).1) = Some kv.2
         ∧ ∀ p, p ∈ players kv.2 → id p = Some sock →
                ∃ r, rooms_get kv.1 (rooms (disconnect sock s).1) = Some r
                     ∧ p ∈ players r ∧ id p = Some sock).
Proof.
  intros Hwf Hs Hpre (p & Hp & Hpid).
  assert (∀ kv, kv ∈ pre → List.find (is_socket sock) (players kv.2) = None) as Hpre'.
  { intros kv Hkv. apply find_None_elem. intros x Hx. apply bool_decide_eq_false.
    by apply (Hpre kv). }
  destruct (List.find (is_socket sock) (players room)) as [player|] eqn:Hf.
  2:{ rewrite find_None_elem in Hf. apply Hf in Hp. by apply bool_decide_eq_false in Hp. }
  destruct (update_first_Some _ (λ p, set_id p None) _ _ Hf) as (i & Hi & Hm & Hbefore & Hupd).
  apply bool_decide_eq_true in Hm.
  assert (roomId ∉ pre.*1) as Hnin by (rewrite Hs in Hwf; by eapply wf_store_middle).
  assert (∀ r, wf_store (pre ++ (roomId, r) :: post)) as Hwf'.
  { intros r. unfold wf_store in *. rewrite Hs in Hwf. by rewrite fmap_app in *. }
  assert (∃ room', (disconnect sock s).1
                   = mkState (pre ++ (roomId, room') :: post) (timers (disconnect sock s).1)
                             (nextTimer (disconnect sock s).1)
                   ∧ players room' = players (offline sock room)
                   ∧ board room' = board room ∧ round room' = round room
                   ∧ currentTurn room' = currentTurn room ∧ readySet room' = readySet room
                   ∧ (disconnect sock s).2
                     = [Emit roomId (PlayerLeft (playerId player) (nickname player)
                                                (symbol player))])
    as (room' & Hstate & Hplayers & Hb & Hr & Hc & Hrs & Hout).
  { unfold disconnect. rewrite Hs, (mark_offline_middle _ _ _ _ _ _ Hpre' Hf).
    destruct (bool_decide (activePlayersCount (offline sock room) = 0%nat)).
    - unfold scheduleRoomCleanup. cbn [fst snd rooms set_rooms].
      rewrite rooms_get_middle by done.
      destruct (cleanupTimer (offline sock room)).
      + exists (offline sock room). done.
      + exists (set_cleanupTimer (offline sock room) (Some (nextTimer s))).
        cbn [fst snd rooms timers nextTimer]. by rewrite rooms_set_middle.
    - exists (offline sock room). done. }
  exists i, player, room'.
  split; [done|]. split; [done|]. split.
  { intros j q Hj Hq. specialize (Hbefore j q Hj Hq). by apply bool_decide_eq_false in Hbefore. }
  split; [by rewrite Hstate|].
  rewrite Hplayers. unfold offline. fields. rewrite Hupd.
  assert (i < length (players room))%nat as Hlt by (eapply lookup_lt_Some; done).
  split; [done|]. split; [apply length_insert|]. split.
  { exists (set_id player None). split; [by apply list_lookup_insert_eq|].
    split; [reflexivity|done]. }
  split; [intros j Hj; by apply list_lookup_insert_ne|].
  repeat (split; [done|]).
  intros [k v] Hkv. cbn [fst snd].
  assert (rooms_get k (rooms (disconnect sock s).1) = Some v) as Hget.
  { rewrite Hstate. cbn [rooms]. apply rooms_get_elem; [apply Hwf'|].
    apply elem_of_app in Hkv as [?|?]; apply elem_of_app; [by left|right].
    by apply list_elem_of_further. }
  split; [done|]. intros q Hq Hid. eauto.
Qed.

Lemma disconnect_first_room_only_witness :
  let s := (run init [CreateRoom "s1" "A" "p1" "0.aaaaaaaaaa";
                      CreateRoom "s1" "A" "p1" "0.bbbbbbbbbb"]).1 in
  let seat := mkSeat (Some "s1") "p1" "A" X 0 in
  ∃ i player room',
    players (fresh_room "s1" "p1" "A") !! i = Some player ∧ id player = Some "s1"
    ∧ (∀ j p, (j < i)%nat → players (fresh_room "s1" "p1" "A") !! j = Some p
              → id p ≠ Some "s1")
    ∧ rooms (disconnect "s1" s).1 = [] ++ ("AAAAAA", room') :: [("BBBBBB", fresh_room "s1" "p1" "A")]
    ∧ players room' = <[i := set_id player None]> (players (fresh_room "s1" "p1" "A"))
    ∧ length (players room') = length (players (fresh_room "s1" "p1" "A"))
    ∧ (∃ seat, players room' !! i = Some seat ∧ id seat = None
               ∧ playerId seat = playerId player ∧ nickname seat = nickname player
               ∧ symbol seat = symbol player ∧ points seat = points player)
    ∧ (∀ j, j ≠ i → players room' !! j = players (fresh_room "s1" "p1" "A") !! j)
    ∧ board room' = board (fresh_room "s1" "p1" "A")
    ∧ round room' = round (fresh_room "s1" "p1" "A")
    ∧ currentTurn room' = currentTurn (fresh_room "s1" "p1" "A")
    ∧ readySet room' = readySet (fresh_room "s1" "p1" "A")
    ∧ (disconnect "s1" s).2
      = [Emit "AAAAAA" (PlayerLeft (playerId player) (nickname player) (symbol player))]
    ∧ (∀ kv, kv ∈ [] ++ [("BBBBBB", fresh_room "s1" "p1" "A")] →
         rooms_get kv.1 (rooms (disconnect "s1" s).1) = Some kv.2
         ∧ ∀ p, p ∈ players kv.2 → id p = Some "s1" →
                ∃ r, rooms_get kv.1 (rooms (disconnect "s1" s).1) = Some r
                     ∧ p ∈ players r ∧ id p = Some "s1").
Proof.
  intros s seat.
  apply (disconnect_first_room_only "s1" s [] "AAAAAA" (fresh_room "s1" "p1" "A")
           [("BBBBBB", fresh_room "s1" "p1" "A")]).
  - unfold wf_store. by_computing.
  - reflexivity.
  - intros kv p Hkv. by apply elem_of_nil in Hkv.
  - exists seat. split; [apply list_elem_of_here|reflexivity].
Defined.

(** ** Idle cleanup *)

Lemma active_found sock ps p :
  List.find (is_socket sock) ps = Some p → sock ≠ "" →
  (0 < length (List.filter (λ p, truthy_id (id p)) ps))%nat.
Proof.
  intros Hf Hne. induction ps as [|a ps IH]; simpl in *; [done|].
  destruct (is_socket sock a) eqn:Ha.
  - apply bool_decide_eq_true in Ha. rewrite Ha. simpl.
    unfold falsy. rewrite bool_decide_eq_false_2 by done. simpl. lia.
  - destruct (truthy_id (id a)); simpl; [lia|by apply IH].
Qed.

(** A timeout becomes pending only in the disconnect handler, for a room
    that records none and whose last active seat just went offline. *)
Lemma transition_arms s e s' t roomId :
  transition s e s' →
  timers s !! t = None → timers s' !! t = Some roomId →
  ∃ sock room player,
    e = Disconnect sock
    ∧ rooms_get roomId (rooms s) = Some room
    ∧ List.find (is_socket sock) (players room) = Some player
    ∧ cleanupTimer room = None
    ∧ activePlayersCount (offline sock room) = 0%nat
    ∧ rooms_get roomId (rooms s')
      = Some (set_cleanupTimer (offline sock room) (Some t)).
Proof.
  intros Ht Hnone Hsome.
  destruct Ht; fields; try congruence.
  - rewrite clearTimeout_lookup in Hsome. destruct (decide _); congruence.
  - rewrite lookup_insert in Hsome. destruct (decide _) as [<-|]; [|congruence].
    simplify_eq. exists sock, room, player. repeat (split; [done|]).
    apply rooms_get_set_eq.
  - apply lookup_delete_Some in Hsome as [_ ?]. congruence.
  - apply lookup_delete_Some in Hsome as [_ ?]. congruence.
  - rewrite clearTimeout_lookup in Hsome. destruct (decide _); [done|].
    apply lookup_delete_Some in Hsome as [_ ?]. congruence.
Qed.

(** A handle that was given out and is not pending is never pending
    again. *)
Lemma transition_cancelled s e s' t :
  transition s e s' →
  (t < nextTimer s)%nat → timers s !! t = None →
  (t < nextTimer s')%nat ∧ timers s' !! t = None.
Proof.
  intros Ht Hlt Hnone. destruct Ht; fields; try done.
  - split; [done|]. rewrite clearTimeout_lookup. by destruct (decide _).
  - split; [lia|]. rewrite lookup_insert_ne; [done|lia].
  - split; [done|]. apply lookup_delete_None. by right.
  - split; [done|]. apply lookup_delete_None. by right.
  - split; [done|]. rewrite clearTimeout_lookup. destruct (decide _); [done|].
    apply lookup_delete_None. by right.
Qed.

Lemma run_cancelled es s t :
  state_ok s → (t < nextTimer s)%nat → timers s !! t = None →
  timers (run s es).1 !! t = None.
Proof.
  revert s. induction es as [|e es IH]; intros s Hok Hlt Hnone; [done|].
  rewrite run_cons.
  pose proof (step_transition s e (proj1 Hok)) as Ht.
  destruct (transition_cancelled _ _ _ t Ht Hlt Hnone) as [Hlt' Hnone'].
  apply IH; [by eapply transition_state_ok|done..].
Qed.

Lemma timers_tracked_set_room s roomId room room' :
  timers_tracked s → rooms_get roomId (rooms s) = Some room →
  cleanupTimer room' = cleanupTimer room →
  timers_tracked (set_rooms s (rooms_set roomId room' (rooms s))).
Proof.
  intros Htr Hget Htimer t roomId0 Ht. fields. rewrite rooms_get_set.
  destruct (Htr _ _ Ht) as (room0 & Hget0 & Ht0).
  destruct (decide (roomId = roomId0)) as [<-|Hne]; [|eauto].
  simplify_eq. exists room'. split; [done|congruence].
Qed.

Lemma transition_tracked s e s' :
  timers_tracked s → fresh_create s e → transition s e s' → timers_tracked s'.
Proof.
  intros Htr Hfresh Ht.
  destruct Ht as [s e|s sock nick pid rnd Hn Hp|s sock nick pid roomId room Hget Hlen
                 |s sock roomId pid room player Hget Hfind
                 |s sock roomId q room player i Hget Hfind Hi Hc Hturn
                 |s sock roomId room Hget Hsz|s sock roomId room Hget Hsz
                 |s sock roomId room Hget
                 |s sock roomId room player Hget Hfind Hcount
                 |s sock roomId room player Hget Hfind Hcount Htimer
                 |s t roomId Ht Hget|s t roomId room Ht Hget Hcount
                 |s t roomId room Ht Hget Hcount];
    try (by eapply timers_tracked_set_room); try done.
  - simpl in Hfresh. intros t roomId0 Ht. fields. rewrite rooms_get_set.
    destruct (Htr _ _ Ht) as (room0 & Hget0 & Ht0).
    destruct (decide _) as [<-|]; [congruence|eauto].
  - intros t roomId0 Ht. fields. rewrite clearTimeout_lookup in Ht.
    destruct (decide (cleanupTimer room = Some t)) as [|Hne]; [done|].
    destruct (Htr _ _ Ht) as (room0 & Hget0 & Ht0). rewrite rooms_get_set.
    destruct (decide _) as [<-|]; [|eauto]. simplify_eq.
  - eapply timers_tracked_set_room; [done..|]. apply room_after_move_timer.
  - intros t roomId0 Ht. fields. rewrite rooms_get_set. rewrite lookup_insert in Ht.
    destruct (decide (nextTimer s = t)) as [<-|Hne].
    + simplify_eq. rewrite decide_True by done. eauto.
    + destruct (Htr _ _ Ht) as (room0 & Hget0 & Ht0).
      destruct (decide _) as [<-|]; [|eauto]. simplify_eq.
  - destruct (Htr _ _ Ht) as (room0 & Hget0 & _). congruence.
  - intros t0 roomId0 Ht0. fields. apply lookup_delete_Some in Ht0 as [Hne Ht0].
    destruct (Htr _ _ Ht0) as (room0 & Hget0 & Hr0). rewrite rooms_get_delete.
    destruct (decide _) as [<-|]; [|eauto].
    destruct (Htr _ _ Ht) as (room1 & Hget1 & Hr1). simplify_eq.
  - intros t0 roomId0 Ht0. fields. rewrite clearTimeout_lookup in Ht0.
    destruct (decide _); [done|]. apply lookup_delete_Some in Ht0 as [Hne Ht0].
    destruct (Htr _ _ Ht0) as (room0 & Hget0 & Hr0). rewrite rooms_get_set.
    destruct (decide _) as [<-|]; [|eauto].
    destruct (Htr _ _ Ht) as (room1 & Hget1 & Hr1). simplify_eq.
Qed.

Lemma reachable_tracked s : reachable_by fresh_create s → timers_tracked s.
Proof.
  revert s. apply reachable_by_invariant.
  - intros t roomId. unfold init. cbn [timers]. by rewrite lookup_empty.
  - intros s e Hreach Htr Hfresh. eapply transition_tracked; [done..|].
    apply step_transition. by apply reachable_state_ok in Hreach as [? _].
Qed.

(** A room that stays in the store under its id keeps the timeout it
    records, unless a creation took its id or the timeout stopped being
    pending. *)
Lemma transition_record s e s' roomId room room' t :
  transition s e s' →
  rooms_get roomId (rooms s) = Some room → cleanupTimer room = Some t →
  rooms_get roomId (rooms s') = Some room' →
  cleanupTimer room' = Some t
  ∨ (∃ sock nick pid rnd, e = CreateRoom sock nick pid rnd ∧ generateRoomId rnd = roomId)
  ∨ timers s' !! t = None.
Proof.
  intros Ht Hr Hrec Hr'.
  destruct Ht; fields;
    try rewrite rooms_get_set in Hr'; try rewrite rooms_get_delete in Hr';
    try (destruct (decide _) as [<-|]); simplify_eq; fields;
    first [ by left
          | left; by rewrite room_after_move_timer
          | right; left; by eauto 10
          | right; right; rewrite clearTimeout_lookup; by rewrite decide_True ].
Qed.

Lemma scheduleRoomCleanup_pending roomId s room t :
  rooms_get roomId (rooms s) = Some room → cleanupTimer room = Some t →
  scheduleRoomCleanup roomId s = s.
Proof. intros Hr Ht. unfold scheduleRoomCleanup. by rewrite Hr, Ht. Qed.

Lemma timer_fire_not_pending t s : timers s !! t = None → timer_fire t s = (s, []).
Proof. intros H. unfold timer_fire. by rewrite H. Qed.

Lemma timer_fire_room t s roomId room :
  timers s !! t = Some roomId → rooms_get roomId (rooms s) = Some room →
  (rooms_get roomId (rooms (timer_fire t s).1) = None ↔ activePlayersCount room = 0%nat)
  ∧ timers (timer_fire t s).1 !! t = None
  ∧ (∀ roomId', roomId' ≠ roomId →
       rooms_get roomId' (rooms (timer_fire t s).1) = rooms_get roomId' (rooms s)).
Proof.
  intros Ht Hr. unfold timer_fire. rewrite Ht, Hr.
  destruct (bool_decide (activePlayersCount room = 0%nat)) eqn:Hc; cbn [fst rooms timers].
  - apply bool_decide_eq_true in Hc. split; [|split].
    + by rewrite rooms_get_delete_eq.
    + apply lookup_delete_eq.
    + intros roomId' Hne. apply rooms_get_delete_ne. congruence.
  - apply bool_decide_eq_false in Hc. split; [|split].
    + rewrite rooms_get_set_eq. split; [done|]. intros ?. done.
    + rewrite clearTimeout_lookup. destruct (decide _); [done|apply lookup_delete_eq].
    + intros roomId' Hne. apply rooms_get_set_ne. congruence.
Qed.

(** C9, as the handlers implement it.  (1) A cleanup timeout becomes
    pending only through a disconnect
    that takes the room's count of active seats to zero (from above zero,
    socket ids being non-empty), and only when the room records no timeout.
    (2) A room that records a timeout has it pending, and scheduling again
    changes nothing; while the room stays in the store it keeps that record
    until the timeout is cleared or has expired, a creation that takes the
    room's id apart; when no creation reused a live id, no room id has two
    pending timeouts.  (3) When a pending timeout expires and its room is
    in the store, the room is deleted exactly when its count of active
    seats is zero, and no other room is touched.  (4) A successful rejoin
    unsets the timeout the room recorded and keeps the room; that timeout
    is never pending again, so its expiry does nothing, whatever happens
    next; when no creation reused a live id, no timeout at all is pending
    for the room after the rejoin. *)
Theorem idle_cleanup_lifecycle (s : State) :
  reachable s →
  (∀ e t roomId,
     timers s !! t = None → timers (step s e).1 !! t = Some roomId →
     ∃ sock room room',
       e = Disconnect sock
       ∧ rooms_get roomId (rooms s) = Some room
       ∧ rooms_get roomId (rooms (step s e).1) = Some room'
       ∧ cleanupTimer room = None ∧ cleanupTimer room' = Some t
       ∧ activePlayersCount room' = 0%nat
       ∧ (sock ≠ "" → (0 < activePlayersCount room)%nat))
  ∧ (∀ roomId room t,
       rooms_get roomId (rooms s) = Some room → cleanupTimer room = Some t →
       timers s !! t = Some roomId ∧ scheduleRoomCleanup roomId s = s)
  ∧ (∀ e roomId room room' t,
       rooms_get roomId (rooms s) = Some room → cleanupTimer room = Some t →
       rooms_get roomId (rooms (step s e).1) = Some room' →
       cleanupTimer room' = Some t
       ∨ (∃ sock nick pid rnd, e = CreateRoom sock nick pid rnd ∧ generateRoomId rnd = roomId)
       ∨ timers (step s e).1 !! t = None)
  ∧ (reachable_by fresh_create s →
     ∀ t1 t2 roomId,
       timers s !! t1 = Some roomId → timers s !! t2 = Some roomId → t1 = t2)
  ∧ (∀ t roomId room,
       timers s !! t = Some roomId → rooms_get roomId (rooms s) = Some room →
       (rooms_get roomId (rooms (step s (TimerFire t)).1) = None
        ↔ activePlayersCount room = 0%nat)
       ∧ (∀ roomId', roomId' ≠ roomId →
            rooms_get roomId' (rooms (step s (TimerFire t)).1) = rooms_get roomId' (rooms s)))
  ∧ (∀ sock roomId pid room t,
       rooms_get roomId (rooms s) = Some room → cleanupTimer room = Some t →
       (∃ p, p ∈ players room ∧ playerId p = pid) →
       (∃ room', rooms_get roomId (rooms (step s (RejoinRoom sock roomId pid)).1) = Some room'
                 ∧ cleanupTimer room' = None)
       ∧ (∀ es, timers (run (step s (RejoinRoom sock roomId pid)).1 es).1 !! t = None
                ∧ step (run (step s (RejoinRoom sock roomId pid)).1 es).1 (TimerFire t)
                  = ((run (step s (RejoinRoom sock roomId pid)).1 es).1, []))
       ∧ (reachable_by fresh_create s →
          ∀ t', timers (step s (RejoinRoom sock roomId pid)).1 !! t' ≠ Some roomId)).
Proof.
  intros Hreach. pose proof (reachable_state_ok _ _ Hreach) as Hok.
  pose proof Hok as (Hwf & Hrooms & Hts).
  split; [|split; [|split; [|split; [|split]]]].
  - intros e t roomId Hnone Hsome.
    destruct (transition_arms _ _ _ _ _ (step_transition s e Hwf) Hnone Hsome)
      as (sock & room & player & -> & Hr & Hf & Htimer & Hcount & Hr').
    exists sock, room, (set_cleanupTimer (offline sock room) (Some t)).
    repeat (split; [done|]). intros Hne. by eapply active_found.
  - intros roomId room t Hr Ht. split; [by apply (Hrooms _ _ Hr)|].
    by eapply scheduleRoomCleanup_pending.
  - intros e roomId room room' t Hr Ht Hr'.
    by eapply transition_record; [apply step_transition|..].
  - intros Hfresh t1 t2 roomId H1 H2. apply reachable_tracked in Hfresh.
    destruct (Hfresh _ _ H1) as (room1 & Hr1 & Ht1).
    destruct (Hfresh _ _ H2) as (room2 & Hr2 & Ht2). congruence.
  - intros t roomId room Ht Hr. simpl.
    destruct (timer_fire_room _ _ _ _ Ht Hr) as (? & _ & ?). done.
  - intros sock roomId pid room t Hr Ht (p & Hp & Hpid). simpl.
    destruct (List.find (λ p, bool_decide (playerId p = pid)) (players room))
      as [player|] eqn:Hf.
    2:{ rewrite find_None_elem in Hf. apply Hf in Hp. by apply bool_decide_eq_false in Hp. }
    pose proof (step_transition s (RejoinRoom sock roomId pid) Hwf) as Htrans.
    simpl in Htrans. revert Htrans.
    rewrite (rejoin_room_found _ _ _ _ _ _ Hr Hf). cbn [fst]. intros Htrans.
    set (s1 := mkState (rooms_set roomId (reseated sock pid room) (rooms s))
                       (clearTimeout (cleanupTimer room) (timers s)) (nextTimer s)) in *.
    assert (state_ok s1) as Hok1 by (by eapply transition_state_ok).
    assert (timers s1 !! t = None) as Hgone.
    { unfold s1. cbn [timers]. rewrite clearTimeout_lookup. by rewrite decide_True. }
    assert (t < nextTimer s1)%nat as Hlt.
    { unfold s1. cbn [nextTimer]. eapply Hts. by apply (Hrooms _ _ Hr). }
    split; [|split].
    + exists (reseated sock pid room). split; [apply rooms_get_set_eq|done].
    + intros es. pose proof (run_cancelled es s1 t Hok1 Hlt Hgone) as Hnever.
      split; [done|]. simpl. by apply timer_fire_not_pending.
    + intros Hfresh t' Ht'.
      assert (timers_tracked s1) as Htr.
      { apply (transition_tracked s (RejoinRoom sock roomId pid) s1);
          [by apply reachable_tracked|exact I|exact Htrans]. }
      destruct (Htr _ _ Ht') as (room' & Hr' & Hc').
      unfold s1 in Hr'. cbn [rooms] in Hr'. rewrite rooms_get_set_eq in Hr'.
      by simplify_eq.
Qed.

Lemma idle_cleanup_lifecycle_witness :
  let s := (run init [CreateRoom "s1" "A" "p1" "0.4fzyo82mvyr"; Disconnect "s1"]).1 in
  timers s !! 0%nat = Some "4FZYO8"
  ∧ rooms_get "4FZYO8" (rooms (step s (TimerFire 0)).1) = None
  ∧ (∃ room', rooms_get "4FZYO8" (rooms (step s (RejoinRoom "s2" "4FZYO8" "p1")).1) = Some room'
              ∧ cleanupTimer room' = None)
  ∧ step (run (step s (RejoinRoom "s2" "4FZYO8" "p1")).1 [Disconnect "s2"]).1 (TimerFire 0)
    = ((run (step s (RejoinRoom "s2" "4FZYO8" "p1")).1 [Disconnect "s2"]).1, []).
Proof.
  intros s.
  destruct (idle_cleanup_lifecycle s (reachable_run _))
    as (_ & Hpending & _ & _ & Hexpire & Hrejoin).
  set (room := mkRoom [mkSeat None "p1" "A" X 0] (replicate 9 None) X 1 ∅ (Some 0%nat)).
  assert (rooms_get "4FZYO8" (rooms s) = Some room) as Hr by reflexivity.
  destruct (Hpending "4FZYO8" room 0%nat Hr eq_refl) as [Ht _].
  split; [exact Ht|].
  destruct (Hexpire 0%nat "4FZYO8" room Ht Hr) as [Hiff _].
  split; [apply Hiff; reflexivity|].
  destruct (Hrejoin "s2" "4FZYO8" "p1" room 0%nat Hr eq_refl) as (Hkept & Hnever & _).
  { exists (mkSeat None "p1" "A" X 0). split; [apply list_elem_of_here|reflexivity]. }
  split; [exact Hkept|].
  exact (proj2 (Hnever [Disconnect "s2"])).
Defined.

(** C9, as stated, fails once a creation has taken the id of a live room
    (the timeout callback holds the id, not the room): after [s1] created
    the room and left, and [s2] created a room under the same id and left,
    two timeouts are pending for that id.  The rejoin of [p2] clears the
    one its room records and leaves the other pending; when that one
    expires after the player has left again, the room is deleted. *)
Lemma two_timeouts_for_one_room :
  let s := (run init [CreateRoom "s1" "A" "p1" "0.4fzyo82mvyr"; Disconnect "s1";
                      CreateRoom "s2" "B" "p2" "0.4fzyo82mvyr"; Disconnect "s2"]).1 in
  timers s !! 0%nat = Some "4FZYO8" ∧ timers s !! 1%nat = Some "4FZYO8"
  ∧ (step s (RejoinRoom "s3" "4FZYO8" "p2")).2
    = [Reply (Rejoined (roomSnapshot "4FZYO8" (step s (RejoinRoom "s3" "4FZYO8" "p2")).1))]
  ∧ timers (step s (RejoinRoom "s3" "4FZYO8" "p2")).1 !! 0%nat = Some "4FZYO8"
  ∧ timers (step s (RejoinRoom "s3" "4FZYO8" "p2")).1 !! 1%nat = None
  ∧ rooms_get "4FZYO8"
      (rooms (run s [RejoinRoom "s3" "4FZYO8" "p2"; Disconnect "s3"]).1)
    = Some (mkRoom [mkSeat None "p2" "B" X 0] (replicate 9 None) X 1 ∅ (Some 2%nat))
  ∧ rooms_get "4FZYO8"
      (rooms (run s [RejoinRoom "s3" "4FZYO8" "p2"; Disconnect "s3"; TimerFire 0]).1)
    = None.
Proof. intros s. repeat split; by vm_compute. Qed.

(** ** Round over *)

Lemma checkWinner_Some b m :
  (checkWinner b).1 = Some m → ∃ l, l ∈ wins ∧ three_equal b l m.
Proof.
  unfold checkWinner. destruct (scan_wins b wins) as [w line] eqn:E. simpl. intros ->.
  apply scan_wins_result in E as [(? & _)|(m' & l & ? & _ & Hin & Hl)]; [done|].
  simplify_eq. eauto.
Qed.

Lemma checkWinner_None b :
  (checkWinner b).1 = None ↔ ∀ l m, l ∈ wins → ¬ three_equal b l m.
Proof.
  split.
  - unfold checkWinner. destruct (scan_wins b wins) as [w line] eqn:E. simpl. intros ->.
    apply scan_wins_result in E as [(_ & _ & H)|(m' & l & ? & _)]; done.
  - intros H. unfold checkWinner. by rewrite scan_wins_none.
Qed.

Lemma round_over_iff b :
  round_over b = true ↔
  (∃ l m, l ∈ wins ∧ three_equal b l m) ∨ (∀ c, c ∈ b → c ≠ None).
Proof.
  unfold round_over. rewrite orb_true_iff, bool_decide_eq_true, forallb_forall.
  split.
  - intros [[m Hm]|Hfull].
    + left. apply checkWinner_Some in Hm as (l & ? & ?). eauto.
    + right. intros c Hc. apply list_elem_of_In in Hc. apply Hfull in Hc.
      by apply bool_decide_eq_true in Hc.
  - intros [(l & m & Hin & Hl)|Hfull].
    + left. destruct (checkWinner b).1 as [w|] eqn:E; [by eexists|].
      rewrite checkWinner_None in E. by destruct (E l m).
    + right. intros c Hc. apply bool_decide_eq_true. apply Hfull. by apply list_elem_of_In.
Qed.

(** With one seat per mark, the scoring rule adds a point to the seat whose
    mark won and leaves every other seat as it was. *)
Lemma award_seat w ps i seat :
  seats_ok ps → ps !! i = Some seat →
  ∃ seat', award w ps !! i = Some seat'
    ∧ points seat' = points seat + (if bool_decide (w = Some (symbol seat)) then 1 else 0)
    ∧ id seat' = id seat ∧ playerId seat' = playerId seat
    ∧ nickname seat' = nickname seat ∧ symbol seat' = symbol seat.
Proof.
  intros Hs Hi. destruct Hs as [Hs|Hs].
  - destruct ps as [|p1 [|? ?]]; simplify_eq/=.
    destruct i as [|i]; simplify_eq/=.
    destruct w as [w|]; simpl.
    + destruct (decide (symbol seat = w)) as [<-|Hne].
      * rewrite !bool_decide_eq_true_2 by done. eexists. split; [done|]. done.
      * rewrite !bool_decide_eq_false_2 by congruence. exists seat.
        split; [done|]. split; [lia|done].
    + exists seat. split; [done|]. split; [lia|done].
  - destruct ps as [|p1 [|p2 [|? ?]]]; simplify_eq/=.
    destruct w as [w|]; simpl.
    2:{ exists seat. split; [done|]. split; [lia|done]. }
    destruct (decide (symbol p1 = w)) as [<-|Hne1].
    + rewrite (bool_decide_eq_true_2 (symbol p1 = symbol p1)) by done.
      destruct i as [|[|i]]; simplify_eq/=.
      * rewrite bool_decide_eq_true_2 by done. eexists. split; [done|]. done.
      * rewrite bool_decide_eq_false_2 by congruence. exists seat.
        split; [done|]. split; [lia|done].
    + rewrite (bool_decide_eq_false_2 (symbol p1 = w)) by done.
      destruct i as [|[|i]]; simplify_eq/=.
      * rewrite bool_decide_eq_false_2 by congruence. exists seat.
        split; [done|]. split; [lia|done].
      * destruct (decide (symbol seat = w)) as [<-|Hne2].
        -- rewrite !bool_decide_eq_true_2 by done. eexists. split; [done|]. done.
        -- rewrite !bool_decide_eq_false_2 by congruence. exists seat.
           split; [done|]. split; [lia|done].
Qed.

(** C2, as the handler implements it.  A dropped move sends nothing.  An
    accepted move sends [round-over] once exactly when, on the board it
    leaves, a line is complete or no cell is empty, and then clears the
    ready set; otherwise it sends [update-board] alone.  Whether or not the
    round is over, every seat keeps its place and its identity, and its
    points grow by 1 when its mark is the winner of that board and by 0
    otherwise; a winning mark always has a seat. *)
Theorem round_over_per_move (sock roomId : string) (index : jsval) (s : State) :
  reachable s →
  (¬ accepted sock roomId index s → (make_move sock roomId index s).2 = [])
  ∧ (accepted sock roomId index s →
     ∃ room room' q,
       rooms_get roomId (rooms s) = Some room
       ∧ rooms_get roomId (rooms (make_move sock roomId index s).1) = Some room'
       ∧ index = JNum q
       ∧ ((∃ l m, l ∈ wins ∧ three_equal (board room') l m) ∨ (∀ c, c ∈ board room' → c ≠ None) →
          (make_move sock roomId index s).2
          = [Emit roomId (UpdateBoard (board room') (currentTurn room') q);
             Emit roomId (RoundOver (checkWinner (board room')).1 (checkWinner (board room')).2
                                    (round room) (players room') (board room') q)]
          ∧ round_overs roomId (make_move sock roomId index s).2 = 1%nat
          ∧ readySet room' = ∅)
       ∧ (¬ ((∃ l m, l ∈ wins ∧ three_equal (board room') l m)
             ∨ (∀ c, c ∈ board room' → c ≠ None)) →
          (make_move sock roomId index s).2
          = [Emit roomId (UpdateBoard (board room') (currentTurn room') q)]
          ∧ round_overs roomId (make_move sock roomId index s).2 = 0%nat
          ∧ readySet room' = readySet room)
       ∧ ((checkWinner (board room')).1 = None
          ↔ ∀ l m, l ∈ wins → ¬ three_equal (board room') l m)
       ∧ (∀ m, (checkWinner (board room')).1 = Some m →
               (∃ l, l ∈ wins ∧ three_equal (board room') l m)
               ∧ ∃ seat, seat ∈ players room ∧ symbol seat = m)
       ∧ length (players room') = length (players room)
       ∧ (∀ i seat, players room !! i = Some seat →
            ∃ seat', players room' !! i = Some seat'
              ∧ points seat'
                = points seat
                  + (if bool_decide ((checkWinner (board room')).1 = Some (symbol seat))
                     then 1 else 0)
              ∧ id seat' = id seat ∧ playerId seat' = playerId seat
              ∧ nickname seat' = nickname seat ∧ symbol seat' = symbol seat)).
Proof.
  intros Hreach. apply reachable_state_ok in Hreach as (Hwf & Hrooms & _).
  rewrite accepted_iff_legal.
  destruct (make_move_cases sock roomId index s)
    as [[Hn Hm]|(room & player & q & i & Hr & Hf & -> & H0 & H8 & Hi & Hc & Ht & Hm)].
  { rewrite Hm. split; done. }
  split.
  { intros Hn. destruct Hn. exists room, player, q. repeat (split; [done|]).
    split; [|done]. unfold board_read. by rewrite Hi. }
  intros _. rewrite Hm. cbn [fst snd rooms set_rooms].
  exists room, (room_after_move room player i), q.
  split; [done|]. split; [apply rooms_get_set_eq|]. split; [done|].
  destruct (Hrooms _ _ Hr) as (Hok & _).
  pose proof (room_ok_after_move room player i Hok) as Hok'.
  destruct Hok as (Hseats & _).
  rewrite room_after_move_board, room_after_move_turn.
  set (b1 := <[i := Some (symbol player)]> (board room)) in *.
  pose proof (round_over_iff b1) as Hover.
  unfold sent_by_move, room_after_move. fold b1.
  destruct (round_over b1) eqn:Hro; cbn [players readySet].
  - split.
    { intros _. split; [done|]. split; [|done].
      unfold round_overs. simpl. by rewrite bool_decide_eq_true_2. }
    split.
    { intros Hnot. destruct Hnot. by apply Hover. }
    split; [apply checkWinner_None|]. split.
    { intros m Hw. split; [by apply checkWinner_Some|].
      apply checkWinner_Some in Hw as (l & _ & Hl & _).
      destruct Hok' as (_ & _ & _ & _ & Hmarks); [by apply find_Some_elem in Hf as [? _]|].
      unfold room_after_move, marks_seated in Hmarks. fold b1 in Hmarks. rewrite Hro in Hmarks.
      cbn [board players] in Hmarks. apply Hmarks in Hl. rewrite award_symbols in Hl.
      apply list_elem_of_fmap in Hl as (seat & -> & Hin). eauto. }
    split.
    { pose proof (f_equal length (award_symbols (checkWinner b1).1 (players room))) as Hlen.
      by rewrite !length_map in Hlen. }
    intros j seat Hj. by apply award_seat.
  - assert ((checkWinner b1).1 = None) as Hnone.
    { unfold round_over in Hro. apply orb_false_iff in Hro as [Hw _].
      apply bool_decide_eq_false in Hw. destruct ((checkWinner b1).1); [|done].
      destruct Hw. by eexists. }
    split.
    { intros Hyes. apply Hover in Hyes. done. }
    split.
    { intros _. done. }
    split; [apply checkWinner_None|]. split.
    { intros m Hw. congruence. }
    split; [done|].
    intros j seat Hj. exists seat. rewrite Hnone. split; [done|].
    split; [simpl; lia|done].
Qed.

Lemma round_over_per_move_witness :
  let s := (run init [CreateRoom "s1" "A" "p1" "0.4fzyo82mvyr";
                      JoinRoom "s2" "B" "p2" "4FZYO8";
                      MakeMove "s1" "4FZYO8" (JNum (inject_Z 0));
                      MakeMove "s2" "4FZYO8" (JNum (inject_Z 3));
                      MakeMove "s1" "4FZYO8" (JNum (inject_Z 1));
                      MakeMove "s2" "4FZYO8" (JNum (inject_Z 4))]).1 in
  round_overs "4FZYO8" (make_move "s1" "4FZYO8" (JNum (inject_Z 2)) s).2 = 1%nat
  ∧ ∃ room', rooms_get "4FZYO8" (rooms (make_move "s1" "4FZYO8" (JNum (inject_Z 2)) s).1)
             = Some room'
             ∧ map points (players room') = [1; 0].
Proof.
  intros s.
  destruct (round_over_per_move "s1" "4FZYO8" (JNum (inject_Z 2)) s (reachable_run _))
    as [_ Hacc].
  destruct Hacc as (room & room' & q & Hr & Hr' & Hq & Hover & _ & _ & _ & _ & Hpoints).
  { apply accepted_iff_legal.
    exists (mkRoom [mkSeat (Some "s1") "p1" "A" X 0; mkSeat (Some "s2") "p2" "B" O 0]
                   [Some X; Some X; None; Some O; Some O; None; None; None; None]
                   X 1 ∅ None),
           (mkSeat (Some "s1") "p1" "A" X 0), (inject_Z 2).
    repeat (split; [reflexivity|]). split; [unfold Qle; simpl; lia|].
    split; [unfold Qle; simpl; lia|]. split; reflexivity. }
  assert (room' = mkRoom [mkSeat (Some "s1") "p1" "A" X 1; mkSeat (Some "s2") "p2" "B" O 0]
                         [Some X; Some X; Some X; Some O; Some O; None; None; None; None]
                         O 1 ∅ None) as Hroom'.
  { vm_compute in Hr'. by injection Hr' as <-. }
  destruct Hover as (_ & Hcount & _).
  { left. exists (0, 1, 2)%nat, X. rewrite Hroom'. split; [by_computing|].
    repeat split; reflexivity. }
  split; [exact Hcount|]. exists room'. split; [exact Hr'|]. by rewrite Hroom'.
Defined.

(** C2, as stated, fails: in round 1 of this room (no [new-round] has been
    sent yet) [round-over] is sent twice, on the winning move of [X] and
    again on the next move of [O], and the seat of [X] gains 2 points; the
    advance comes after both. *)
Lemma round_over_twice_in_one_round :
  let play := [CreateRoom "s1" "A" "p1" "0.4fzyo82mvyr";
               JoinRoom "s2" "B" "p2" "4FZYO8";
               MakeMove "s1" "4FZYO8" (JNum (inject_Z 0));
               MakeMove "s2" "4FZYO8" (JNum (inject_Z 3));
               MakeMove "s1" "4FZYO8" (JNum (inject_Z 1));
               MakeMove "s2" "4FZYO8" (JNum (inject_Z 4));
               MakeMove "s1" "4FZYO8" (JNum (inject_Z 2));
               MakeMove "s2" "4FZYO8" (JNum (inject_Z 6))] in
  round_overs "4FZYO8" (run init play).2 = 2%nat
  ∧ new_rounds "4FZYO8" (run init play).2 = 0%nat
  ∧ (∃ room, rooms_get "4FZYO8" (rooms (run init play).1) = Some room
             ∧ round room = 1 ∧ map points (players room) = [2; 0])
  ∧ new_rounds "4FZYO8"
      (run init (play ++ [ReadyNextRound "s1" "4FZYO8"; ReadyNextRound "s2" "4FZYO8"])).2
    = 1%nat.
Proof.
  intros play. split; [by vm_compute|]. split; [by vm_compute|]. split; [|by vm_compute].
  eexists. split; [reflexivity|]. split; reflexivity.
Qed.

(** ** The ready set and the seats *)

(** C3 on concrete runs: the ready set of a room takes the id of a socket
    that holds no seat in it; it keeps the id of a seat that went offline;
    and with it the round advances on two acknowledgements of one player
    (before and after a rejoin) while the other seat never acknowledged. *)
Lemma ready_set_not_only_seats :
  (∃ room,
     rooms_get "4FZYO8"
       (rooms (run init [CreateRoom "s1" "A" "p1" "0.4fzyo82mvyr";
                         ReadyNextRound "s9" "4FZYO8"]).1) = Some room
     ∧ "s9" ∈ readySet room ∧ map id (players room) = [Some "s1"])
  ∧ (∃ room,
       rooms_get "4FZYO8"
         (rooms (run init [CreateRoom "s1" "A" "p1" "0.4fzyo82mvyr";
                           JoinRoom "s2" "B" "p2" "4FZYO8";
                           ReadyNextRound "s1" "4FZYO8";
                           Disconnect "s1"]).1) = Some room
       ∧ "s1" ∈ readySet room ∧ map id (players room) = [None; Some "s2"])
  ∧ new_rounds "4FZYO8"
      (run init [CreateRoom "s1" "A" "p1" "0.4fzyo82mvyr";
                 JoinRoom "s2" "B" "p2" "4FZYO8";
                 ReadyNextRound "s1" "4FZYO8";
                 Disconnect "s1";
                 RejoinRoom "s3" "4FZYO8" "p1";
                 ReadyNextRound "s3" "4FZYO8"]).2 = 1%nat.
Proof.
  split; [|split].
  - eexists. split; [reflexivity|]. split; [by_computing|reflexivity].
  - eexists. split; [reflexivity|]. split; [by_computing|reflexivity].
  - by vm_compute.
Qed.

(** ** Room creation *)

(** C6, as the handler implements it.  With a nickname and a [playerId],
    creation answers with the id that [generateRoomId] gives for its one
    random draw.  The id is not compared with the ids in the store and no
    second draw is made: the new room (one connected seat with mark [X] and
    no point, 9 empty cells, turn [X], round 1, nobody ready, no timeout)
    is stored under it; a room that was stored under this id is replaced
    where it stood, and when there was none the new room is added after the
    others.  Rooms under other ids and the timeouts are left alone, and the
    store keeps one room per id. *)
Theorem create_room_effect (sock nick pid rnd : string) (s : State) :
  nick ≠ "" → pid ≠ "" →
  let roomId := generateRoomId rnd in
  let room := mkRoom [mkSeat (Some sock) pid nick X 0] (replicate 9 None) X 1 ∅ None in
  (create_room sock nick pid rnd s).2 = [Reply (Created roomId)]
  ∧ rooms_get roomId (rooms (create_room sock nick pid rnd s).1) = Some room
  ∧ (∀ roomId', roomId' ≠ roomId →
       rooms_get roomId' (rooms (create_room sock nick pid rnd s).1)
       = rooms_get roomId' (rooms s))
  ∧ (rooms_get roomId (rooms s) = None →
       rooms (create_room sock nick pid rnd s).1 = rooms s ++ [(roomId, room)])
  ∧ (∀ old, rooms_get roomId (rooms s) = Some old →
       ∃ pre post, rooms s = pre ++ (roomId, old) :: post
                   ∧ rooms (create_room sock nick pid rnd s).1 = pre ++ (roomId, room) :: post)
  ∧ (wf_store (rooms s) → wf_store (rooms (create_room sock nick pid rnd s).1))
  ∧ timers (create_room sock nick pid rnd s).1 = timers s.
Proof.
  intros Hn Hp roomId room. unfold create_room.
  assert (falsy nick || falsy pid = false) as ->.
  { unfold falsy. by rewrite !bool_decide_eq_false_2. }
  cbn [fst snd rooms timers set_rooms]. fold roomId. fold room.
  split; [done|].
  split; [apply rooms_get_set_eq|].
  split; [intros roomId' Hne; apply rooms_get_set_ne; congruence|].
  split; [intros Hnone; apply rooms_set_absent; by apply rooms_get_None|].
  split; [|split; [apply rooms_set_wf|done]].
  intros old Hold. clear -Hold. induction (rooms s) as [|[k v] m IH]; simpl in *; [done|].
  destruct (decide (k = roomId)) as [->|Hne].
  - simplify_eq. by exists [], m.
  - destruct (IH Hold) as (pre & post & -> & ->).
    by exists ((k, v) :: pre), post.
Qed.

Lemma create_room_effect_witness :
  (create_room "s1" "A" "p1" "0.4fzyo82mvyr" init).2 = [Reply (Created "4FZYO8")]
  ∧ rooms (create_room "s1" "A" "p1" "0.4fzyo82mvyr" init).1
    = [("4FZYO8", mkRoom [mkSeat (Some "s1") "p1" "A" X 0] (replicate 9 None) X 1 ∅ None)].
Proof.
  destruct (create_room_effect "s1" "A" "p1" "0.4fzyo82mvyr" init)
    as (Hout & _ & _ & Hnew & _); [done|done|].
  split; [exact Hout|]. exact (Hnew eq_refl).
Defined.

(** C6, as stated, fails: a creation whose draw gives the id of a live
    room answers with that id and replaces the room: the room of [s1],
    stored before, is gone, and the store holds the room of [s2] alone. *)
Lemma create_room_replaces_live_room :
  (run init [CreateRoom "s1" "A" "p1" "0.4fzyo82mvyr";
             CreateRoom "s2" "B" "p2" "0.4fzyo82mvyr"]).2
  = [Reply (Created "4FZYO8"); Reply (Created "4FZYO8")]
  ∧ rooms (run init [CreateRoom "s1" "A" "p1" "0.4fzyo82mvyr";
                     CreateRoom "s2" "B" "p2" "0.4fzyo82mvyr"]).1
    = [("4FZYO8", fresh_room "s2" "p2" "B")]
  ∧ rooms_get "4FZYO8" (rooms (run init [CreateRoom "s1" "A" "p1" "0.4fzyo82mvyr"]).1)
    = Some (fresh_room "s1" "p1" "A").
Proof. repeat split; reflexivity. Qed.

(** ** Seats *)

Lemma transition_distinct s e s' :
  distinct_players s → fresh_join s e → transition s e s' → distinct_players s'.
Proof.
  intros Hd Hfresh Ht. unfold distinct_players in *.
  assert (∀ roomId room room',
            rooms_get roomId (rooms s) = Some room →
            map playerId (players room') = map playerId (players room) →
            ∀ roomId0 room0,
              rooms_get roomId0 (rooms_set roomId room' (rooms s)) = Some room0 →
              NoDup (map playerId (players room0))) as Hsame.
  { intros roomId room room' Hget Heq roomId0 room0. rewrite rooms_get_set.
    destruct (decide _) as [<-|]; [|by eauto].
    intros [= <-]. rewrite Heq. by eauto. }
  destruct Ht as [s e|s sock nick pid rnd Hn Hp|s sock nick pid roomId room Hget Hlen
                 |s sock roomId pid room player Hget Hfind
                 |s sock roomId q room player i Hget Hfind Hi Hc Hturn
                 |s sock roomId room Hget Hsz|s sock roomId room Hget Hsz
                 |s sock roomId room Hget
                 |s sock roomId room player Hget Hfind Hcount
                 |s sock roomId room player Hget Hfind Hcount Htimer
                 |s t roomId Ht Hget|s t roomId room Ht Hget Hcount
                 |s t roomId room Ht Hget Hcount]; fields; try done;
    try (by eapply Hsame).
  - intros roomId0 room0. rewrite rooms_get_set.
    destruct (decide _) as [<-|]; [|by eauto].
    intros [= <-]. apply NoDup_singleton.
  - intros roomId0 room0. rewrite rooms_get_set.
    destruct (decide _) as [<-|]; [|by eauto].
    intros [= <-]. fields. rewrite map_app. simpl.
    apply NoDup_app. split; [by eauto|]. split; [|apply NoDup_singleton].
    intros x Hx Hx'. apply list_elem_of_singleton in Hx'. subst x.
    apply list_elem_of_fmap in Hx as (p & Hpid & Hp'). simpl in Hfresh.
    by apply (Hfresh room p).
  - eapply Hsame; [done|]. unfold reseated. fields. by apply update_first_map.
  - eapply Hsame; [done|]. unfold room_after_move.
    destruct (round_over _); fields; [|done].
    destruct (checkWinner _).1; simpl; [|done]. by apply update_first_map.
  - eapply Hsame; [done|]. fields. by rewrite map_map.
  - eapply Hsame; [done|]. unfold offline. fields. by apply update_first_map.
  - eapply Hsame; [done|]. unfold offline. fields. by apply update_first_map.
  - intros roomId0 room0. rewrite rooms_get_delete. destruct (decide _); [done|by eauto].
Qed.

Lemma reachable_distinct s : reachable_by fresh_join s → distinct_players s.
Proof.
  revert s. apply reachable_by_invariant; [done|].
  intros s e Hreach Hd Hfresh. eapply transition_distinct; [done..|].
  apply step_transition. by apply reachable_state_ok in Hreach as [? _].
Qed.

(** C8, as the handlers implement it.  In every reachable state a room has
    one or two seats, the first with mark [X] and the second with mark [O],
    hence one seat per mark at most.  The [playerId]s of its seats are
    distinct when every join so far came with a [playerId] that no seat of
    the room held. *)
Theorem seats_by_mark (s : State) (roomId : string) (room : Room) :
  reachable s → rooms_get roomId (rooms s) = Some room →
  (1 <= length (players room) <= 2)%nat
  ∧ (∀ i p, players room !! i = Some p →
            (i = 0%nat ∧ symbol p = X) ∨ (i = 1%nat ∧ symbol p = O))
  ∧ (∀ i j p q, players room !! i = Some p → players room !! j = Some q →
                symbol p = symbol q → i = j)
  ∧ (reachable_by fresh_join s → NoDup (map playerId (players room))).
Proof.
  intros Hreach Hr.
  destruct (reachable_state_ok _ _ Hreach) as (_ & Hrooms & _).
  destruct (Hrooms _ _ Hr) as ((Hseats & _) & _).
  assert (∀ i p, players room !! i = Some p →
                 (i = 0%nat ∧ symbol p = X) ∨ (i = 1%nat ∧ symbol p = O)) as Hmarks.
  { intros i p Hi. destruct Hseats as [Hs|Hs].
    - destruct (players room) as [|p1 [|? ?]]; simplify_eq/=.
      destruct i as [|i]; simplify_eq/=. by left.
    - destruct (players room) as [|p1 [|p2 [|? ?]]]; simplify_eq/=.
      destruct i as [|[|i]]; simplify_eq/=; [by left|by right]. }
  split; [|split; [done|split]].
  - destruct Hseats as [Hs|Hs]; apply (f_equal length) in Hs;
      rewrite length_map in Hs; simpl in Hs; lia.
  - intros i j p q Hi Hj Heq.
    destruct (Hmarks _ _ Hi) as [[-> Hp]|[-> Hp]], (Hmarks _ _ Hj) as [[-> Hq]|[-> Hq]];
      congruence.
  - intros Hfresh. by apply (reachable_distinct _ Hfresh roomId).
Qed.

Lemma seats_by_mark_witness :
  let s := (run init [CreateRoom "s1" "A" "p1" "0.4fzyo82mvyr";
                      JoinRoom "s2" "B" "p2" "4FZYO8"]).1 in
  let room := mkRoom [mkSeat (Some "s1") "p1" "A" X 0; mkSeat (Some "s2") "p2" "B" O 0]
                     (replicate 9 None) X 1 ∅ None in
  (1 <= length (players room) <= 2)%nat
  ∧ (∀ i p, players room !! i = Some p →
            (i = 0%nat ∧ symbol p = X) ∨ (i = 1%nat ∧ symbol p = O))
  ∧ (∀ i j p q, players room !! i = Some p → players room !! j = Some q →
                symbol p = symbol q → i = j)
  ∧ (reachable_by fresh_join s → NoDup (map playerId (players room))).
Proof.
  intros s room. apply (seats_by_mark s "4FZYO8" room); [apply reachable_run|reflexivity].
Defined.

(** C8, as stated, fails: [join-room] takes a [playerId] that the first
    seat already holds, and the room then has two seats with the same
    [playerId]. *)
Lemma join_room_same_playerId :
  ∃ room,
    rooms_get "4FZYO8"
      (rooms (run init [CreateRoom "s1" "A" "p1" "0.4fzyo82mvyr";
                        JoinRoom "s2" "B" "p1" "4FZYO8"]).1) = Some room
    ∧ map playerId (players room) = ["p1"; "p1"]
    ∧ map symbol (players room) = [X; O].
Proof. eexists. split; [reflexivity|]. split; reflexivity. Qed.

(** * Further properties of the handlers *)

(** ** Join *)

(** X1. [join-room] checks, in this order, that the room exists, that
    nickname and [playerId] are present and that fewer than two seats are
    taken; each failed check answers with its own message and changes
    nothing.  Otherwise a connected seat with mark [O] and no point is
    added after the seats of the room, whose board, round, turn, ready set
    and timeout stay; [start-game] carries the snapshot with the new seat,
    and no other room nor any timeout is touched. *)
Theorem join_room_outcomes (sock nick pid roomId : string) (s : State) :
  (rooms_get roomId (rooms s) = None →
     join_room sock nick pid roomId s = (s, [Reply (Failure "Room not found")]))
  ∧ (∀ room, rooms_get roomId (rooms s) = Some room → nick = "" ∨ pid = "" →
       join_room sock nick pid roomId s
       = (s, [Reply (Failure "nickname and playerId are required")]))
  ∧ (∀ room, rooms_get roomId (rooms s) = Some room → nick ≠ "" → pid ≠ "" →
       (2 <= length (players room))%nat →
       join_room sock nick pid roomId s = (s, [Reply (Failure "Room is full")]))
  ∧ (∀ room, rooms_get roomId (rooms s) = Some room → nick ≠ "" → pid ≠ "" →
       (length (players room) < 2)%nat →
       ∃ room',
         room' = mkRoom (players room ++ [mkSeat (Some sock) pid nick O 0]) (board room)
                        (currentTurn room) (round room) (readySet room) (cleanupTimer room)
         ∧ (join_room sock nick pid roomId s).2
           = [Emit roomId (StartGame (Some (mkSnapshot roomId (round room) (currentTurn room)
                                                        (board room) (players room'))));
              Reply Success]
         ∧ rooms_get roomId (rooms (join_room sock nick pid roomId s).1) = Some room'
         ∧ (∀ roomId', roomId' ≠ roomId →
              rooms_get roomId' (rooms (join_room sock nick pid roomId s).1)
              = rooms_get roomId' (rooms s))
         ∧ timers (join_room sock nick pid roomId s).1 = timers s
         ∧ nextTimer (join_room sock nick pid roomId s).1 = nextTimer s).
Proof.
  unfold join_room. split; [|split; [|split]].
  - by intros ->.
  - intros room -> Hmiss.
    assert (falsy nick || falsy pid = true) as ->; [|done].
    unfold falsy. destruct Hmiss as [-> | ->]; simpl; [done|].
    by rewrite orb_true_r.
  - intros room -> Hn Hp Hlen.
    assert (falsy nick || falsy pid = false) as ->
      by (unfold falsy; by rewrite !bool_decide_eq_false_2).
    apply Nat.leb_le in Hlen. by rewrite Hlen.
  - intros room -> Hn Hp Hlen.
    assert (falsy nick || falsy pid = false) as ->
      by (unfold falsy; by rewrite !bool_decide_eq_false_2).
    apply Nat.leb_gt in Hlen. rewrite Hlen. eexists. split; [reflexivity|].
    cbn [fst snd rooms timers nextTimer set_rooms]. unfold roomSnapshot.
    cbn [rooms set_rooms]. rewrite rooms_get_set_eq.
    split; [done|]. split; [done|]. split; [|done].
    intros roomId' Hne. apply rooms_get_set_ne. congruence.
Qed.

(** ** Requests that fail *)

Lemma not_in_singleton_reply (o o' : output) : o ∈ [o'] → o = o'.
Proof. by intros H%list_elem_of_singleton. Qed.

(** X2. Whatever the event, when the handler answers with a failure the
    server state is what it was. *)
Theorem failure_changes_nothing (s : State) (e : event) (msg : string) :
  Reply (Failure msg) ∈ (step s e).2 → (step s e).1 = s.
Proof.
  destruct e as [sock nick pid rnd|sock nick pid roomId|sock roomId pid
                |sock roomId index|sock roomId|sock roomId|sock|t]; simpl.
  - unfold create_room. destruct (_ || _); [done|].
    intros H%not_in_singleton_reply. done.
  - unfold join_room. destruct (rooms_get _ _); [|done].
    destruct (_ || _); [done|]. destruct (_ <=? _)%nat; [done|]. cbn [fst snd].
    intros H. apply elem_of_cons in H as [?|H%not_in_singleton_reply]; done.
  - unfold rejoin_room. destruct (rooms_get _ _); [|done].
    destruct (List.find _ _); [|done]. cbn [fst snd].
    intros H%not_in_singleton_reply. done.
  - destruct (make_move_cases sock roomId index s)
      as [[_ ->]|(room & player & q & i & _ & _ & _ & _ & _ & _ & _ & _ & ->)]; [done|].
    cbn [fst snd]. unfold sent_by_move. destruct (round_over _); intros H.
    + apply elem_of_cons in H as [?|H%not_in_singleton_reply]; done.
    + by apply not_in_singleton_reply in H.
  - unfold ready_next_round. destruct (rooms_get _ _); [|done].
    destruct (_ <=? _)%nat; cbn [fst snd]; intros H.
    + by apply not_in_singleton_reply in H.
    + by apply elem_of_nil in H.
  - unfold reset_scores. destruct (rooms_get _ _); [|done]. cbn [fst snd].
    intros H%not_in_singleton_reply. done.
  - unfold disconnect. destruct (mark_offline _ _) as [[[[? ?] ?] ?]|]; [|done].
    destruct (bool_decide _); cbn [fst snd]; intros H%not_in_singleton_reply; done.
  - unfold timer_fire. destruct (_ !! _); [|done].
    destruct (rooms_get _ _); [|cbn [fst snd]; intros H; by apply elem_of_nil in H].
    destruct (bool_decide _); cbn [fst snd]; intros H; by apply elem_of_nil in H.
Qed.

Lemma failure_changes_nothing_witness :
  let s := (run init [CreateRoom "s1" "A" "p1" "0.4fzyo82mvyr";
                      JoinRoom "s2" "B" "p2" "4FZYO8"]).1 in
  (step s (JoinRoom "s3" "C" "p3" "4FZYO8")).1 = s
  ∧ (step s (RejoinRoom "s3" "4FZYO8" "p3")).1 = s
  ∧ (step s (CreateRoom "s3" "" "p3" "0.zzzzzzzzzz")).1 = s.
Proof.
  intros s. split; [|split].
  - apply (failure_changes_nothing s (JoinRoom "s3" "C" "p3" "4FZYO8") "Room is full").
    apply list_elem_of_here.
  - apply (failure_changes_nothing s (RejoinRoom "s3" "4FZYO8" "p3") "Seat not found").
    apply list_elem_of_here.
  - apply (failure_changes_nothing s (CreateRoom "s3" "" "p3" "0.zzzzzzzzzz")
             "nickname and playerId are required").
    apply list_elem_of_here.
Defined.

(** ** One room at a time *)

Lemma transition_one_room s e s' :
  transition s e s' →
  ∃ roomId, (∀ r, event_room e = Some r → roomId = r)
            ∧ ∀ roomId', roomId' ≠ roomId →
                rooms_get roomId' (rooms s') = rooms_get roomId' (rooms s).
Proof.
  intros Ht.
  destruct Ht as [s e|s sock nick pid rnd Hn Hp|s sock nick pid roomId room Hget Hlen
                 |s sock roomId pid room player Hget Hfind
                 |s sock roomId q room player i Hget Hfind Hi Hc Hturn
                 |s sock roomId room Hget Hsz|s sock roomId room Hget Hsz
                 |s sock roomId room Hget
                 |s sock roomId room player Hget Hfind Hcount
                 |s sock roomId room player Hget Hfind Hcount Htimer
                 |s t roomId Ht Hget|s t roomId room Ht Hget Hcount
                 |s t roomId room Ht Hget Hcount].
  - destruct (event_room e) as [r|] eqn:E.
    + exists r. split; [by intros ? [= <-]|done].
    + exists "". split; [done|done].
  - exists (generateRoomId rnd). split; [by intros ? [= <-]|].
    intros r Hne. fields. apply rooms_get_set_ne. congruence.
  - exists roomId. split; [by intros ? [= <-]|].
    intros r Hne. fields. apply rooms_get_set_ne. congruence.
  - exists roomId. split; [by intros ? [= <-]|].
    intros r Hne. fields. apply rooms_get_set_ne. congruence.
  - exists roomId. split; [by intros ? [= <-]|].
    intros r Hne. fields. apply rooms_get_set_ne. congruence.
  - exists roomId. split; [by intros ? [= <-]|].
    intros r Hne. fields. apply rooms_get_set_ne. congruence.
  - exists roomId. split; [by intros ? [= <-]|].
    intros r Hne. fields. apply rooms_get_set_ne. congruence.
  - exists roomId. split; [by intros ? [= <-]|].
    intros r Hne. fields. apply rooms_get_set_ne. congruence.
  - exists roomId. split; [done|].
    intros r Hne. fields. apply rooms_get_set_ne. congruence.
  - exists roomId. split; [done|].
    intros r Hne. fields. apply rooms_get_set_ne. congruence.
  - exists roomId. split; [done|]. done.
  - exists roomId. split; [done|].
    intros r Hne. fields. apply rooms_get_delete_ne. congruence.
  - exists roomId. split; [done|].
    intros r Hne. fields. apply rooms_get_set_ne. congruence.
Qed.

(** X3. An event changes the room of at most one id, and for a client
    request that names a room (for a creation: the id it generates) this is
    the id named: every other room of the store is after the event what it
    was before. *)
Theorem step_touches_one_room (s : State) (e : event) :
  wf_store (rooms s) →
  ∃ roomId, (∀ r, event_room e = Some r → roomId = r)
            ∧ ∀ roomId', roomId' ≠ roomId →
                rooms_get roomId' (rooms (step s e).1) = rooms_get roomId' (rooms s).
Proof. intros Hwf. apply transition_one_room. by apply step_transition. Qed.

Lemma step_touches_one_room_witness :
  let s := (run init [CreateRoom "s1" "A" "p1" "0.aaaaaaaaaa";
                      CreateRoom "s2" "B" "p2" "0.bbbbbbbbbb"]).1 in
  rooms_get "BBBBBB" (rooms (step s (MakeMove "s1" "AAAAAA" (JNum (inject_Z 4)))).1)
  = rooms_get "BBBBBB" (rooms s).
Proof.
  intros s.
  destruct (step_touches_one_room s (MakeMove "s1" "AAAAAA" (JNum (inject_Z 4))))
    as (roomId & Hname & Hothers).
  { unfold wf_store. by_computing. }
  rewrite (Hname "AAAAAA" eq_refl) in Hothers. by apply Hothers.
Defined.

(** ** Score reset *)

Lemma rooms_set_set k v v' m : rooms_set k v (rooms_set k v' m) = rooms_set k v m.
Proof.
  induction m as [|[k0 v0] m IH]; simpl.
  - by rewrite decide_True.
  - destruct (decide (k0 = k)) as [->|Hne]; simpl.
    + by rewrite decide_True.
    + rewrite decide_False by done. by rewrite IH.
Qed.

(** X4. [reset-scores] on an unknown room does nothing.  On a room of the
    store it sets the points of every seat to 0 and changes nothing else:
    the seats keep their order, socket, [playerId], nickname and mark, and
    board, round, turn, ready set and timeout stay, as do the other rooms
    and the timeouts; the new seat list is sent to the room.  Resetting
    twice gives the state and the message of resetting once. *)
Theorem reset_scores_effect (roomId : string) (s : State) :
  (rooms_get roomId (rooms s) = None → reset_scores roomId s = (s, []))
  ∧ (∀ room, rooms_get roomId (rooms s) = Some room →
       ∃ room',
         rooms_get roomId (rooms (reset_scores roomId s).1) = Some room'
         ∧ length (players room') = length (players room)
         ∧ (∀ i p, players room !! i = Some p →
              ∃ p', players room' !! i = Some p' ∧ points p' = 0 ∧ id p' = id p
                    ∧ playerId p' = playerId p ∧ nickname p' = nickname p
                    ∧ symbol p' = symbol p)
         ∧ board room' = board room ∧ round room' = round room
         ∧ currentTurn room' = currentTurn room ∧ readySet room' = readySet room
         ∧ cleanupTimer room' = cleanupTimer room
         ∧ (reset_scores roomId s).2 = [Emit roomId (ScoreReset (players room'))]
         ∧ (∀ roomId', roomId' ≠ roomId →
              rooms_get roomId' (rooms (reset_scores roomId s).1) = rooms_get roomId' (rooms s))
         ∧ timers (reset_scores roomId s).1 = timers s
         ∧ reset_scores roomId (reset_scores roomId s).1
           = ((reset_scores roomId s).1, (reset_scores roomId s).2)).
Proof.
  unfold reset_scores. split; [by intros ->|].
  intros room Hr. rewrite Hr. cbn [fst snd rooms timers set_rooms].
  rewrite rooms_get_set_eq.
  exists (set_players room (map (λ p, set_points p 0) (players room))).
  split; [done|]. fields. split; [apply length_map|]. split.
  { intros i p Hi. exists (set_points p 0). split; [|done].
    by rewrite list_lookup_fmap, Hi. }
  repeat (split; [done|]).
  split; [intros roomId' Hne; apply rooms_get_set_ne; congruence|].
  split; [done|].
  rewrite rooms_set_set, map_map. unfold set_players, set_rooms. simpl. done.
Qed.

(** ** The status query *)

(** X5. The status query answers 404 exactly for the ids that are not in
    the store.  Right after a successful creation it shows, under the id
    returned, one connected seat with mark [X] and no point, 9 empty cells,
    turn [X] and round 1; and once a pending timeout has expired on a room
    without active seat, it answers 404 for that room. *)
Theorem game_status_lifecycle (s : State) :
  (∀ roomId, game_status roomId s = NotFound404 "Room not found"
             ↔ rooms_get roomId (rooms s) = None)
  ∧ (∀ roomId room, rooms_get roomId (rooms s) = Some room →
       game_status roomId s
       = Ok200 (mkSnapshot roomId (round room) (currentTurn room) (board room) (players room)))
  ∧ (∀ sock nick pid rnd, nick ≠ "" → pid ≠ "" →
       game_status (generateRoomId rnd) (create_room sock nick pid rnd s).1
       = Ok200 (mkSnapshot (generateRoomId rnd) 1 X (replicate 9 None)
                           [mkSeat (Some sock) pid nick X 0]))
  ∧ (∀ t roomId room,
       timers s !! t = Some roomId → rooms_get roomId (rooms s) = Some room →
       activePlayersCount room = 0%nat →
       game_status roomId (timer_fire t s).1 = NotFound404 "Room not found").
Proof.
  unfold game_status, roomSnapshot. split; [|split; [|split]].
  - intros roomId. destruct (rooms_get roomId (rooms s)); split; done.
  - by intros roomId room ->.
  - intros sock nick pid rnd Hn Hp. unfold create_room.
    assert (falsy nick || falsy pid = false) as ->
      by (unfold falsy; by rewrite !bool_decide_eq_false_2).
    cbn [fst rooms set_rooms]. by rewrite rooms_get_set_eq.
  - intros t roomId room Ht Hr Hc.
    destruct (timer_fire_room _ _ _ _ Ht Hr) as (Hiff & _).
    apply Hiff in Hc. by rewrite Hc.
Qed.

(** ** Expiry, twice *)

(** X6. The expiry of a timeout uses it up: after it, the handle is not
    pending, and a second expiry of the same handle leaves the state as it
    is.  The expiry of a handle that is not pending, or whose room is no
    longer in the store, leaves every room as it is. *)
Theorem timer_fire_twice (t : nat) (s : State) :
  timers (timer_fire t s).1 !! t = None
  ∧ timer_fire t (timer_fire t s).1 = ((timer_fire t s).1, [])
  ∧ (timers s !! t = None → timer_fire t s = (s, []))
  ∧ (∀ roomId, timers s !! t = Some roomId → rooms_get roomId (rooms s) = None →
       rooms (timer_fire t s).1 = rooms s).
Proof.
  assert (timers (timer_fire t s).1 !! t = None) as Hgone.
  { unfold timer_fire. destruct (timers s !! t) as [roomId|] eqn:Ht; [|done].
    destruct (rooms_get roomId (rooms s)); [|apply lookup_delete_eq].
    destruct (bool_decide _); cbn [fst timers]; [apply lookup_delete_eq|].
    rewrite clearTimeout_lookup. destruct (decide _); [done|apply lookup_delete_eq]. }
  split; [done|]. split; [by apply timer_fire_not_pending|].
  split; [apply timer_fire_not_pending|].
  intros roomId Ht Hr. unfold timer_fire. by rewrite Ht, Hr.
Qed.

(** ** A socket without seat *)

(** X7. The disconnect of a socket sends [player-left] exactly when some
    room has a seat with that socket id; when none has, the state is what
    it was and nothing is sent. *)
Theorem disconnect_unknown_socket (sock : string) (s : State) :
  ((∀ kv p, kv ∈ rooms s → p ∈ players kv.2 → id p ≠ Some sock) →
     disconnect sock s = (s, []))
  ∧ ((disconnect sock s).2 = [] →
     ∀ kv p, kv ∈ rooms s → p ∈ players kv.2 → id p ≠ Some sock).
Proof.
  unfold disconnect. split.
  - intros Hnone.
    destruct (mark_offline sock (rooms s)) as [[[[m roomId] room'] player]|] eqn:Hm; [|done].
    apply mark_offline_Some in Hm as (pre & room & post & Hs & _ & _ & Hf & _).
    apply find_Some_elem in Hf as [Hin Hid]. apply bool_decide_eq_true in Hid.
    destruct (Hnone (roomId, room) player); [|done..].
    rewrite Hs. apply elem_of_app. right. apply list_elem_of_here.
  - destruct (mark_offline sock (rooms s)) as [[[[m roomId] room'] player]|] eqn:Hm.
    { by destruct (bool_decide _). }
    intros _ kv p Hkv Hp Hid.
    pose proof (mark_offline_None _ _ Hm kv Hkv) as Hf.
    rewrite find_None_elem in Hf. apply Hf in Hp. apply bool_decide_eq_false in Hp. done.
Qed.

(** ** Acknowledging alone *)

Lemma ready_alone_step sock roomId s room :
  rooms_get roomId (rooms s) = Some room → readySet room ⊆ {[sock]} →
  ready_next_round sock roomId s
  = (set_rooms s (rooms_set roomId (set_readySet room {[sock]}) (rooms s)), []).
Proof.
  intros Hr Hsub.
  assert ({[sock]} ∪ readySet room = {[sock]}) as Heq.
  { rewrite (union_comm_L _ (readySet room)). by apply subseteq_union_1_L. }
  rewrite (ready_next_round_wait _ _ _ _ Hr); rewrite Heq; [done|].
  rewrite size_singleton. lia.
Qed.

(** X8. [ready-next-round] for an unknown room does nothing.  In a room
    whose ready set is empty or holds the caller alone, any number of
    acknowledgements by that one socket sends no [new-round]: the room
    keeps its round, board, turn and seats, and its ready set holds the
    caller alone. *)
Theorem ready_alone_never_advances (sock roomId : string) (n : nat) (s : State) (room : Room) :
  rooms_get roomId (rooms s) = Some room → readySet room ⊆ {[sock]} →
  (run s (replicate (S n) (ReadyNextRound sock roomId))).2 = []
  ∧ rooms_get roomId (rooms (run s (replicate (S n) (ReadyNextRound sock roomId))).1)
    = Some (set_readySet room {[sock]})
  ∧ (∀ roomId', rooms_get roomId' (rooms s) = None →
       ready_next_round sock roomId' s = (s, [])).
Proof.
  intros Hr Hsub. split; [|split].
  - revert s room Hr Hsub. induction n as [|n IH]; intros s room Hr Hsub.
    + simpl. by rewrite (ready_alone_step _ _ _ _ Hr Hsub).
    + change (replicate (S (S n)) (ReadyNextRound sock roomId))
        with (ReadyNextRound sock roomId :: replicate (S n) (ReadyNextRound sock roomId)).
      cbn [run step]. rewrite (ready_alone_step _ _ _ _ Hr Hsub).
      specialize (IH (set_rooms s (rooms_set roomId (set_readySet room {[sock]}) (rooms s)))
                     (set_readySet room {[sock]})).
      destruct (run _ (replicate (S n) _)) as [s2 out2]. simpl in *.
      apply IH; [apply rooms_get_set_eq|done].
  - revert s room Hr Hsub. induction n as [|n IH]; intros s room Hr Hsub.
    + simpl. rewrite (ready_alone_step _ _ _ _ Hr Hsub). cbn [fst rooms set_rooms].
      apply rooms_get_set_eq.
    + change (replicate (S (S n)) (ReadyNextRound sock roomId))
        with (ReadyNextRound sock roomId :: replicate (S n) (ReadyNextRound sock roomId)).
      rewrite run_cons. cbn [step]. rewrite (ready_alone_step _ _ _ _ Hr Hsub). cbn [fst].
      rewrite (IH _ (set_readySet room {[sock]})); [done|apply rooms_get_set_eq|done].
  - intros roomId' Hnone. unfold ready_next_round. by rewrite Hnone.
Qed.

Lemma ready_alone_never_advances_witness :
  let s := (run init [CreateRoom "s1" "A" "p1" "0.4fzyo82mvyr";
                      JoinRoom "s2" "B" "p2" "4FZYO8"]).1 in
  (run s (replicate 3 (ReadyNextRound "s1" "4FZYO8"))).2 = []
  ∧ rooms_get "4FZYO8" (rooms (run s (replicate 3 (ReadyNextRound "s1" "4FZYO8"))).1)
    = Some (mkRoom [mkSeat (Some "s1") "p1" "A" X 0; mkSeat (Some "s2") "p2" "B" O 0]
                   (replicate 9 None) X 1 {["s1"]} None).
Proof.
  intros s.
  destruct (ready_alone_never_advances "s1" "4FZYO8" 2 s
              (mkRoom [mkSeat (Some "s1") "p1" "A" X 0; mkSeat (Some "s2") "p2" "B" O 0]
                      (replicate 9 None) X 1 ∅ None)) as (Hout & Hroom & _).
  - reflexivity.
  - apply empty_subseteq.
  - split; [exact Hout|exact Hroom].
Defined.

(** ** Properties of every room of a reachable state *)

Section RoomInvariant.

Variable P : Room → Prop.

Hypothesis P_fresh : ∀ sock pid nick, P (fresh_room sock pid nick).
Hypothesis P_join : ∀ room sock pid nick,
  P room → P (set_players room (players room ++ [mkSeat (Some sock) pid nick O 0])).
Hypothesis P_reseated : ∀ room sock pid, P room → P (reseated sock pid room).
Hypothesis P_move : ∀ room player i,
  P room → player ∈ players room → board room !! i = Some None →
  symbol player = currentTurn room → P (room_after_move room player i).
Hypothesis P_ready : ∀ room rs, P room → P (set_readySet room rs).
Hypothesis P_next : ∀ room, P room → P (next_round room).
Hypothesis P_reset : ∀ room,
  P room → P (set_players room (map (λ p, set_points p 0) (players room))).
Hypothesis P_offline : ∀ room sock, P room → P (offline sock room).
Hypothesis P_timer : ∀ room t, P room → P (set_cleanupTimer room t).

Lemma transition_room_invariant s e s' :
  transition s e s' →
  (∀ roomId room, rooms_get roomId (rooms s) = Some room → P room) →
  ∀ roomId room, rooms_get roomId (rooms s') = Some room → P room.
Proof using All.
  intros Ht Hall roomId0 room0.
  destruct Ht as [s e|s sock nick pid rnd Hn Hp|s sock nick pid roomId room Hget Hlen
                 |s sock roomId pid room player Hget Hfind
                 |s sock roomId q room player i Hget Hfind Hi Hc Hturn
                 |s sock roomId room Hget Hsz|s sock roomId room Hget Hsz
                 |s sock roomId room Hget
                 |s sock roomId room player Hget Hfind Hcount
                 |s sock roomId room player Hget Hfind Hcount Htimer
                 |s t roomId Ht Hget|s t roomId room Ht Hget Hcount
                 |s t roomId room Ht Hget Hcount]; fields;
    try rewrite rooms_get_set; try rewrite rooms_get_delete;
    try (destruct (decide _) as [<-|]); try (by eauto); intros [= <-]; eauto.
  apply P_move; eauto. by apply find_Some_elem in Hfind as [? _].
Qed.

Lemma reachable_room_invariant s :
  reachable s → ∀ roomId room, rooms_get roomId (rooms s) = Some room → P room.
Proof using All.
  revert s.
  apply (reachable_by_invariant (λ _ _, True)
           (λ s, ∀ roomId room, rooms_get roomId (rooms s) = Some room → P room)); [done|].
  intros s e Hreach Hall _. eapply transition_room_invariant; [|done].
  apply step_transition. by apply reachable_state_ok in Hreach as [? _].
Qed.

End RoomInvariant.

(** ** Alternation of the marks *)

Lemma count_mark_replicate m n : count_mark m (replicate n None) = 0%nat.
Proof. unfold count_mark. induction n as [|n IH]; simpl; [done|apply IH]. Qed.

Lemma count_mark_insert b i m m' :
  b !! i = Some None →
  count_mark m' (<[i := Some m]> b)
  = if decide (m' = m) then S (count_mark m' b) else count_mark m' b.
Proof.
  unfold count_mark, cell in *. revert i. induction b as [|c b IH]; intros i Hi; [done|].
  destruct i as [|i]; simpl in Hi.
  - injection Hi as ->. simpl.
    destruct (decide (m' = m)) as [->|Hne].
    + by rewrite bool_decide_eq_true_2.
    + rewrite bool_decide_eq_false_2 by congruence. done.
  - specialize (IH _ Hi). simpl in *.
    case_bool_decide; cbn [length]; rewrite IH; by destruct (decide (m' = m)).
Qed.

Lemma turn_consistent_after_move room player i :
  turn_consistent room → board room !! i = Some None → symbol player = currentTurn room →
  turn_consistent (room_after_move room player i).
Proof.
  unfold turn_consistent. intros Hc Hi Hturn.
  rewrite room_after_move_board, room_after_move_turn, room_after_move_round.
  rewrite !(count_mark_insert _ _ _ _ Hi), Hturn.
  destruct (starter (round room)), (currentTurn room); simpl in *;
    repeat case_bool_decide; repeat case_decide; simplify_eq; lia.
Qed.

Lemma turn_consistent_room s roomId room :
  reachable s → rooms_get roomId (rooms s) = Some room → turn_consistent room.
Proof.
  intros Hreach. revert roomId room.
  apply (reachable_room_invariant turn_consistent); try done.
  - intros room player i Hc _ Hi Hturn. by apply turn_consistent_after_move.
  - intros room _. unfold turn_consistent, next_round. fields.
    fold (starter (round room + 1)). rewrite bool_decide_eq_true_2 by done.
    by rewrite !count_mark_replicate.
Qed.

(** X9. In every room of a reachable state the marks on the board are
    those of alternating moves opened by the starter of the round ([X] in
    odd rounds, [O] in even ones): when the starter has the turn, both
    marks occupy the same number of cells; when the other mark has it, the
    starter occupies one cell more. *)
Theorem marks_alternate (s : State) (roomId : string) (room : Room) :
  reachable s → rooms_get roomId (rooms s) = Some room →
  (starter (round room) = X ↔ Z.odd (round room) = true)
  ∧ (currentTurn room = starter (round room) →
       count_mark (starter (round room)) (board room)
       = count_mark (other (starter (round room))) (board room))
  ∧ (currentTurn room = other (starter (round room)) →
       count_mark (starter (round room)) (board room)
       = S (count_mark (other (starter (round room))) (board room))).
Proof.
  intros Hreach Hr. pose proof (turn_consistent_room _ _ _ Hreach Hr) as Hc.
  destruct (reachable_state_ok _ _ Hreach) as (_ & Hrooms & _).
  destruct (Hrooms _ _ Hr) as ((_ & _ & Hround & _) & _).
  unfold turn_consistent in Hc. split; [|split].
  - unfold starter. rewrite rem_2_odd by lia. by destruct (Z.odd (round room)).
  - intros Heq. by rewrite bool_decide_eq_true_2 in Hc.
  - intros Heq. rewrite bool_decide_eq_false_2 in Hc; [done|].
    rewrite Heq. by destruct (starter (round room)).
Qed.

Lemma marks_alternate_witness :
  let s := (run init [CreateRoom "s1" "A" "p1" "0.4fzyo82mvyr";
                      JoinRoom "s2" "B" "p2" "4FZYO8";
                      MakeMove "s1" "4FZYO8" (JNum (inject_Z 4));
                      MakeMove "s2" "4FZYO8" (JNum (inject_Z 0));
                      MakeMove "s1" "4FZYO8" (JNum (inject_Z 8))]).1 in
  let b := [Some O; None; None; None; Some X; None; None; None; Some X] in
  count_mark X b = S (count_mark O b).
Proof.
  intros s b.
  destruct (marks_alternate s "4FZYO8"
              (mkRoom [mkSeat (Some "s1") "p1" "A" X 0; mkSeat (Some "s2") "p2" "B" O 0]
                      b O 1 ∅ None) (reachable_run _) eq_refl) as (_ & _ & Hother).
  by apply Hother.
Defined.

(** ** Points *)

Lemma Forall_update_first {A} (Q : A → Prop) f g (l : list A) :
  Forall Q l → (∀ x, Q x → Q (g x)) → Forall Q (update_first f g l).
Proof.
  intros Hl Hg. induction Hl as [|x l Hx Hl IH]; simpl; [done|].
  destruct (f x); constructor; auto.
Qed.

(** X10. In every room of a reachable state the points of every seat are
    0 or more. *)
Theorem points_never_negative (s : State) (roomId : string) (room : Room) :
  reachable s → rooms_get roomId (rooms s) = Some room →
  ∀ p, p ∈ players room → 0 ≤ points p.
Proof.
  intros Hreach Hr.
  assert (Forall (λ p, 0 ≤ points p) (players room)) as Hall.
  { revert roomId room Hr.
    apply (reachable_room_invariant (λ r, Forall (λ p, 0 ≤ points p) (players r)));
      try done.
    - intros sock pid nick. by repeat constructor.
    - intros room sock pid nick H. fields. apply Forall_app. split; [done|].
      by repeat constructor.
    - intros room sock pid H. unfold reseated. fields. by apply Forall_update_first.
    - intros room player i H _ _ _. unfold room_after_move.
      destruct (round_over _); fields; [|done].
      destruct (checkWinner _).1; simpl; [|done].
      apply Forall_update_first; [done|]. intros x Hx. simpl. lia.
    - intros room H. fields. apply Forall_fmap. by apply Forall_true.
    - intros room sock H. unfold offline. fields. by apply Forall_update_first. }
  intros p Hp. by apply (proj1 (Forall_forall _ _) Hall).
Qed.

Lemma points_never_negative_witness :
  let s := (run init [CreateRoom "s1" "A" "p1" "0.4fzyo82mvyr";
                      JoinRoom "s2" "B" "p2" "4FZYO8"]).1 in
  0 ≤ points (mkSeat (Some "s2") "p2" "B" O 0).
Proof.
  intros s.
  apply (points_never_negative s "4FZYO8"
           (mkRoom [mkSeat (Some "s1") "p1" "A" X 0; mkSeat (Some "s2") "p2" "B" O 0]
                   (replicate 9 None) X 1 ∅ None) (reachable_run _) eq_refl).
  apply list_elem_of_further, list_elem_of_here.
Defined.

(** ** What a room never loses *)

Lemma award_identities w ps : map seat_identity (award w ps) = map seat_identity ps.
Proof. destruct w; simpl; [|done]. by apply update_first_map. Qed.

Lemma transition_keeps s e s' roomId room room' :
  transition s e s' →
  rooms_get roomId (rooms s) = Some room → rooms_get roomId (rooms s') = Some room' →
  (∃ sock nick pid rnd, e = CreateRoom sock nick pid rnd ∧ generateRoomId rnd = roomId)
  ∨ ((∃ extra, map seat_identity (players room')
               = map seat_identity (players room) ++ extra)
     ∧ ((∃ sock, e = ReadyNextRound sock roomId)
        ∨ ∀ i m, board room !! i = Some (Some m) → board room' !! i = Some (Some m))).
Proof.
  intros Ht Hr Hr'.
  destruct Ht as [s e|s sock nick pid rnd Hn Hp|s sock nick pid roomId0 room0 Hget Hlen
                 |s sock roomId0 pid room0 player Hget Hfind
                 |s sock roomId0 q room0 player i0 Hget Hfind Hi Hc Hturn
                 |s sock roomId0 room0 Hget Hsz|s sock roomId0 room0 Hget Hsz
                 |s sock roomId0 room0 Hget
                 |s sock roomId0 room0 player Hget Hfind Hcount
                 |s sock roomId0 room0 player Hget Hfind Hcount Htimer
                 |s t roomId0 Ht Hget|s t roomId0 room0 Ht Hget Hcount
                 |s t roomId0 room0 Ht Hget Hcount]; fields;
    try rewrite rooms_get_set in Hr'; try rewrite rooms_get_delete in Hr';
    try (destruct (decide _) as [->|]); simplify_eq; fields;
    try (right; split; [exists []; by rewrite app_nil_r|by right]);
    try (left; by eauto 10).
  - destruct (decide (generateRoomId rnd = roomId)) as [Heq|Hne]; [left; by eauto 10|].
    simplify_eq. right. split; [exists []; by rewrite app_nil_r|by right].
  - right. split; [|by right]. eexists. by rewrite map_app.
  - right. split; [|by right]. exists []. rewrite app_nil_r. unfold reseated. fields.
    by apply update_first_map.
  - right. split.
    + exists []. rewrite app_nil_r. unfold room_after_move.
      destruct (round_over _); fields; [apply award_identities|done].
    + right. intros i m Him. rewrite room_after_move_board.
      rewrite list_lookup_insert_ne; [done|]. intros ->. congruence.
  - right. split; [exists []; by rewrite app_nil_r|]. left. eauto.
  - right. split; [|by right]. exists []. by rewrite app_nil_r, map_map.
  - right. split; [|by right]. exists []. rewrite app_nil_r. unfold offline. fields.
    by apply update_first_map.
  - right. split; [|by right]. exists []. rewrite app_nil_r. unfold offline. fields.
    by apply update_first_map.
Qed.

(** X11. Across any event, a room that is in the store before and after
    keeps its seats: their [playerId]s, nicknames and marks, in order, are
    still there (a join adds one after them), and only a creation that
    takes the room's id puts another room in its place. *)
Theorem seats_never_removed (s : State) (e : event) (roomId : string) (room room' : Room) :
  wf_store (rooms s) →
  rooms_get roomId (rooms s) = Some room →
  rooms_get roomId (rooms (step s e).1) = Some room' →
  (∃ sock nick pid rnd, e = CreateRoom sock nick pid rnd ∧ generateRoomId rnd = roomId)
  ∨ ∃ extra, map seat_identity (players room') = map seat_identity (players room) ++ extra.
Proof.
  intros Hwf Hr Hr'.
  destruct (transition_keeps _ _ _ _ _ _ (step_transition s e Hwf) Hr Hr') as [?|[? _]];
    [by left|by right].
Qed.

Lemma seats_never_removed_witness :
  let s := (run init [CreateRoom "s1" "A" "p1" "0.4fzyo82mvyr";
                      JoinRoom "s2" "B" "p2" "4FZYO8"]).1 in
  let room := mkRoom [mkSeat (Some "s1") "p1" "A" X 0; mkSeat (Some "s2") "p2" "B" O 0]
                     (replicate 9 None) X 1 ∅ None in
  let room' := mkRoom [mkSeat None "p1" "A" X 0; mkSeat (Some "s2") "p2" "B" O 0]
                      (replicate 9 None) X 1 ∅ None in
  (∃ sock nick pid rnd,
     Disconnect "s1" = CreateRoom sock nick pid rnd ∧ generateRoomId rnd = "4FZYO8")
  ∨ ∃ extra, map seat_identity (players room') = map seat_identity (players room) ++ extra.
Proof.
  intros s room room'.
  apply (seats_never_removed s (Disconnect "s1") "4FZYO8" room room');
    [unfold wf_store; by_computing|reflexivity|reflexivity].
Defined.

(** X12. Across any event other than a [ready-next-round] for the room or
    a creation that takes its id, a room that is in the store before and
    after keeps every mark of its board in its cell: no occupied cell is
    written again. *)
Theorem cell_never_overwritten
    (s : State) (e : event) (roomId : string) (room room' : Room) (i : nat) (m : mark) :
  wf_store (rooms s) →
  rooms_get roomId (rooms s) = Some room →
  rooms_get roomId (rooms (step s e).1) = Some room' →
  board room !! i = Some (Some m) →
  board room' !! i = Some (Some m)
  ∨ (∃ sock, e = ReadyNextRound sock roomId)
  ∨ (∃ sock nick pid rnd, e = CreateRoom sock nick pid rnd ∧ generateRoomId rnd = roomId).
Proof.
  intros Hwf Hr Hr' Hi.
  destruct (transition_keeps _ _ _ _ _ _ (step_transition s e Hwf) Hr Hr')
    as [?|[_ [?|Hkeep]]]; [by right; right|by right; left|left; by apply Hkeep].
Qed.

Lemma cell_never_overwritten_witness :
  let s := (run init [CreateRoom "s1" "A" "p1" "0.4fzyo82mvyr";
                      JoinRoom "s2" "B" "p2" "4FZYO8";
                      MakeMove "s1" "4FZYO8" (JNum (inject_Z 4))]).1 in
  let e := MakeMove "s2" "4FZYO8" (JNum (inject_Z 4)) in
  ∃ room', rooms_get "4FZYO8" (rooms (step s e).1) = Some room'
           ∧ board room' !! 4%nat = Some (Some X).
Proof.
  intros s e.
  set (room := mkRoom [mkSeat (Some "s1") "p1" "A" X 0; mkSeat (Some "s2") "p2" "B" O 0]
                      [None; None; None; None; Some X; None; None; None; None] O 1 ∅ None).
  exists room. split; [reflexivity|].
  destruct (cell_never_overwritten s e "4FZYO8" room room 4 X)
    as [Hkept|[[sock Hready]|(sock & nick & pid & rnd & Hcreate & _)]];
    [unfold wf_store; by_computing|reflexivity|reflexivity|reflexivity| | |].
  - exact Hkept.
  - discriminate Hready.
  - discriminate Hcreate.
Defined.

(** ** Who wins *)

Lemma three_equal_insert b i m l m' :
  b !! i = Some None → three_equal (<[i := Some m]> b) l m' →
  three_equal b l m' ∨ (m' = m ∧ on_line i l).
Proof.
  intros Hi (H1 & H2 & H3). unfold three_equal, on_line.
  assert (i < length b)%nat as Hlt by (by eapply lookup_lt_Some).
  destruct (decide (l.1.1 = i)) as [E1|N1].
  { right. rewrite E1, list_lookup_insert_eq in H1 by done. split; [congruence|by left]. }
  destruct (decide (l.1.2 = i)) as [E2|N2].
  { right. rewrite E2, list_lookup_insert_eq in H2 by done.
    split; [congruence|by right; left]. }
  destruct (decide (l.2 = i)) as [E3|N3].
  { right. rewrite E3, list_lookup_insert_eq in H3 by done.
    split; [congruence|by right; right]. }
  left. rewrite !list_lookup_insert_ne in H1, H2, H3 by done. done.
Qed.

(** X13. When no line of the board is complete, a move that is accepted
    can only make its own player win: if the win detector reports a winner
    on the board the move leaves, the winner is the mark that had the turn,
    the line reported is one of the 8 lines, it holds three such marks, and
    it goes through the cell just played. *)
Theorem winner_is_mover
    (sock roomId : string) (q : Q) (s : State) (room room' : Room) (i : nat)
    (w : mark) (l : nat * nat * nat) :
  rooms_get roomId (rooms s) = Some room →
  accepted sock roomId (JNum q) s →
  array_index q = Some i →
  (∀ l0 m, l0 ∈ wins → ¬ three_equal (board room) l0 m) →
  rooms_get roomId (rooms (make_move sock roomId (JNum q) s).1) = Some room' →
  checkWinner (board room') = (Some w, Some l) →
  w = currentTurn room ∧ l ∈ wins ∧ three_equal (board room') l w ∧ on_line i l.
Proof.
  intros Hr Hacc Hi Hopen Hr' Hw. apply accepted_iff_legal in Hacc.
  destruct (make_move_cases sock roomId (JNum q) s)
    as [[Hn _]|(room0 & player & q0 & i0 & Hr0 & Hf & Hq & _ & _ & Hi0 & Hc & Ht & Hm)];
    [done|].
  simplify_eq. rewrite Hm in Hr'. cbn [fst rooms set_rooms] in Hr'.
  rewrite rooms_get_set_eq in Hr'. injection Hr' as <-.
  rewrite room_after_move_board in *.
  unfold checkWinner in Hw.
  apply scan_wins_result in Hw as [(? & _)|(m' & l' & ? & ? & Hin & Hl)]; [done|].
  simplify_eq.
  destruct (three_equal_insert _ _ _ _ _ Hc Hl) as [Hold|[-> Hon]].
  - by destruct (Hopen l' m').
  - done.
Qed.

Lemma winner_is_mover_witness :
  let s := (run init [CreateRoom "s1" "A" "p1" "0.4fzyo82mvyr";
                      JoinRoom "s2" "B" "p2" "4FZYO8";
                      MakeMove "s1" "4FZYO8" (JNum (inject_Z 0));
                      MakeMove "s2" "4FZYO8" (JNum (inject_Z 3));
                      MakeMove "s1" "4FZYO8" (JNum (inject_Z 1));
                      MakeMove "s2" "4FZYO8" (JNum (inject_Z 4))]).1 in
  let room' := mkRoom [mkSeat (Some "s1") "p1" "A" X 1; mkSeat (Some "s2") "p2" "B" O 0]
                      [Some X; Some X; Some X; Some O; Some O; None; None; None; None]
                      O 1 ∅ None in
  X = X ∧ (0, 1, 2)%nat ∈ wins ∧ three_equal (board room') (0, 1, 2)%nat X
  ∧ on_line 2 (0, 1, 2)%nat.
Proof.
  intros s room'.
  set (room := mkRoom [mkSeat (Some "s1") "p1" "A" X 0; mkSeat (Some "s2") "p2" "B" O 0]
                      [Some X; Some X; None; Some O; Some O; None; None; None; None]
                      X 1 ∅ None).
  apply (winner_is_mover "s1" "4FZYO8" (inject_Z 2) s room room' 2 X (0, 1, 2)%nat).
  - reflexivity.
  - apply accepted_iff_legal. exists room, (mkSeat (Some "s1") "p1" "A" X 0), (inject_Z 2).
    repeat (split; [reflexivity|]). split; [unfold Qle; simpl; lia|].
    split; [unfold Qle; simpl; lia|]. split; reflexivity.
  - reflexivity.
  - intros l0 m Hin Hl. apply line_complete_Some in Hl. revert Hl.
    repeat (apply elem_of_cons in Hin as [->|Hin]; [by destruct m|]).
    by apply elem_of_nil in Hin.
  - reflexivity.
  - reflexivity.
Defined.

(** ** A join while a cleanup is pending *)

Lemma active_after_join room sock pid nick :
  sock ≠ "" →
  activePlayersCount (set_players room (players room ++ [mkSeat (Some sock) pid nick O 0]))
  ≠ 0%nat.
Proof.
  intros Hne. unfold activePlayersCount. fields. rewrite List.filter_app, length_app. simpl.
  unfold falsy. rewrite bool_decide_eq_false_2 by done. simpl. lia.
Qed.

(** X14. [join-room] does not clear the cleanup timeout of the room: a
    timeout that was pending for the room still is after a successful join.
    When that timeout expires next, the room stays in the store with both
    seats (the socket id of the joiner being non-empty), its board, round
    and turn, and records no timeout any more. *)
Theorem join_keeps_timeout_pending
    (sock nick pid roomId : string) (s : State) (room : Room) (t : nat) :
  rooms_get roomId (rooms s) = Some room → (length (players room) < 2)%nat →
  nick ≠ "" → pid ≠ "" → sock ≠ "" →
  timers s !! t = Some roomId →
  timers (join_room sock nick pid roomId s).1 !! t = Some roomId
  ∧ ∃ room',
      rooms_get roomId (rooms (timer_fire t (join_room sock nick pid roomId s).1).1)
      = Some room'
      ∧ players room' = players room ++ [mkSeat (Some sock) pid nick O 0]
      ∧ board room' = board room ∧ round room' = round room
      ∧ currentTurn room' = currentTurn room
      ∧ cleanupTimer room' = None
      ∧ timers (timer_fire t (join_room sock nick pid roomId s).1).1 !! t = None.
Proof.
  intros Hr Hlen Hn Hp Hs Ht. unfold join_room. rewrite Hr.
  assert (falsy nick || falsy pid = false) as ->
    by (unfold falsy; by rewrite !bool_decide_eq_false_2).
  apply Nat.leb_gt in Hlen. rewrite Hlen. cbn [fst timers set_rooms].
  split; [done|].
  unfold timer_fire. cbn [timers rooms set_rooms]. rewrite Ht, rooms_get_set_eq.
  rewrite bool_decide_eq_false_2 by by apply active_after_join.
  cbn [fst rooms timers]. rewrite rooms_get_set_eq.
  eexists. split; [reflexivity|]. fields. repeat (split; [done|]).
  rewrite clearTimeout_lookup. destruct (decide _); [done|apply lookup_delete_eq].
Qed.

Lemma join_keeps_timeout_pending_witness :
  let s := (run init [CreateRoom "s1" "A" "p1" "0.4fzyo82mvyr"; Disconnect "s1"]).1 in
  timers (join_room "s2" "B" "p2" "4FZYO8" s).1 !! 0%nat = Some "4FZYO8"
  ∧ ∃ room',
      rooms_get "4FZYO8" (rooms (timer_fire 0 (join_room "s2" "B" "p2" "4FZYO8" s).1).1)
      = Some room'
      ∧ players room' = [mkSeat None "p1" "A" X 0; mkSeat (Some "s2") "p2" "B" O 0]
      ∧ cleanupTimer room' = None.
Proof.
  intros s.
  destruct (join_keeps_timeout_pending "s2" "B" "p2" "4FZYO8" s
              (mkRoom [mkSeat None "p1" "A" X 0] (replicate 9 None) X 1 ∅ (Some 0%nat)) 0)
    as (Hpending & room' & Hr' & Hplayers & _ & _ & _ & Htimer & _);
    [reflexivity|simpl; lia|done|done|done|reflexivity|].
  split; [exact Hpending|]. exists room'. split; [exact Hr'|].
  split; [exact Hplayers|exact Htimer].
Defined.

(** ** Disconnect, then rejoin *)

Lemma disconnect_rooms sock s pre roomId room post player :
  wf_store (rooms s) →
  rooms s = pre ++ (roomId, room) :: post →
  (∀ kv p, kv ∈ pre → p ∈ players kv.2 → id p ≠ Some sock) →
  List.find (is_socket sock) (players room) = Some player →
  ∃ room1,
    rooms (disconnect sock s).1 = pre ++ (roomId, room1) :: post
    ∧ (room1 = offline sock room
       ∨ room1 = set_cleanupTimer (offline sock room) (Some (nextTimer s)))
    ∧ (disconnect sock s).2
      = [Emit roomId (PlayerLeft (playerId player) (nickname player) (symbol player))].
Proof.
  intros Hwf Hs Hpre Hf.
  assert (∀ kv, kv ∈ pre → List.find (is_socket sock) (players kv.2) = None) as Hpre'.
  { intros kv Hkv. apply find_None_elem. intros x Hx. apply bool_decide_eq_false.
    by apply (Hpre kv). }
  assert (roomId ∉ pre.*1) as Hnin by (rewrite Hs in Hwf; by eapply wf_store_middle).
  unfold disconnect. rewrite Hs, (mark_offline_middle _ _ _ _ _ _ Hpre' Hf).
  destruct (bool_decide (activePlayersCount (offline sock room) = 0%nat)).
  - unfold scheduleRoomCleanup. cbn [fst snd rooms set_rooms].
    rewrite rooms_get_middle by done.
    destruct (cleanupTimer (offline sock room)).
    + exists (offline sock room). split; [done|]. split; [by left|done].
    + exists (set_cleanupTimer (offline sock room) (Some (nextTimer s))).
      cbn [fst snd rooms timers nextTimer]. rewrite rooms_set_middle by done.
      split; [done|]. split; [by right|done].
  - exists (offline sock room). split; [done|]. split; [by left|done].
Qed.

Lemma update_first_by_key {A B} `{EqDecision B} (h : A → B) g (l : list A) i x :
  NoDup (map h l) → l !! i = Some x →
  List.find (λ p, bool_decide (h p = h x)) l = Some x
  ∧ update_first (λ p, bool_decide (h p = h x)) g l = <[i := g x]> l.
Proof.
  intros Hnd Hi.
  destruct (List.find (λ p, bool_decide (h p = h x)) l) as [y|] eqn:Hf.
  2:{ rewrite find_None_elem in Hf.
      assert (x ∈ l) as Hx by (apply list_elem_of_lookup; eauto).
      apply Hf in Hx. by apply bool_decide_eq_false in Hx. }
  destruct (update_first_Some _ g _ _ Hf) as (j & Hj & Hy & _ & Hupd).
  apply bool_decide_eq_true in Hy.
  assert (i = j) as <-.
  { eapply (NoDup_lookup (map h l)); [done| |].
    - rewrite list_lookup_fmap, Hi. done.
    - rewrite list_lookup_fmap, Hj. simpl. by rewrite Hy. }
  simplify_eq. done.
Qed.

(** X15. Take the room the disconnect of a socket acts on: the first room,
    in the order of the store, that has a seat of the socket.  When the
    seats of that room have distinct [playerId]s, the disconnect followed
    by a rejoin of the same player to that room on the same socket gives
    the room back: every room of the store is at its place and as it was
    before the disconnect, except that the room records no cleanup
    timeout. *)
Theorem disconnect_then_rejoin
    (sock : string) (s : State) (pre : store) (roomId : string) (room : Room)
    (post : store) (player : Seat) :
  wf_store (rooms s) →
  rooms s = pre ++ (roomId, room) :: post →
  (∀ kv p, kv ∈ pre → p ∈ players kv.2 → id p ≠ Some sock) →
  List.find (is_socket sock) (players room) = Some player →
  NoDup (map playerId (players room)) →
  rooms (rejoin_room sock roomId (playerId player) (disconnect sock s).1).1
  = pre ++ (roomId, set_cleanupTimer room None) :: post.
Proof.
  intros Hwf Hs Hpre Hf Hnd.
  destruct (disconnect_rooms _ _ _ _ _ _ _ Hwf Hs Hpre Hf) as (room1 & Hs1 & Hroom1 & _).
  assert (roomId ∉ pre.*1) as Hnin by (rewrite Hs in Hwf; by eapply wf_store_middle).
  destruct (update_first_Some _ (λ p, set_id p None) _ _ Hf) as (i & Hi & Hm & _ & Hupd).
  apply bool_decide_eq_true in Hm.
  assert (i < length (players room))%nat as Hlt by (by eapply lookup_lt_Some).
  assert (players room1 = <[i := set_id player None]> (players room)) as Hp1.
  { destruct Hroom1 as [-> | ->]; unfold offline; fields; done. }
  assert (NoDup (map playerId (players room1))) as Hnd1.
  { rewrite Hp1, <- Hupd. by rewrite update_first_map. }
  assert (players room1 !! i = Some (set_id player None)) as Hi1.
  { rewrite Hp1. by apply list_lookup_insert_eq. }
  destruct (update_first_by_key playerId (λ p, set_id p (Some sock)) _ _ _ Hnd1 Hi1)
    as (Hf1 & Hupd1).
  cbn [playerId set_id] in Hf1, Hupd1.
  assert (rooms_get roomId (rooms (disconnect sock s).1) = Some room1) as Hr1.
  { rewrite Hs1. by apply rooms_get_middle. }
  rewrite (rejoin_room_found _ _ _ _ _ _ Hr1 Hf1). cbn [fst rooms].
  rewrite Hs1, rooms_set_middle by done. do 3 f_equal.
  unfold reseated. rewrite Hupd1, Hp1, list_insert_insert_eq.
  assert (set_id (set_id player None) (Some sock) = player) as ->.
  { destruct player as [? ? ? ? ?]. simpl in Hm. by subst. }
  rewrite list_insert_id by done.
  destruct Hroom1 as [-> | ->]; by destruct room.
Qed.

Lemma disconnect_then_rejoin_witness :
  let s := (run init [CreateRoom "s1" "A" "p1" "0.4fzyo82mvyr";
                      JoinRoom "s2" "B" "p2" "4FZYO8";
                      MakeMove "s1" "4FZYO8" (JNum (inject_Z 4))]).1 in
  rooms (rejoin_room "s2" "4FZYO8" "p2" (disconnect "s2" s).1).1 = rooms s.
Proof.
  intros s.
  apply (disconnect_then_rejoin "s2" s [] "4FZYO8"
           (mkRoom [mkSeat (Some "s1") "p1" "A" X 0; mkSeat (Some "s2") "p2" "B" O 0]
                   [None; None; None; None; Some X; None; None; None; None] O 1 ∅ None)
           [] (mkSeat (Some "s2") "p2" "B" O 0)).
  - unfold wf_store. by_computing.
  - reflexivity.
  - intros kv p Hkv. by apply elem_of_nil in Hkv.
  - reflexivity.
  - by_computing.
Defined.

(** ** The characters of a room id *)

Lemma upper_ascii_not_lower c : is_lower (upper_ascii c) = false.
Proof. destruct c as [[] [] [] [] [] [] [] []]; reflexivity. Qed.

Lemma upper_ascii_idem c : upper_ascii (upper_ascii c) = upper_ascii c.
Proof. destruct c as [[] [] [] [] [] [] [] []]; reflexivity. Qed.

Lemma get_toUpperCase k s :
  String.get k (toUpperCase s) = option_map upper_ascii (String.get k s).
Proof.
  revert k. induction s as [|c s IH]; intros k; [done|].
  destruct k as [|k]; simpl; [done|apply IH].
Qed.

Lemma get_substring n m s k :
  String.get k (String.substring n m s)
  = if (k <? m)%nat then String.get (n + k) s else None.
Proof.
  revert n m k. induction s as [|c s IH]; intros n m k.
  - destruct n, m; simpl; repeat case_match; done.
  - destruct n as [|n].
    + destruct m as [|m]; [done|]. destruct k as [|k]; [done|].
      cbn [String.substring String.get]. rewrite IH. done.
    + cbn [String.substring]. rewrite IH. done.
Qed.

(** X16. Whatever the random draw, the room id has no lower-case letter
    and upper-casing it again gives the same id; its character at position
    [k] below 6 is the upper-case form of the character at position
    [2 + k] of the rendering of the draw, and it has no character from
    position 6 on. *)
Theorem generateRoomId_characters (rnd : string) :
  string_forall (λ c, negb (is_lower c)) (generateRoomId rnd) = true
  ∧ toUpperCase (generateRoomId rnd) = generateRoomId rnd
  ∧ (∀ k, (k < 6)%nat →
       String.get k (generateRoomId rnd) = option_map upper_ascii (String.get (2 + k) rnd))
  ∧ (∀ k, (6 <= k)%nat → String.get k (generateRoomId rnd) = None).
Proof.
  unfold generateRoomId, slice. split; [|split; [|split]].
  - induction (String.substring 2 (8 - 2) rnd) as [|c s IH]; simpl; [done|].
    by rewrite upper_ascii_not_lower, IH.
  - induction (String.substring 2 (8 - 2) rnd) as [|c s IH]; simpl; [done|].
    by rewrite upper_ascii_idem, IH.
  - intros k Hk. rewrite get_toUpperCase, get_substring.
    apply Nat.ltb_lt in Hk. change (8 - 2)%nat with 6%nat. by rewrite Hk.
  - intros k Hk. rewrite get_toUpperCase, get_substring.
    apply Nat.ltb_ge in Hk. change (8 - 2)%nat with 6%nat. by rewrite Hk.
Qed.

(** ** Shape of the reachable states *)

(** X17. In every reachable state the store has one room per id, and every
    room has a board of 9 cells, a round of 1 or more, at most one id in
    its ready set (the set is emptied as soon as it holds two), only marks
    of its own seats on the board, and, when it records a cleanup timeout,
    that timeout pending under the room's id with a handle below the next
    handle. *)
Theorem reachable_invariants (s : State) :
  reachable s →
  NoDup (rooms s).*1
  ∧ ∀ roomId room, rooms_get roomId (rooms s) = Some room →
      length (board room) = 9%nat
      ∧ 1 ≤ round room
      ∧ (size (readySet room) <= 1)%nat
      ∧ (∀ i m, board room !! i = Some (Some m) → ∃ p, p ∈ players room ∧ symbol p = m)
      ∧ (∀ t, cleanupTimer room = Some t →
              timers s !! t = Some roomId ∧ (t < nextTimer s)%nat).
Proof.
  intros Hreach. destruct (reachable_state_ok _ _ Hreach) as (Hwf & Hrooms & Hts).
  split; [done|]. intros roomId room Hr.
  destruct (Hrooms _ _ Hr) as ((_ & Hb & Hround & Hsz & Hmarks) & Htimer).
  repeat (split; [done|]). split.
  - intros i m Hi. apply Hmarks in Hi. apply list_elem_of_fmap in Hi as (p & -> & Hp). eauto.
  - intros t Ht. split; [by apply Htimer|]. eapply Hts. by apply Htimer.
Qed.

Lemma reachable_invariants_witness :
  let s := (run init [CreateRoom "s1" "A" "p1" "0.4fzyo82mvyr"; Disconnect "s1"]).1 in
  timers s !! 0%nat = Some "4FZYO8" ∧ (0 < nextTimer s)%nat.
Proof.
  intros s. destruct (reachable_invariants s (reachable_run _)) as (_ & Hrooms).
  destruct (Hrooms "4FZYO8"
              (mkRoom [mkSeat None "p1" "A" X 0] (replicate 9 None) X 1 ∅ (Some 0%nat))
              eq_refl) as (_ & _ & _ & _ & Htimer).
  exact (Htimer 0%nat eq_refl).
Defined.

(** ** One cell per move *)

Lemma count_empty_insert b i m :
  b !! i = Some None → S (count_empty (<[i := Some m]> b)) = count_empty b.
Proof.
  unfold count_empty, cell in *. revert i. induction b as [|c b IH]; intros i Hi; [done|].
  destruct i as [|i]; simpl in Hi.
  - injection Hi as ->. done.
  - specialize (IH _ Hi). simpl in *. case_bool_decide; cbn [length]; by rewrite <- IH.
Qed.

Lemma count_empty_lookup b i : b !! i = Some None → (0 < count_empty b)%nat.
Proof. intros Hi. rewrite <- (count_empty_insert b i X Hi). lia. Qed.

(** X18. An accepted move fills exactly one cell: the room it leaves has
    one empty cell less, one more cell with the mark that had the turn and
    as many cells with the other mark.  On a board without empty cell no
    move is accepted. *)
Theorem accepted_move_fills_one_cell (sock roomId : string) (index : jsval) (s : State) :
  (accepted sock roomId index s →
     ∃ room room',
       rooms_get roomId (rooms s) = Some room
       ∧ rooms_get roomId (rooms (make_move sock roomId index s).1) = Some room'
       ∧ S (count_empty (board room')) = count_empty (board room)
       ∧ count_mark (currentTurn room) (board room')
         = S (count_mark (currentTurn room) (board room))
       ∧ count_mark (other (currentTurn room)) (board room')
         = count_mark (other (currentTurn room)) (board room))
  ∧ (∀ room, rooms_get roomId (rooms s) = Some room → count_empty (board room) = 0%nat →
       ¬ accepted sock roomId index s).
Proof.
  pose proof (accepted_iff_legal sock roomId index s) as Hiff.
  destruct (make_move_cases sock roomId index s)
    as [[Hn _]|(room & player & q & i & Hr & Hf & -> & _ & _ & Hi & Hc & Ht & Hm)].
  { split; [by intros H%Hiff|]. by intros room _ _ H%Hiff. }
  split.
  - intros _. exists room, (room_after_move room player i).
    rewrite Hm. cbn [fst rooms set_rooms]. rewrite rooms_get_set_eq, room_after_move_board.
    split; [done|]. split; [done|]. split; [by apply count_empty_insert|].
    rewrite !(count_mark_insert _ _ _ _ Hc), <- Ht.
    rewrite decide_True by done. split; [done|].
    rewrite decide_False; [done|]. by destruct (symbol player).
  - intros room0 Hr0 Hfull _. simplify_eq.
    pose proof (count_empty_lookup _ _ Hc). lia.
Qed.

(** ** The socket a rejoin replaced *)

Lemma disconnect_no_seat sock s :
  (∀ kv p, kv ∈ rooms s → p ∈ players kv.2 → id p ≠ Some sock) →
  disconnect sock s = (s, []).
Proof.
  intros Hnone. unfold disconnect.
  destruct (mark_offline sock (rooms s)) as [[[[m roomId] room'] player]|] eqn:Hm; [|done].
  apply mark_offline_Some in Hm as (pre & room & post & Hs & _ & _ & Hf & _).
  apply find_Some_elem in Hf as [Hin Hid]. apply bool_decide_eq_true in Hid.
  destruct (Hnone (roomId, room) player); [|done..].
  rewrite Hs. apply elem_of_app. right. apply list_elem_of_here.
Qed.

Lemma elem_rooms_get m k v : (k, v) ∈ m → ∃ v', rooms_get k m = Some v'.
Proof.
  intros Hin. destruct (rooms_get k m) eqn:E; [by eauto|].
  apply rooms_get_None in E. destruct E. apply list_elem_of_fmap. by exists (k, v).
Qed.

(** X19. When a player rejoins on a new socket while the seat still
    carries the old one, the old socket has lost the seat: if it held no
    other seat in the store, its moves in the room are dropped and its
    disconnect, when it comes, changes nothing and sends no
    [player-left]. *)
Theorem replaced_socket_is_ignored
    (old new roomId : string) (s : State) (room : Room) (i : nat) (player : Seat)
    (index : jsval) :
  wf_store (rooms s) →
  rooms_get roomId (rooms s) = Some room →
  players room !! i = Some player →
  (∀ j p, (j < i)%nat → players room !! j = Some p → playerId p ≠ playerId player) →
  (∀ roomId' room' j p, rooms_get roomId' (rooms s) = Some room' →
     players room' !! j = Some p → id p = Some old → roomId' = roomId ∧ j = i) →
  old ≠ new →
  disconnect old (rejoin_room new roomId (playerId player) s).1
  = ((rejoin_room new roomId (playerId player) s).1, [])
  ∧ make_move old roomId index (rejoin_room new roomId (playerId player) s).1
    = ((rejoin_room new roomId (playerId player) s).1, []).
Proof.
  intros Hwf Hr Hi Hfirst Honly Hne.
  assert (List.find (λ p, bool_decide (playerId p = playerId player)) (players room)
          = Some player
          ∧ update_first (λ p, bool_decide (playerId p = playerId player))
                         (λ p, set_id p (Some new)) (players room)
            = <[i := set_id player (Some new)]> (players room)) as [Hf Hupd].
  { destruct (List.find (λ p, bool_decide (playerId p = playerId player)) (players room))
      as [y|] eqn:Hf.
    2:{ rewrite find_None_elem in Hf.
        assert (player ∈ players room) as Hx by (apply list_elem_of_lookup; eauto).
        apply Hf in Hx. by apply bool_decide_eq_false in Hx. }
    destruct (update_first_Some _ (λ p, set_id p (Some new)) _ _ Hf)
      as (j & Hj & Hy & Hbefore & Hupd).
    apply bool_decide_eq_true in Hy.
    destruct (Nat.lt_trichotomy i j) as [Hlt|[<-|Hgt]].
    - specialize (Hbefore _ _ Hlt Hi). by apply bool_decide_eq_false in Hbefore.
    - by simplify_eq.
    - by destruct (Hfirst _ _ Hgt Hj). }
  rewrite (rejoin_room_found _ _ _ _ _ _ Hr Hf).
  set (s1 := mkState (rooms_set roomId (reseated new (playerId player) room) (rooms s))
                     (clearTimeout (cleanupTimer room) (timers s)) (nextTimer s)).
  cbn [fst].
  assert (∀ roomId' room' p, rooms_get roomId' (rooms s1) = Some room' →
                             p ∈ players room' → id p ≠ Some old) as Hnone.
  { intros roomId' room' p Hr' Hp Hid. unfold s1 in Hr'. cbn [rooms] in Hr'.
    rewrite rooms_get_set in Hr'. destruct (decide (roomId = roomId')) as [<-|Hother].
    - injection Hr' as <-. unfold reseated in Hp. fields. rewrite Hupd in Hp.
      apply list_elem_of_lookup in Hp as [j Hj].
      destruct (decide (i = j)) as [<-|Hij].
      + rewrite list_lookup_insert_eq in Hj by (by eapply lookup_lt_Some).
        simplify_eq. simpl in Hid. congruence.
      + rewrite list_lookup_insert_ne in Hj by done.
        destruct (Honly _ _ _ _ Hr Hj Hid) as [_ ?]. congruence.
    - apply list_elem_of_lookup in Hp as [j Hj].
      destruct (Honly _ _ _ _ Hr' Hj Hid) as [? _]. congruence. }
  split.
  - apply disconnect_no_seat. intros [k v] p Hkv Hp. cbn [snd] in Hp.
    assert (rooms_get k (rooms s1) = Some v) as Hget.
    { apply rooms_get_elem; [|done]. unfold s1. cbn [rooms]. by apply rooms_set_wf. }
    by eapply Hnone.
  - destruct (make_move_cases old roomId index s1)
      as [[_ ->]|(room1 & player1 & q & i1 & Hr1 & Hf1 & _)]; [done|].
    apply find_Some_elem in Hf1 as [Hin Hid]. apply bool_decide_eq_true in Hid.
    by destruct (Hnone _ _ _ Hr1 Hin).
Qed.

Lemma replaced_socket_is_ignored_witness :
  let s := (run init [CreateRoom "s1" "A" "p1" "0.4fzyo82mvyr";
                      JoinRoom "s2" "B" "p2" "4FZYO8"]).1 in
  disconnect "s1" (rejoin_room "s3" "4FZYO8" "p1" s).1
  = ((rejoin_room "s3" "4FZYO8" "p1" s).1, [])
  ∧ make_move "s1" "4FZYO8" (JNum (inject_Z 4)) (rejoin_room "s3" "4FZYO8" "p1" s).1
    = ((rejoin_room "s3" "4FZYO8" "p1" s).1, []).
Proof.
  intros s.
  set (room := mkRoom [mkSeat (Some "s1") "p1" "A" X 0; mkSeat (Some "s2") "p2" "B" O 0]
                      (replicate 9 None) X 1 ∅ None).
  apply (replaced_socket_is_ignored "s1" "s3" "4FZYO8" s room 0
           (mkSeat (Some "s1") "p1" "A" X 0) (JNum (inject_Z 4))).
  - unfold wf_store. by_computing.
  - reflexivity.
  - reflexivity.
  - intros j p Hj. lia.
  - intros roomId' room' j p Hr' Hj Hid.
    assert (rooms s = [("4FZYO8", room)]) as Hs by reflexivity.
    rewrite Hs in Hr'. simpl in Hr'.
    destruct (decide ("4FZYO8" = roomId')) as [<-|]; [|done].
    injection Hr' as <-. split; [done|].
    destruct j as [|[|j]]; simpl in Hj; simplify_eq; done.
  - done.
Defined.
